(** * readme-generator: repository analysis, completion client, post-processing

    A shallow embedding of the core of the README generator:
    - [src/config.py]            the [Config] dataclass and its defaults,
    - [src/models.py]            [FileData], [LanguageStats], [RepositoryData],
    - [src/github_analyzer.py]   the recursive directory walker, the language
                                 statistics and the project-type heuristic,
    - [src/readme_generator.py]  the code-sample section of the prompt, the
                                 completion client and the Markdown
                                 post-processor.

    Conventions of the embedding.
    - A Python [str] is a [string] whose characters are code points below
      256; on that range [lower], [splitlines] and [strip] below are the
      Python built-ins.
    - A Python [int] is a [Z].  The percentages of [LanguageStats]
      (Python floats obtained by [lines / total_lines * 100]) are exact
      rationals [Q], and so are the delays [retry_delay * (2**attempt)] of
      the two retry loops, a product that is exact in floats as long as
      it stays in the range of a double; where [2**attempt] itself has no
      float the product raises, and the loops model that.
    - A Python [dict] is an association list in insertion order.
    - [None] of an [Optional] is [None] of an [option].
    - The HTTP side is an oracle: what the two GitHub helpers return for a
      path, and what the completion endpoint answers to the k-th request. *)

From Stdlib Require Import String Ascii List Bool Arith ZArith QArith Qabs Lia.
Import ListNotations.

Open Scope string_scope.
Open Scope Z_scope.

(* ===================================================================== *)
(** ** Python built-ins on strings and lists *)
(* ===================================================================== *)

Module Py.

Definition LF : ascii := "010"%char.
Definition CR : ascii := "013"%char.

(** The one-character string "\n". *)
Definition nl : string := String LF EmptyString.

(** [s.startswith(p)] *)
Definition startswith (p s : string) : bool := String.prefix p s.

(** [p in s] for strings. *)
Fixpoint contains (p s : string) : bool :=
  if String.prefix p s then true
  else match s with
       | EmptyString => false
       | String _ s' => contains p s'
       end.

(** [s[:n]] *)
Fixpoint take (n : nat) (s : string) : string :=
  match n, s with
  | S n', String c s' => String c (take n' s')
  | _, _ => EmptyString
  end.

(** [s[n:]] *)
Fixpoint drop (n : nat) (s : string) : string :=
  match n, s with
  | S n', String _ s' => drop n' s'
  | _, _ => s
  end.

(** [c.lower()] on code points below 256: A-Z and the Latin-1 capitals
    U+00C0..U+00DE (without the multiplication sign U+00D7). *)
Definition lower_char (c : ascii) : ascii :=
  let n := nat_of_ascii c in
  if ((65 <=? n) && (n <=? 90)
      || (192 <=? n) && (n <=? 222) && negb (n =? 215))%nat
  then ascii_of_nat (n + 32) else c.

(** [s.lower()] *)
Fixpoint lower (s : string) : string :=
  match s with
  | EmptyString => EmptyString
  | String c s' => String (lower_char c) (lower s')
  end.

(** [s.replace(old, new)] for a non-empty [old]: leftmost occurrences,
    not overlapping, in one pass.  [skip] counts the characters of a
    matched occurrence of [old] that still have to be consumed. *)
Fixpoint replace_from (old new : string) (skip : nat) (s : string) : string :=
  match s with
  | EmptyString => EmptyString
  | String c s' =>
      match skip with
      | S k => replace_from old new k s'
      | O =>
          if String.prefix old s
          then new ++ replace_from old new (String.length old - 1) s'
          else String c (replace_from old new O s')
      end
  end.

Definition replace (old new s : string) : string := replace_from old new O s.

(** [s.split(sep)] for a one-character separator: never the empty list. *)
Fixpoint split (sep : ascii) (s : string) : list string :=
  match s with
  | EmptyString => [EmptyString]
  | String c s' =>
      if Ascii.eqb c sep then EmptyString :: split sep s'
      else match split sep s' with
           | h :: t => String c h :: t
           | [] => [String c EmptyString]
           end
  end.

(** [sep.join(l)] *)
Definition join (sep : string) (l : list string) : string := String.concat sep l.

(** [l.insert(i, x)] for [i >= 0]: past the end it appends. *)
Definition list_insert {A : Type} (i : nat) (x : A) (l : list A) : list A :=
  firstn i l ++ x :: skipn i l.

(** The line boundaries of [str.splitlines] below 256:
    LF, VT, FF, CR, FS, GS, RS and NEL. *)
Definition is_linebreak (c : ascii) : bool :=
  let n := nat_of_ascii c in
  ((n =? 10) || (n =? 11) || (n =? 12) || (n =? 13)
   || (n =? 28) || (n =? 29) || (n =? 30) || (n =? 133))%nat.

(** [s.splitlines()]: CR LF is one boundary, and a final boundary opens no
    further line.  [cur] is the line being read. *)
Fixpoint splitlines_from (cur : string) (s : string) : list string :=
  match s with
  | EmptyString =>
      match cur with EmptyString => [] | _ => [cur] end
  | String c s' =>
      if Ascii.eqb c CR then
        match s' with
        | String c' s'' =>
            if Ascii.eqb c' LF then cur :: splitlines_from EmptyString s''
            else cur :: splitlines_from EmptyString s'
        | EmptyString => cur :: splitlines_from EmptyString s'
        end
      else if is_linebreak c then cur :: splitlines_from EmptyString s'
      else splitlines_from (cur ++ String c EmptyString) s'
  end.

Definition splitlines (s : string) : list string := splitlines_from EmptyString s.

(** White space of [str.strip] below 256. *)
Definition is_space (c : ascii) : bool :=
  let n := nat_of_ascii c in
  ((9 <=? n) && (n <=? 13) || (28 <=? n) && (n <=? 32)
   || (n =? 133) || (n =? 160))%nat.

Fixpoint lstrip (s : string) : string :=
  match s with
  | String c s' => if is_space c then lstrip s' else s
  | EmptyString => EmptyString
  end.

Fixpoint rstrip (s : string) : string :=
  match s with
  | EmptyString => EmptyString
  | String c s' =>
      match rstrip s' with
      | EmptyString => if is_space c then EmptyString else String c EmptyString
      | r => String c r
      end
  end.

(** [s.strip()] *)
Definition strip (s : string) : string := rstrip (lstrip s).

(** [s.rfind(".")], [None] for -1. *)
Fixpoint rfind_dot (s : string) : option nat :=
  match s with
  | EmptyString => None
  | String c s' =>
      match rfind_dot s' with
      | Some i => Some (S i)
      | None => if Ascii.eqb c "."%char then Some O else None
      end
  end.

(** [Path(name).suffix] for a [name] that is a single path component
    (the "name" field of a GitHub contents entry):
    [i = name.rfind('.')], and [name[i:]] when [0 < i < len(name) - 1]. *)
Definition suffix (name : string) : string :=
  match rfind_dot name with
  | Some i =>
      if ((0 <? i) && (i + 1 <? String.length name))%nat then drop i name
      else EmptyString
  | None => EmptyString
  end.

(** [x in l] for a list of strings. *)
Definition mem (x : string) (l : list string) : bool :=
  existsb (String.eqb x) l.

(** Truthiness of a string. *)
Definition truthy (s : string) : bool := negb (String.eqb s EmptyString).

(** Dictionaries in insertion order. *)
Section Dict.
Context {V : Type}.

(** [d.get(k)] *)
Fixpoint dict_get (d : list (string * V)) (k : string) : option V :=
  match d with
  | [] => None
  | (k', v) :: d' => if String.eqb k k' then Some v else dict_get d' k
  end.

(** [d[k] = v]: an existing key keeps its place, a new one goes last. *)
Fixpoint dict_set (d : list (string * V)) (k : string) (v : V) : list (string * V) :=
  match d with
  | [] => [(k, v)]
  | (k', v') :: d' =>
      if String.eqb k k' then (k', v) :: d' else (k', v') :: dict_set d' k v
  end.

End Dict.

(** [c in chars] for a character and a string. *)
Definition in_chars (c : ascii) (chars : string) : bool :=
  existsb (Ascii.eqb c) (list_ascii_of_string chars).

(** [s.lstrip(chars)], [s.rstrip(chars)] and [s.strip(chars)]. *)
Fixpoint lstrip_chars (chars s : string) : string :=
  match s with
  | String c s' => if in_chars c chars then lstrip_chars chars s' else s
  | EmptyString => EmptyString
  end.

Fixpoint rstrip_chars (chars s : string) : string :=
  match s with
  | EmptyString => EmptyString
  | String c s' =>
      match rstrip_chars chars s' with
      | EmptyString => if in_chars c chars then EmptyString else String c EmptyString
      | r => String c r
      end
  end.

Definition strip_chars (chars s : string) : string :=
  rstrip_chars chars (lstrip_chars chars s).

(** [s[:k]] for an integer [k]: a negative [k] counts from the end. *)
Definition slice_to (k : Z) (s : string) : string :=
  if k <? 0 then take (Z.to_nat (Z.of_nat (String.length s) + k)) s
  else take (Z.to_nat k) s.

(** [x * (2**e)] for a float [x] converts the int [2**e] to a float
    first: that raises OverflowError ("int too large to convert to
    float") from [e = 1024] on, the largest power of two of a double
    being [2**1023]. *)
Definition float_pow2_overflows (e : Z) : bool := 1024 <=? e.

End Py.

(* ===================================================================== *)
(** ** src/config.py *)
(* ===================================================================== *)

Module Config.

Record t := {
  openrouter_api_key : string;
  model_name : string;
  api_base_url : string;
  max_file_size : Z;
  max_files : Z;
  supported_extensions : list string;
  readme_template : string;
  include_badges : bool;
  include_toc : bool;
  include_installation : bool;
  include_usage : bool;
  include_api_docs : bool;
  include_contributing : bool;
  include_license : bool;
  request_timeout : Z;
  max_retries : Z;
  retry_delay : Q;
  max_tokens : Z
}.

(** The field defaults of the dataclass. *)
Definition default : t := {|
  openrouter_api_key := "";
  model_name := "openai/gpt-4o";
  api_base_url := "https://openrouter.ai/api/v1";
  max_file_size := 100000;
  max_files := 50;
  supported_extensions :=
    [".py"; ".js"; ".ts"; ".jsx"; ".tsx"; ".java"; ".cpp"; ".c"; ".cs";
     ".rb"; ".go"; ".rust"; ".rs"; ".php"; ".swift"; ".kt"; ".scala";
     ".md"; ".txt"; ".yaml"; ".yml"; ".json"; ".toml"; ".cfg"; ".ini";
     ".dockerfile"; "Dockerfile"; "Makefile"; ".sh"; ".bat"];
  readme_template := "comprehensive";
  include_badges := true;
  include_toc := true;
  include_installation := true;
  include_usage := true;
  include_api_docs := true;
  include_contributing := true;
  include_license := true;
  request_timeout := 30;
  max_retries := 3;
  retry_delay := 1%Q;
  max_tokens := 2000
|}.

End Config.

(* ===================================================================== *)
(** ** src/models.py *)
(* ===================================================================== *)

Module FileData.

Record t := {
  path : string;
  name : string;
  extension : string;
  size : Z;
  content : string
}.

End FileData.

Module LanguageStats.

Record t := {
  languages : list (string * Q);  (* language name -> percentage *)
  total_lines : Z
}.

End LanguageStats.

Module RepositoryData.
Import Py.

Record t := {
  name : string;
  full_name : string;
  description : string;
  url : string;
  clone_url : string;
  language : string;
  languages : LanguageStats.t;
  stars : Z;
  forks : Z;
  open_issues : Z;
  created_at : string;
  updated_at : string;
  project_type : string;
  files : list FileData.t;
  readme_content : string;
  license_content : string;
  has_wiki : bool;
  has_issues : bool;
  has_projects : bool
}.

(** [next((f for f in self.files if f.name.lower() == name.lower()), None)] *)
Definition get_file_by_name (self : t) (n : string) : option FileData.t :=
  find (fun f => String.eqb (lower (FileData.name f)) (lower n)) (files self).

Definition config_patterns : list string :=
  [".json"; ".yaml"; ".yml"; ".toml"; ".ini"; ".cfg";
   "dockerfile"; "makefile"; ".env"].

Definition get_config_files (self : t) : list FileData.t :=
  filter (fun f =>
            mem (lower (FileData.extension f)) config_patterns
            || mem (lower (FileData.name f)) ["dockerfile"; "makefile"]
            || startswith ".env" (lower (FileData.name f)))
         (files self).

(** [max(items, key=lambda x: x[1])]: the first item whose value no
    later one exceeds; [best] is the maximum so far. *)
Fixpoint max_item (best : string * Q) (items : list (string * Q)) : string * Q :=
  match items with
  | [] => best
  | kv :: rest =>
      if Qle_bool (snd kv) (snd best) then max_item best rest
      else max_item kv rest
  end.

Definition get_main_language (self : t) : string :=
  match LanguageStats.languages (languages self) with
  | kv :: rest => fst (max_item kv rest)
  | [] => if truthy (language self) then language self else "Unknown"
  end.

End RepositoryData.

(* ===================================================================== *)
(** ** src/github_analyzer.py *)
(* ===================================================================== *)

Module GitHubAnalyzer.
Import Py.

(** One entry of a directory listing of the contents API: the keys
    "path", "name", "type" and the optional "size". *)
Record Item := {
  item_path : string;
  item_name : string;
  item_type : string;
  item_size : option Z
}.

(** The remote repository as the walker sees it: what
    [_get_repository_contents] and [_get_file_content] return for a path
    ([None] for a failed request). *)
Record Remote := {
  _get_repository_contents : string -> option (list Item);
  _get_file_content : string -> option string
}.

(** The file names accepted whatever their extension. *)
Definition special_file_names : list string :=
  ["README.md"; "LICENSE"; "Dockerfile"; "Makefile"].

(** The body of [for item in contents:], [files] being the list built so
    far and [recurse] the recursive call on a subdirectory. *)
Fixpoint walk_items (config : Config.t) (remote : Remote)
    (recurse : string -> list FileData.t)
    (contents : list Item) (files : list FileData.t) : list FileData.t :=
  match contents with
  | [] => files
  | item :: rest =>
      if Z.of_nat (List.length files) >=? Config.max_files config then files
      else
        let file_path := item_path item in
        let file_name := item_name item in
        if String.eqb (item_type item) "dir" then
          let subfiles := recurse file_path in
          walk_items config remote recurse rest (files ++ subfiles)
        else
          let file_extension := lower (suffix file_name) in
          if mem file_extension (Config.supported_extensions config)
             || mem file_name special_file_names
          then
            let file_size := match item_size item with Some n => n | None => 0 end in
            if file_size <=? Config.max_file_size config then
              let content := _get_file_content remote file_path in
              walk_items config remote recurse rest
                (files ++ [ {| FileData.path := file_path;
                               FileData.name := file_name;
                               FileData.extension := file_extension;
                               FileData.size := file_size;
                               FileData.content :=
                                 match content with
                                 | Some c => c
                                 | None => EmptyString
                                 end |} ])
            else walk_items config remote recurse rest files
          else walk_items config remote recurse rest files
  end.

(** [_analyze_directory_structure], the recursion depth made explicit:
    [fuel] bounds the nesting of the calls, which the test
    [level > max_level] bounds by itself (see [walk_fuel_enough]). *)
Fixpoint walk (fuel : nat) (config : Config.t) (remote : Remote)
    (path : string) (level max_level : Z) : list FileData.t :=
  match fuel with
  | O => []
  | S fuel' =>
      if level >? max_level then []
      else
        match _get_repository_contents remote path with
        | None => []
        | Some [] => []
        | Some contents =>
            walk_items config remote
              (fun p => walk fuel' config remote p (level + 1) max_level)
              contents []
        end
  end.

(** The calls nest at most [max_level - level + 2] deep. *)
Definition _analyze_directory_structure (config : Config.t) (remote : Remote)
    (path : string) (level max_level : Z) : list FileData.t :=
  walk (S (Z.to_nat (max_level + 1 - level))) config remote path level max_level.

(** The call of [analyze_repository]: [path=""], [level=0], [max_level=3]. *)
Definition analyze_files (config : Config.t) (remote : Remote) : list FileData.t :=
  _analyze_directory_structure config remote "" 0 3.

Definition language_map : list (string * string) :=
  [(".py", "Python"); (".js", "JavaScript"); (".ts", "TypeScript");
   (".jsx", "React"); (".tsx", "React TypeScript"); (".java", "Java");
   (".cpp", "C++"); (".c", "C"); (".cs", "C#"); (".rb", "Ruby");
   (".go", "Go"); (".rs", "Rust"); (".php", "PHP"); (".swift", "Swift");
   (".kt", "Kotlin"); (".scala", "Scala")].

(** [len(file_data.content.splitlines()) if file_data.content else 0] *)
Definition count_lines (file_data : FileData.t) : Z :=
  if truthy (FileData.content file_data)
  then Z.of_nat (List.length (splitlines (FileData.content file_data)))
  else 0.

(** One turn of the loop over [files]: the state is
    [(language_counts, total_lines)]. *)
Definition count_file (st : list (string * Z) * Z) (file_data : FileData.t)
    : list (string * Z) * Z :=
  let '(language_counts, total_lines) := st in
  match dict_get language_map (FileData.extension file_data) with
  | Some language =>
      let lines := count_lines file_data in
      let old := match dict_get language_counts language with
                 | Some n => n
                 | None => 0
                 end in
      (dict_set language_counts language (old + lines), total_lines + lines)
  | None => st
  end.

Definition count_languages (files : list FileData.t) : list (string * Z) * Z :=
  fold_left count_file files ([], 0).

(** [(lines / total_lines) * 100] *)
Definition percentage (lines total_lines : Z) : Q :=
  ((inject_Z lines / inject_Z total_lines) * 100)%Q.

Definition _analyze_languages (files : list FileData.t) : LanguageStats.t :=
  let '(language_counts, total_lines) := count_languages files in
  let language_percentages :=
    if total_lines >? 0
    then map (fun '(language, lines) => (language, percentage lines total_lines))
             language_counts
    else [] in
  {| LanguageStats.languages := language_percentages;
     LanguageStats.total_lines := total_lines |}.

(** [file_names] and [file_extensions] are sets in the source; they are
    only tested for membership and scanned by [any], so lists with
    repetitions behave alike. *)
Definition file_names_of (files : list FileData.t) : list string :=
  map (fun f => lower (FileData.name f)) files.

Definition file_extensions_of (files : list FileData.t) : list string :=
  map FileData.extension files.

(** [any(marker in f.content.lower() for f in files if f.content)] *)
Definition content_mentions (marker : string) (files : list FileData.t) : bool :=
  existsb (fun f => contains marker (lower (FileData.content f)))
          (filter (fun f => truthy (FileData.content f)) files).

Definition _detect_project_type (files : list FileData.t) : string :=
  let file_names := file_names_of files in
  let file_extensions := file_extensions_of files in
  if mem "package.json" file_names then
    if existsb (fun ext => contains ".jsx" ext || contains ".tsx" ext) file_extensions
    then "React Application"
    else if existsb (fun ext => contains ".vue" ext) file_extensions
    then "Vue.js Application"
    else "Node.js Application"
  else if mem "requirements.txt" file_names || mem "pyproject.toml" file_names then
    if mem "manage.py" file_names then "Django Application"
    else if content_mentions "flask" files then "Flask Application"
    else if content_mentions "fastapi" files then "FastAPI Application"
    else "Python Project"
  else if mem "pom.xml" file_names || mem "build.gradle" file_names then "Java Project"
  else if mem "cargo.toml" file_names then "Rust Project"
  else if mem "go.mod" file_names then "Go Project"
  else if mem "gemfile" file_names then "Ruby Project"
  else "General Project".

(** The fields of the repository-information response that
    [analyze_repository] reads, with the defaults of its [.get] calls
    applied. *)
Record RepoInfo := {
  info_name : string;
  info_full_name : string;
  info_description : string;
  info_html_url : string;
  info_clone_url : string;
  info_language : string;
  info_stargazers_count : Z;
  info_forks_count : Z;
  info_open_issues_count : Z;
  info_created_at : string;
  info_updated_at : string;
  info_has_wiki : bool;
  info_has_issues : bool;
  info_has_projects : bool
}.

(** [analyze_repository] once the repository information is there. *)
Definition analyze_repository (config : Config.t) (remote : Remote)
    (repo_info : RepoInfo) : RepositoryData.t :=
  let files := analyze_files config remote in
  let language_stats := _analyze_languages files in
  let project_type := _detect_project_type files in
  let readme_file :=
    find (fun f => startswith "readme" (lower (FileData.name f))) files in
  let license_file :=
    find (fun f => startswith "license" (lower (FileData.name f))) files in
  {| RepositoryData.name := info_name repo_info;
     RepositoryData.full_name := info_full_name repo_info;
     RepositoryData.description := info_description repo_info;
     RepositoryData.url := info_html_url repo_info;
     RepositoryData.clone_url := info_clone_url repo_info;
     RepositoryData.language := info_language repo_info;
     RepositoryData.languages := language_stats;
     RepositoryData.stars := info_stargazers_count repo_info;
     RepositoryData.forks := info_forks_count repo_info;
     RepositoryData.open_issues := info_open_issues_count repo_info;
     RepositoryData.created_at := info_created_at repo_info;
     RepositoryData.updated_at := info_updated_at repo_info;
     RepositoryData.project_type := project_type;
     RepositoryData.files := files;
     RepositoryData.readme_content :=
       match readme_file with Some f => FileData.content f | None => EmptyString end;
     RepositoryData.license_content :=
       match license_file with Some f => FileData.content f | None => EmptyString end;
     RepositoryData.has_wiki := info_has_wiki repo_info;
     RepositoryData.has_issues := info_has_issues repo_info;
     RepositoryData.has_projects := info_has_projects repo_info |}.

(** *** The GitHub request helper *)

Section GitHubApi.
Context {Json : Type}.

(** What one GET yields: a response with its status and decoded body, or
    an [aiohttp.ClientError]. *)
Inductive ApiResponse :=
| ApiHttp (status : Z) (data : Json)
| ApiClientError.

(** What [_get_github_api_data] has done so far: the number of requests
    and the delays slept, oldest first. *)
Record ApiSession := {
  api_requests : nat;
  api_slept : list Q
}.

Definition api_get (s : ApiSession) : ApiSession :=
  {| api_requests := S (api_requests s); api_slept := api_slept s |}.

Definition api_sleep (d : Q) (s : ApiSession) : ApiSession :=
  {| api_requests := api_requests s; api_slept := (api_slept s ++ [d])%list |}.

(** How the call ends: [return] of the decoded body or of [None], or an
    exception that is not an [aiohttp.ClientError]. *)
Inductive ApiOutcome :=
| ApiReturn (data : option Json)
| ApiRaise.

(** [self.config.retry_delay * (2**attempt)], where it has a value. *)
Definition api_backoff (config : Config.t) (attempt : Z) : Q :=
  (Config.retry_delay config * inject_Z (2 ^ attempt))%Q.

(** [await asyncio.sleep(self.config.retry_delay * (2**attempt))]: the
    product raises OverflowError when [2**attempt] has no float, and
    nothing is slept then. *)
Definition api_try_sleep (config : Config.t) (attempt : Z) (s : ApiSession)
    : option ApiSession :=
  if float_pow2_overflows attempt then None
  else Some (api_sleep (api_backoff config attempt) s).

(** The statements after the [try] block. *)
Definition api_after_try (config : Config.t) (attempt : Z) (s : ApiSession)
    : option ApiSession :=
  if attempt <? Config.max_retries config - 1
  then api_try_sleep config attempt s
  else Some s.

(** [for attempt in range(self.config.max_retries):] with [remaining]
    turns to go; [server] gives the answer to the k-th request. *)
Fixpoint api_attempts (config : Config.t) (server : nat -> ApiResponse)
    (remaining : nat) (attempt : Z) (s : ApiSession) : ApiOutcome * ApiSession :=
  match remaining with
  | O => (ApiReturn None, s)
  | S remaining' =>
      let response := server (api_requests s) in
      let s1 := api_get s in
      match response with
      | ApiHttp status data =>
          if status =? 200 then (ApiReturn (Some data), s1)
          else if status =? 404 then (ApiReturn None, s1)
          else if status =? 403 then
            if attempt <? Config.max_retries config - 1
            then match api_try_sleep config attempt s1 with
                 | Some s2 => api_attempts config server remaining' (attempt + 1) s2
                 | None => (ApiRaise, s1)
                 end
            else (ApiReturn None, s1)
          else match api_after_try config attempt s1 with
               | Some s2 => api_attempts config server remaining' (attempt + 1) s2
               | None => (ApiRaise, s1)
               end
      | ApiClientError =>
          match api_after_try config attempt s1 with
          | Some s2 => api_attempts config server remaining' (attempt + 1) s2
          | None => (ApiRaise, s1)
          end
      end
  end.

Definition _get_github_api_data (config : Config.t) (server : nat -> ApiResponse)
    : ApiOutcome * ApiSession :=
  api_attempts config server (Z.to_nat (Config.max_retries config)) 0
               {| api_requests := O; api_slept := [] |}.

End GitHubApi.

Arguments ApiResponse : clear implicits.
Arguments ApiOutcome : clear implicits.

End GitHubAnalyzer.

(* ===================================================================== *)
(** ** src/readme_generator.py *)
(* ===================================================================== *)

Module ReadmeGenerator.
Import Py.

Definition lang_map : list (string * string) :=
  [(".py", "python"); (".js", "javascript"); (".ts", "typescript");
   (".jsx", "jsx"); (".tsx", "tsx"); (".java", "java"); (".cpp", "cpp");
   (".c", "c"); (".cs", "csharp"); (".rb", "ruby"); (".go", "go");
   (".rs", "rust"); (".php", "php"); (".swift", "swift"); (".kt", "kotlin");
   (".scala", "scala"); (".json", "json"); (".yaml", "yaml"); (".yml", "yaml");
   (".toml", "toml"); (".xml", "xml"); (".html", "html"); (".css", "css");
   (".sh", "bash"); (".bat", "batch"); (".md", "markdown")].

(** [lang_map.get(extension.lower(), "")] *)
Definition _get_language_for_extension (extension : string) : string :=
  match dict_get lang_map (lower extension) with
  | Some l => l
  | None => EmptyString
  end.

Definition main_files : list string :=
  ["main.py"; "app.py"; "index.js"; "main.js"; "server.js"; "main.java";
   "Main.java"; "main.go"; "lib.rs"; "main.rs"].

Definition fence : string := "```".

(** The loop over [main_files]: the sample of the first entry point that
    is present with a non-empty content, then [break]. *)
Fixpoint main_sample (repo_data : RepositoryData.t) (names : list string)
    : list string :=
  match names with
  | [] => []
  | filename :: rest =>
      match RepositoryData.get_file_by_name repo_data filename with
      | Some file_data =>
          if truthy (FileData.content file_data) then
            [ "### " ++ filename ++ nl ++ fence
              ++ _get_language_for_extension (FileData.extension file_data) ++ nl
              ++ take 500 (FileData.content file_data) ++ "..." ++ nl ++ fence ]
          else main_sample repo_data rest
      | None => main_sample repo_data rest
      end
  end.

(** The loop over [config_files[:2]]. *)
Definition config_samples (repo_data : RepositoryData.t) : list string :=
  flat_map
    (fun config_file =>
       if truthy (FileData.content config_file)
          && (String.length (FileData.content config_file) <? 1000)%nat
       then
         let lang := _get_language_for_extension (FileData.extension config_file) in
         [ "### " ++ FileData.name config_file ++ nl ++ fence ++ lang ++ nl
           ++ FileData.content config_file ++ nl ++ fence ]
       else [])
    (firstn 2 (RepositoryData.get_config_files repo_data)).

Definition _create_code_samples (repo_data : RepositoryData.t) : string :=
  let samples := (main_sample repo_data main_files ++ config_samples repo_data)%list in
  match samples with
  | [] => "No significant code samples found."
  | _ => join (nl ++ nl) samples
  end.

(** *** The completion client *)

Record Message := { role : string; message_content : string }.

(** The JSON body of the completion request. *)
Record Payload := {
  model : string;
  messages : list Message;
  payload_max_tokens : Z;
  temperature : Q;
  top_p : Q
}.

Definition system_prompt : string :=
  "You are an expert technical writer specializing in creating comprehensive, professional README.md files for software projects. You analyze code repositories and generate clear, well-structured documentation that helps users understand, install, and use the software effectively.".

(** The [payload] dictionary of [_call_openrouter_api]. *)
Definition build_payload (config : Config.t) (prompt : string) : Payload :=
  {| model := Config.model_name config;
     messages := [ {| role := "system"; message_content := system_prompt |};
                   {| role := "user"; message_content := prompt |} ];
     payload_max_tokens := 4000;
     temperature := 3 # 10;
     top_p := 9 # 10 |}.

(** The JSON of a 200 answer as the client reads it: a non-empty
    "choices" whose first message has a text content, no usable
    "choices", or a shape on which the subscripts raise. *)
Inductive Body :=
| Choices (text : string)
| NoChoices
| Unexpected.

(** What one POST yields: a response with its status, or an
    [aiohttp.ClientError]. *)
Inductive Response :=
| Http (status : Z) (body : Body)
| ClientError.

(** The completion endpoint: its answer to the k-th request of a run. *)
Definition Endpoint := nat -> Response.

(** What the client has done so far: the requests posted and the delays
    slept, oldest first. *)
Record Session := {
  sent : list Payload;
  slept : list Q
}.

Definition post (payload : Payload) (s : Session) : Session :=
  {| sent := (sent s ++ [payload])%list; slept := slept s |}.

Definition sleep (d : Q) (s : Session) : Session :=
  {| sent := sent s; slept := (slept s ++ [d])%list |}.

(** How the call ends: [return] of a text or of [None], or an exception
    that is not an [aiohttp.ClientError]. *)
Inductive Outcome :=
| Return (text : option string)
| Raise.

(** [self.config.retry_delay * (2**attempt)], where it has a value. *)
Definition backoff (config : Config.t) (attempt : Z) : Q :=
  (Config.retry_delay config * inject_Z (2 ^ attempt))%Q.

(** [await asyncio.sleep(self.config.retry_delay * (2**attempt))]: the
    product raises OverflowError when [2**attempt] has no float, and
    nothing is slept then. *)
Definition try_sleep (config : Config.t) (attempt : Z) (s : Session)
    : option Session :=
  if float_pow2_overflows attempt then None
  else Some (sleep (backoff config attempt) s).

(** The statements after the [try] block: sleep unless this was the last
    attempt. *)
Definition after_try (config : Config.t) (attempt : Z) (s : Session)
    : option Session :=
  if attempt <? Config.max_retries config - 1
  then try_sleep config attempt s
  else Some s.

(** [for attempt in range(self.config.max_retries):] with [remaining]
    turns to go. *)
Fixpoint attempts (config : Config.t) (endpoint : Endpoint) (payload : Payload)
    (remaining : nat) (attempt : Z) (s : Session) : Outcome * Session :=
  match remaining with
  | O => (Return None, s)
  | S remaining' =>
      let response := endpoint (List.length (sent s)) in
      let s1 := post payload s in
      match response with
      | Http status body =>
          if status =? 200 then
            match body with
            | Choices text => (Return (Some (strip text)), s1)
            | NoChoices => (Return None, s1)
            | Unexpected => (Raise, s1)
            end
          else if status =? 401 then (Return None, s1)
          else if status =? 429 then
            if attempt <? Config.max_retries config - 1
            then match try_sleep config attempt s1 with
                 | Some s2 =>
                     attempts config endpoint payload remaining' (attempt + 1) s2
                 | None => (Raise, s1)
                 end
            else match after_try config attempt s1 with
                 | Some s2 =>
                     attempts config endpoint payload remaining' (attempt + 1) s2
                 | None => (Raise, s1)
                 end
          else match after_try config attempt s1 with
               | Some s2 =>
                   attempts config endpoint payload remaining' (attempt + 1) s2
               | None => (Raise, s1)
               end
      | ClientError =>
          match after_try config attempt s1 with
          | Some s2 =>
              attempts config endpoint payload remaining' (attempt + 1) s2
          | None => (Raise, s1)
          end
      end
  end.

Definition new_session : Session := {| sent := []; slept := [] |}.

Definition _call_openrouter_api (config : Config.t) (endpoint : Endpoint)
    (prompt : string) : Outcome * Session :=
  attempts config endpoint (build_payload config prompt)
           (Z.to_nat (Config.max_retries config)) 0 new_session.

(** *** The Markdown post-processor *)

Definition shields : string := "https://img.shields.io/".

Definition _generate_badges (repo_data : RepositoryData.t) : string :=
  let full_name := RepositoryData.full_name repo_data in
  let badges :=
    ((if truthy (RepositoryData.language repo_data)
      then [ ("![Language](" ++ shields ++ "badge/Language-"
              ++ RepositoryData.language repo_data ++ "-blue)")%string ]
      else [])
     ++ (if RepositoryData.stars repo_data >? 0
         then [ ("![Stars](" ++ shields ++ "github/stars/" ++ full_name ++ ")")%string ]
         else [])
     ++ (if RepositoryData.forks repo_data >? 0
         then [ ("![Forks](" ++ shields ++ "github/forks/" ++ full_name ++ ")")%string ]
         else [])
     ++ (if RepositoryData.has_issues repo_data
         then [ ("![Issues](" ++ shields ++ "github/issues/" ++ full_name ++ ")")%string ]
         else [])
     ++ (if truthy (RepositoryData.license_content repo_data)
         then [ ("![License](" ++ shields ++ "github/license/" ++ full_name ++ ")")%string ]
         else [])
     ++ [ ("![Last Commit](" ++ shields ++ "github/last-commit/" ++ full_name ++ ")")%string ])%list in
  match badges with
  | [] => EmptyString
  | _ => join " " badges
  end.

(** The index of the first line that starts with "# ", 0 when there is
    none. *)
Fixpoint find_title_line (lines : list string) : option nat :=
  match lines with
  | [] => None
  | line :: rest =>
      if startswith "# " line then Some O
      else option_map S (find_title_line rest)
  end.

Definition title_line_of (lines : list string) : nat :=
  match find_title_line lines with
  | Some i => i
  | None => O
  end.

(** First step: a heading built from the repository name unless the text
    starts with one. *)
Definition ensure_title (repo_data : RepositoryData.t) (content : string) : string :=
  if startswith "# " content then content
  else "# " ++ RepositoryData.name repo_data ++ nl ++ nl ++ content.

(** Second step: the badge line after the title. *)
Definition add_badges (config : Config.t) (repo_data : RepositoryData.t)
    (content : string) : string :=
  if Config.include_badges config && negb (contains "![" (take 500 content)) then
    let badges := _generate_badges repo_data in
    if truthy badges then
      let lines := split LF content in
      let title_line := title_line_of lines in
      let lines := list_insert (title_line + 1) EmptyString lines in
      let lines := list_insert (title_line + 2) badges lines in
      let lines := list_insert (title_line + 3) EmptyString lines in
      join nl lines
    else content
  else content.

(** Third step: [content.replace("\n\n\n", "\n\n")]. *)
Definition fix_spacing (content : string) : string :=
  replace (nl ++ nl ++ nl) (nl ++ nl) content.

Definition _post_process_readme (config : Config.t) (content : string)
    (repo_data : RepositoryData.t) : string :=
  fix_spacing (add_badges config repo_data (ensure_title repo_data content)).

(** [generate_readme] for the prompt that [_create_analysis_prompt] has
    built: the completion call, the test [if not readme_content], the
    post-processing; any exception ends in [None]. *)
Definition generate_readme (config : Config.t) (endpoint : Endpoint)
    (repo_data : RepositoryData.t) (prompt : string) : option string :=
  match fst (_call_openrouter_api config endpoint prompt) with
  | Return (Some readme_content) =>
      if truthy readme_content
      then Some (_post_process_readme config readme_content repo_data)
      else None
  | Return None => None
  | Raise => None
  end.

End ReadmeGenerator.

(* ===================================================================== *)
(** ** src/utils.py *)
(* ===================================================================== *)

Module Utils.
Import Py.

(** The characters that [sanitize_filename] replaces:
    less-than, greater-than, colon, double quote, slash, backslash, bar,
    question mark, star. *)
Definition invalid_chars : string :=
  "<>:" ++ String "034"%char EmptyString ++ "/\|?*".

Definition sanitize_filename (filename : string) : string :=
  let filename :=
    fold_left (fun name char => replace (String char EmptyString) "_" name)
              (list_ascii_of_string invalid_chars) filename in
  let filename := strip_chars " ." filename in
  if truthy filename then filename else "README".

(** [truncate_text(text, max_length, suffix)] *)
Definition truncate_text (text : string) (max_length : Z) (suffix : string)
    : string :=
  if Z.of_nat (String.length text) <=? max_length then text
  else slice_to (max_length - Z.of_nat (String.length suffix)) text ++ suffix.

(** [re.sub(r"\n{3,}", "\n\n", s)]: of every maximal run of newlines the
    first two are kept.  [run] counts the newlines just before the
    current position. *)
Fixpoint squeeze_from (run : nat) (s : string) : string :=
  match s with
  | EmptyString => EmptyString
  | String c s' =>
      if Ascii.eqb c LF then
        if (run <? 2)%nat then String c (squeeze_from (S run) s')
        else squeeze_from (S run) s'
      else String c (squeeze_from O s')
  end.

Definition squeeze_newlines (s : string) : string := squeeze_from O s.

Definition clean_markdown (content : string) : string :=
  if truthy content then
    let lines := split LF content in
    let cleaned_lines := map rstrip lines in
    let cleaned := join nl cleaned_lines in
    let cleaned := squeeze_newlines cleaned in
    strip cleaned
  else EmptyString.

(** [file_contents.get(key, "")] *)
Definition get_content (file_contents : list (string * string)) (key : string)
    : string :=
  match dict_get file_contents key with
  | Some c => c
  | None => EmptyString
  end.

Definition detect_framework (files : list string)
    (file_contents : list (string * string)) : option string :=
  let filenames := map lower files in
  if mem "package.json" filenames then
    let package_content := get_content file_contents "package.json" in
    if contains "react" (lower package_content) then Some "React"
    else if contains "vue" (lower package_content) then Some "Vue.js"
    else if contains "angular" (lower package_content) then Some "Angular"
    else if contains "@nestjs" (lower package_content) then Some "NestJS"
    else Some "Node.js"
  else if mem "requirements.txt" filenames || mem "pyproject.toml" filenames then
    let reqs_content :=
      get_content file_contents "requirements.txt"
      ++ get_content file_contents "pyproject.toml" in
    if contains "django" (lower reqs_content) then Some "Django"
    else if contains "flask" (lower reqs_content) then Some "Flask"
    else if contains "fastapi" (lower reqs_content) then Some "FastAPI"
    else if contains "streamlit" (lower reqs_content) then Some "Streamlit"
    else Some "Python"
  else if mem "cargo.toml" filenames then Some "Rust"
  else if mem "go.mod" filenames then Some "Go"
  else if mem "pom.xml" filenames || mem "build.gradle" filenames then Some "Java"
  else None.

End Utils.

(* ===================================================================== *)
(** ** main.py *)
(* ===================================================================== *)

Module Main.
Import Py.

(** The file name of the default output,
    [f"readme-{safe_repo_name}.md"] with
    [safe_repo_name = sanitize_filename(repo_name)], which [main] places
    in the directory readmes. *)
Definition default_output_name (repo_name : string) : string :=
  "readme-" ++ Utils.sanitize_filename repo_name ++ ".md".

End Main.

(* ===================================================================== *)
(** ** Concrete repositories and configurations used below *)
(* ===================================================================== *)

Module Fixtures.
Import Py GitHubAnalyzer.

(** The default configuration with three of its fields replaced, as a
    configuration file does. *)
Definition configured (max_files max_file_size : Z) (exts : list string)
    : Config.t :=
  {| Config.openrouter_api_key := Config.openrouter_api_key Config.default;
     Config.model_name := Config.model_name Config.default;
     Config.api_base_url := Config.api_base_url Config.default;
     Config.max_file_size := max_file_size;
     Config.max_files := max_files;
     Config.supported_extensions := exts;
     Config.readme_template := Config.readme_template Config.default;
     Config.include_badges := Config.include_badges Config.default;
     Config.include_toc := Config.include_toc Config.default;
     Config.include_installation := Config.include_installation Config.default;
     Config.include_usage := Config.include_usage Config.default;
     Config.include_api_docs := Config.include_api_docs Config.default;
     Config.include_contributing := Config.include_contributing Config.default;
     Config.include_license := Config.include_license Config.default;
     Config.request_timeout := Config.request_timeout Config.default;
     Config.max_retries := Config.max_retries Config.default;
     Config.retry_delay := Config.retry_delay Config.default;
     Config.max_tokens := Config.max_tokens Config.default |}.

Definition file_entry (p n : string) (sz : Z) : Item :=
  {| item_path := p; item_name := n; item_type := "file"; item_size := Some sz |}.

Definition dir_entry (p n : string) : Item :=
  {| item_path := p; item_name := n; item_type := "dir"; item_size := Some 0 |}.

(** A repository given by its listings and file contents. *)
Definition remote_of (listings : list (string * list Item))
    (blobs : list (string * string)) : Remote :=
  {| _get_repository_contents := dict_get listings;
     _get_file_content := dict_get blobs |}.

(** a.py next to a directory [pkg] that holds b.py and c.py. *)
Definition nested_remote : Remote :=
  remote_of
    [ ("", [ file_entry "a.py" "a.py" 1; dir_entry "pkg" "pkg" ]);
      ("pkg", [ file_entry "pkg/b.py" "b.py" 1; file_entry "pkg/c.py" "c.py" 1 ]) ]
    [ ("a.py", "a"); ("pkg/b.py", "b"); ("pkg/c.py", "c") ].

(** At most two files. *)
Definition two_files_config : Config.t :=
  configured 2 100000 (Config.supported_extensions Config.default).

(** A repository whose only entry is README.md. *)
Definition readme_remote : Remote :=
  remote_of [ ("", [ file_entry "README.md" "README.md" 10 ]) ]
            [ ("README.md", "# hello") ].

(** Only Python sources are supported. *)
Definition python_only_config : Config.t :=
  configured 50 100000 [".py"].

(** A listing entry for a symbolic link: the contents API gives such an
    entry the type "symlink". *)
Definition symlink_entry (p n : string) (sz : Z) : Item :=
  {| item_path := p; item_name := n; item_type := "symlink";
     item_size := Some sz |}.

(** A repository whose only entry is the symbolic link link.py. *)
Definition symlink_remote : Remote :=
  remote_of [ ("", [ symlink_entry "link.py" "link.py" 7 ]) ] [].

(** The two files of the end-to-end scenario. *)
Definition main_py_text : string := "import os" ++ nl ++ "import sys" ++ nl.
Definition requirements_text : string := "flask" ++ nl.

Definition flask_remote : Remote :=
  remote_of
    [ ("", [ file_entry "main.py" "main.py" 21;
             file_entry "requirements.txt" "requirements.txt" 6 ]) ]
    [ ("main.py", main_py_text); ("requirements.txt", requirements_text) ].

(** An empty Python source next to a text file: no recognized file has
    lines. *)
Definition blank_files : list FileData.t :=
  [ {| FileData.path := "empty.py"; FileData.name := "empty.py";
       FileData.extension := ".py"; FileData.size := 0;
       FileData.content := "" |};
    {| FileData.path := "notes.txt"; FileData.name := "notes.txt";
       FileData.extension := ".txt"; FileData.size := 5;
       FileData.content := "hello" |} ].

(** A Node manifest that depends on react, and no other file. *)
Definition react_manifest_files : list FileData.t :=
  [ {| FileData.path := "package.json"; FileData.name := "package.json";
       FileData.extension := ".json"; FileData.size := 19;
       FileData.content := "dependencies: React" |} ].

(** A Node manifest next to a component source. *)
Definition react_component_files : list FileData.t :=
  [ {| FileData.path := "package.json"; FileData.name := "package.json";
       FileData.extension := ".json"; FileData.size := 2;
       FileData.content := "{}" |};
    {| FileData.path := "src/App.jsx"; FileData.name := "App.jsx";
       FileData.extension := ".jsx"; FileData.size := 0;
       FileData.content := "" |} ].

(** Some repository information. *)
Definition some_info : RepoInfo :=
  {| info_name := "demo"; info_full_name := "octo/demo";
     info_description := ""; info_html_url := "https://github.com/octo/demo";
     info_clone_url := "https://github.com/octo/demo.git";
     info_language := "Python"; info_stargazers_count := 0;
     info_forks_count := 0; info_open_issues_count := 0;
     info_created_at := ""; info_updated_at := "";
     info_has_wiki := false; info_has_issues := false;
     info_has_projects := false |}.

(** An endpoint that rejects the credential, and one that is always
    rate limited. *)
Definition unauthorized : ReadmeGenerator.Endpoint :=
  fun _ => ReadmeGenerator.Http 401 ReadmeGenerator.NoChoices.

Definition rate_limited : ReadmeGenerator.Endpoint :=
  fun _ => ReadmeGenerator.Http 429 ReadmeGenerator.NoChoices.

(** An endpoint that answers the first request with a completion. *)
Definition answering (text : string) : ReadmeGenerator.Endpoint :=
  fun _ => ReadmeGenerator.Http 200 (ReadmeGenerator.Choices text).

(** The repository of the end-to-end scenario. *)
Definition demo_repo : RepositoryData.t :=
  analyze_repository Config.default flask_remote some_info.

(** A generated text with four newlines in a row. *)
Definition spaced_text : string := "# Demo" ++ nl ++ nl ++ nl ++ nl ++ "Text".

(** A heading of 497 characters, with no newline after it. *)
Definition long_heading : string :=
  "# " ++ string_of_list_ascii (repeat "a"%char 495).

(** An endpoint that is rate limited [k] times and then answers with a
    completion. *)
Definition answering_after (k : nat) (text : string) : ReadmeGenerator.Endpoint :=
  fun i => if (i <? k)%nat
           then ReadmeGenerator.Http 429 ReadmeGenerator.NoChoices
           else ReadmeGenerator.Http 200 (ReadmeGenerator.Choices text).

(** An endpoint whose completion is blank. *)
Definition blank_answer : ReadmeGenerator.Endpoint := answering "   ".

(** The default configuration with the badges turned off. *)
Definition no_badges_config : Config.t :=
  {| Config.openrouter_api_key := Config.openrouter_api_key Config.default;
     Config.model_name := Config.model_name Config.default;
     Config.api_base_url := Config.api_base_url Config.default;
     Config.max_file_size := Config.max_file_size Config.default;
     Config.max_files := Config.max_files Config.default;
     Config.supported_extensions := Config.supported_extensions Config.default;
     Config.readme_template := Config.readme_template Config.default;
     Config.include_badges := false;
     Config.include_toc := Config.include_toc Config.default;
     Config.include_installation := Config.include_installation Config.default;
     Config.include_usage := Config.include_usage Config.default;
     Config.include_api_docs := Config.include_api_docs Config.default;
     Config.include_contributing := Config.include_contributing Config.default;
     Config.include_license := Config.include_license Config.default;
     Config.request_timeout := Config.request_timeout Config.default;
     Config.max_retries := Config.max_retries Config.default;
     Config.retry_delay := Config.retry_delay Config.default;
     Config.max_tokens := Config.max_tokens Config.default |}.


(** A text with a heading and one paragraph. *)
Definition tidy_text : string := "# Demo" ++ nl ++ nl ++ "Text" ++ nl.


Definition serving_after (k : nat) (data : string) : nat -> ApiResponse string :=
  fun i => if (i <? k)%nat then ApiHttp 502 "bad gateway" else ApiHttp 200 data.

(** A Django project whose requirements mention flask as well. *)
Definition django_files : list FileData.t :=
  [ {| FileData.path := "requirements.txt"; FileData.name := "requirements.txt";
       FileData.extension := ".txt"; FileData.size := 13;
       FileData.content := "Django" ++ nl ++ "Flask" ++ nl |};
    {| FileData.path := "manage.py"; FileData.name := "manage.py";
       FileData.extension := ".py"; FileData.size := 0;
       FileData.content := "" |} ].

(** A Node manifest next to a Vue component. *)
Definition vue_files : list FileData.t :=
  [ {| FileData.path := "package.json"; FileData.name := "package.json";
       FileData.extension := ".json"; FileData.size := 2;
       FileData.content := "{}" |};
    {| FileData.path := "src/App.vue"; FileData.name := "App.vue";
       FileData.extension := ".vue"; FileData.size := 0;
       FileData.content := "" |} ].

End Fixtures.

(* ===================================================================== *)
(** ** Vocabulary of the statements *)
(* ===================================================================== *)

Module Spec.
Import Py GitHubAnalyzer.

(** The record stands for the entry [item] of some listing of the
    repository. *)
Definition from_entry (remote : Remote) (r : FileData.t) (item : Item) : Prop :=
  exists dir contents,
    _get_repository_contents remote dir = Some contents
    /\ In item contents
    /\ FileData.path r = item_path item
    /\ FileData.name r = item_name item.

(** The record is a file: it stands for a listing entry of type "file". *)
Definition is_file (remote : Remote) (r : FileData.t) : Prop :=
  exists item, from_entry remote r item /\ item_type item = "file".

(** The record is not a directory: it stands for a listing entry whose
    type is not "dir". *)
Definition not_a_directory (remote : Remote) (r : FileData.t) : Prop :=
  exists item, from_entry remote r item /\ item_type item <> "dir".

(** The base name of a file name, that is the name without its suffix
    ([Path(name).stem]): with [i = name.rfind('.')], [name[:i]] when
    [0 < i < len(name) - 1]. *)
Definition stem (name : string) : string :=
  match rfind_dot name with
  | Some i =>
      if ((0 <? i) && (i + 1 <? String.length name))%nat then take i name
      else name
  | None => name
  end.

(** What the walker guarantees of each record it returns. *)
Definition accepted (config : Config.t) (remote : Remote) (r : FileData.t) : Prop :=
  not_a_directory remote r
  /\ FileData.size r <= Config.max_file_size config
  /\ (In (FileData.extension r) (Config.supported_extensions config)
      \/ In (FileData.name r) special_file_names).

(** The extension maps to a language. *)
Definition recognized (ext : string) : Prop :=
  dict_get language_map ext <> None.

(** The sum of the percentages of a [LanguageStats]. *)
Definition sum_percentages (stats : LanguageStats.t) : Q :=
  fold_right (fun kv acc => (snd kv + acc)%Q) 0%Q (LanguageStats.languages stats).

(** The sum of the line counts of a [language_counts] dictionary. *)
Definition sum_counts (counts : list (string * Z)) : Z :=
  fold_right (fun kv acc => snd kv + acc) 0 counts.

(** [n] is the lower-cased name of one of the files. *)
Definition has_name (n : string) (files : list FileData.t) : Prop :=
  In n (file_names_of files).

Definition node_labels : list string :=
  ["React Application"; "Vue.js Application"; "Node.js Application"].

Definition python_labels : list string :=
  ["Django Application"; "Flask Application"; "FastAPI Application";
   "Python Project"].

(** Some file has an extension with .jsx or .tsx inside. *)
Definition has_react_extension (files : list FileData.t) : Prop :=
  exists f, In f files
            /\ (contains ".jsx" (FileData.extension f) = true
                \/ contains ".tsx" (FileData.extension f) = true).

(** Some file has a content with [marker] inside, whatever the case. *)
Definition content_has (marker : string) (files : list FileData.t) : Prop :=
  exists f, In f files
            /\ contains marker (lower (FileData.content f)) = true.

Definition node_manifest (files : list FileData.t) : Prop :=
  has_name "package.json" files.

Definition python_manifest (files : list FileData.t) : Prop :=
  has_name "requirements.txt" files \/ has_name "pyproject.toml" files.

Definition java_build_file (files : list FileData.t) : Prop :=
  has_name "pom.xml" files \/ has_name "build.gradle" files.

Definition rust_manifest (files : list FileData.t) : Prop :=
  has_name "cargo.toml" files.

Definition go_manifest (files : list FileData.t) : Prop :=
  has_name "go.mod" files.

Definition ruby_manifest (files : list FileData.t) : Prop :=
  has_name "gemfile" files.

(** The first line of a text. *)
Definition first_line (content : string) : string :=
  hd EmptyString (split LF content).

(** How many lines of the text are the badge line of the repository. *)
Definition badge_lines (repo_data : RepositoryData.t) (content : string) : nat :=
  List.length
    (filter (String.eqb (ReadmeGenerator._generate_badges repo_data))
            (split LF content)).

(** An answer of the completion endpoint after which the client goes on
    to its next attempt: any status but 200 and 401, or a client error. *)
Definition retryable (r : ReadmeGenerator.Response) : Prop :=
  match r with
  | ReadmeGenerator.Http status _ => status <> 200 /\ status <> 401
  | ReadmeGenerator.ClientError => True
  end.

(** The delays of [k] retries that double from [d] on:
    [d * 2**0], ..., [d * 2**(k-1)]. *)
Definition delays (d : Q) (k : nat) : list Q :=
  map (fun i => (d * inject_Z (2 ^ Z.of_nat i))%Q) (seq 0 k).

(** A number that a double holds: below [2**1024] in absolute value.  A
    float product beyond that is an infinity, not the number. *)
Definition finite_double (q : Q) : Prop :=
  (Qabs q < inject_Z (2 ^ 1024))%Q.

(** An answer of the GitHub API after which the helper goes on to its
    next attempt: any status but 200 and 404, or a client error. *)
Definition api_retryable {Json : Type} (r : ApiResponse Json) : Prop :=
  match r with
  | ApiHttp status _ => status <> 200 /\ status <> 404
  | ApiClientError => True
  end.

(** The text does not start with a character that [p] strips. *)
Definition clean_head (p : ascii -> bool) (s : string) : Prop :=
  match s with
  | String c _ => p c = false
  | EmptyString => True
  end.

(** The characters of a text. *)
Definition chars (s : string) : list ascii := list_ascii_of_string s.

(** The text made of [n] newlines. *)
Definition newlines (n : nat) : string := string_of_list_ascii (repeat LF n).

(** Three newlines in a row. *)
Definition nl3 : string := nl ++ nl ++ nl.

(** The text has no newline. *)
Definition single_line (s : string) : Prop := ~ In LF (chars s).

(** The test that the walker applies to an entry that is not a
    directory: extension or name, then size. *)
Definition keeps (config : Config.t) (item : Item) : bool :=
  (mem (lower (suffix (item_name item))) (Config.supported_extensions config)
   || mem (item_name item) special_file_names)
  && (match item_size item with Some n => n | None => 0 end
      <=? Config.max_file_size config).

(** The record that the walker builds for an entry. *)
Definition make_record (remote : Remote) (item : Item) : FileData.t :=
  {| FileData.path := item_path item;
     FileData.name := item_name item;
     FileData.extension := lower (suffix (item_name item));
     FileData.size := match item_size item with Some n => n | None => 0 end;
     FileData.content :=
       match _get_file_content remote (item_path item) with
       | Some c => c
       | None => EmptyString
       end |}.

(** The records of the entries of one listing that are not directories
    and pass the test, in the order of the listing. *)
Definition file_records (config : Config.t) (remote : Remote)
    (contents : list Item) : list FileData.t :=
  map (make_record remote)
      (filter (fun item => negb (String.eqb (item_type item) "dir")
                           && keeps config item)
              contents).

(** The lines of the files whose extension maps to a language. *)
Definition counted_lines (files : list FileData.t) : Z :=
  fold_right
    (fun f acc =>
       match dict_get language_map (FileData.extension f) with
       | Some _ => count_lines f + acc
       | None => acc
       end)
    0 files.

(** [l] is one of the languages of the extension table. *)
Definition known_language (l : string) : Prop :=
  exists ext, dict_get language_map ext = Some l.

(** The labels that [_detect_project_type] can return. *)
Definition all_labels : list string :=
  (node_labels ++ python_labels
   ++ ["Java Project"; "Rust Project"; "Go Project"; "Ruby Project";
       "General Project"])%list.

(** Some file has an extension with .vue inside. *)
Definition has_vue_extension (files : list FileData.t) : Prop :=
  exists f, In f files /\ contains ".vue" (FileData.extension f) = true.

(** The dictionary of line counts: distinct languages of the table,
    counts that are not negative. *)
Definition counts_ok (counts : list (string * Z)) : Prop :=
  NoDup (map fst counts)
  /\ forall k v, In (k, v) counts -> known_language k /\ 0 <= v.

(** The samples that [_create_code_samples] joins. *)
Definition samples_of (repo_data : RepositoryData.t) : list string :=
  (ReadmeGenerator.main_sample repo_data ReadmeGenerator.main_files
   ++ ReadmeGenerator.config_samples repo_data)%list.

(** The text with [f] applied to each character. *)
Fixpoint smap (f : ascii -> ascii) (s : string) : string :=
  match s with
  | EmptyString => EmptyString
  | String c s' => String (f c) (smap f s')
  end.

(** An underscore for each of the nine characters that
    [sanitize_filename] replaces. *)
Definition replace_invalid (c : ascii) : ascii :=
  if in_chars c Utils.invalid_chars then "_"%char else c.

(** The number of newlines that a text starts with. *)
Fixpoint leading_newlines (s : string) : nat :=
  match s with
  | String c s' => if Ascii.eqb c LF then S (leading_newlines s') else O
  | EmptyString => O
  end.

(** The extensions that count for the language statistics. *)
Definition counted_extensions : list string :=
  [".py"; ".js"; ".ts"; ".jsx"; ".tsx"; ".java"; ".cpp"; ".c"; ".cs"; ".rb";
   ".go"; ".rs"; ".php"; ".swift"; ".kt"; ".scala"].

(** The characters other than the newline that end a line: VT, FF, CR,
    FS, GS, RS and NEL. *)
Definition other_line_breaks : list ascii :=
  ["011"; "012"; "013"; "028"; "029"; "030"; "133"]%char.

(** The newline is the only line boundary of the text. *)
Definition newline_only (s : string) : bool :=
  forallb (fun c => negb (existsb (Ascii.eqb c) other_line_breaks)) (chars s).

(** The number of lines of a text cut at its newlines: one line per
    newline, and one more when characters follow the last newline.
    [pending] tells whether the current line has characters. *)
Fixpoint lines_from (pending : bool) (s : string) : nat :=
  match s with
  | EmptyString => if pending then 1 else 0
  | String c s' =>
      if Ascii.eqb c "010" then S (lines_from false s')
      else lines_from true s'
  end.

Definition line_count (s : string) : Z := Z.of_nat (lines_from false s).

(** White space below 256: TAB, LF, VT, FF, CR, FS, GS, RS, US, the
    space, NEL and the no-break space. *)
Definition white_space : list ascii :=
  ["009"; "010"; "011"; "012"; "013"; "028"; "029"; "030"; "031"; "032";
   "133"; "160"]%char.

(** A word: a text that is not empty and holds no white space. *)
Definition word (s : string) : bool :=
  negb (String.eqb s EmptyString)
  && forallb (fun c => negb (existsb (Ascii.eqb c) white_space)) (chars s).

(** The lines of the files with a counted extension, added up. *)
Definition total_line_count (files : list FileData.t) : Z :=
  fold_right
    (fun f acc =>
       if existsb (String.eqb (FileData.extension f)) counted_extensions
       then line_count (FileData.content f) + acc
       else acc)
    0 files.

End Spec.

(* ===================================================================== *)
(** ** Properties of the directory walker *)
(* ===================================================================== *)

Import Py GitHubAnalyzer.

Lemma mem_In (x : string) (l : list string) : mem x l = true <-> In x l.
Proof.
  unfold mem. rewrite existsb_exists. split.
  - intros [y [Hy Heq]]. apply String.eqb_eq in Heq. now subst.
  - intros H. exists x. split; [assumption | apply String.eqb_refl].
Qed.

(** [walk_items] only looks at the values of [recurse]. *)
Lemma walk_items_ext config remote (r1 r2 : string -> list FileData.t) :
  (forall p, r1 p = r2 p) ->
  forall contents files,
    walk_items config remote r1 contents files
    = walk_items config remote r2 contents files.
Proof.
  intros Hext contents.
  induction contents as [| item rest IH]; intros files; simpl; [reflexivity |].
  rewrite Hext.
  repeat match goal with
         | |- context [if ?b then _ else _] => destruct b
         end; auto.
Qed.

(** Fuel beyond the nesting depth is never used: the recursion stops at
    [level > max_level] by itself. *)
Lemma walk_fuel_enough config remote max_level :
  forall fuel path level,
    (Z.to_nat (max_level + 1 - level) < fuel)%nat ->
    walk fuel config remote path level max_level
    = _analyze_directory_structure config remote path level max_level.
Proof.
  unfold _analyze_directory_structure.
  induction fuel as [| fuel IH]; intros path level Hfuel; [lia |].
  simpl.
  destruct (level >? max_level) eqn:Hlevel; [reflexivity |].
  destruct (_get_repository_contents remote path) as [[| item rest] |];
    try reflexivity.
  rewrite Z.gtb_ltb in Hlevel. apply Z.ltb_ge in Hlevel.
  apply walk_items_ext. intros p.
  assert (Hn : Z.to_nat (max_level + 1 - level)
               = S (Z.to_nat (max_level + 1 - (level + 1)))) by lia.
  rewrite Hn. apply IH. lia.
Qed.

Import Spec.

Lemma walk_items_accepted config remote recurse dir listing :
  _get_repository_contents remote dir = Some listing ->
  (forall p r, In r (recurse p) -> accepted config remote r) ->
  forall contents files,
    incl contents listing ->
    (forall r, In r files -> accepted config remote r) ->
    forall r, In r (walk_items config remote recurse contents files) ->
              accepted config remote r.
Proof.
  intros Hdir Hrec contents.
  induction contents as [| item rest IH]; intros files Hincl Hfiles r Hin;
    cbn [walk_items] in Hin; [auto |].
  assert (Hrest : incl rest listing)
    by (intros x Hx; apply Hincl; now right).
  assert (Hitem : In item listing) by (apply Hincl; now left).
  destruct (Z.of_nat (List.length files) >=? Config.max_files config); [auto |].
  destruct (String.eqb (item_type item) "dir") eqn:Htype.
  - apply (IH (files ++ recurse (item_path item))%list); auto.
    intros r' Hr'. apply in_app_or in Hr'. destruct Hr'; eauto.
  - apply String.eqb_neq in Htype.
    destruct (mem (lower (suffix (item_name item)))
                  (Config.supported_extensions config)
              || mem (item_name item) special_file_names) eqn:Hext;
      [| eapply IH; eauto].
    destruct (match item_size item with Some n => n | None => 0 end
              <=? Config.max_file_size config) eqn:Hsize;
      [| eapply IH; eauto].
    eapply IH; [exact Hrest | | exact Hin].
    intros r' Hr'. apply in_app_or in Hr'. destruct Hr' as [Hr' | [<- | []]];
      [auto |].
    split; [| split]; cbn [FileData.size FileData.extension FileData.name].
    + exists item. split; [| exact Htype].
      exists dir, listing. repeat split; auto.
    + now apply Z.leb_le.
    + apply orb_true_iff in Hext.
      destruct Hext as [Hext | Hext]; apply mem_In in Hext; auto.
Qed.

Lemma walk_accepted config remote max_level :
  forall fuel path level r,
    In r (walk fuel config remote path level max_level) ->
    accepted config remote r.
Proof.
  induction fuel as [| fuel IH]; intros path level r Hin; simpl in Hin;
    [contradiction |].
  destruct (level >? max_level); [contradiction |].
  destruct (_get_repository_contents remote path) as [[| item rest] |] eqn:Hdir;
    try contradiction.
  eapply walk_items_accepted; [exact Hdir | | | | exact Hin].
  - intros p r' Hr'. eapply IH; exact Hr'.
  - apply incl_refl.
  - intros r' [].
Qed.

(** The four special names, and what they are without their suffix. *)
Lemma special_file_names_stem name :
  In name special_file_names ->
  In name ["README.md"; "LICENSE"; "Dockerfile"; "Makefile"]
  /\ In (stem name) ["README"; "LICENSE"; "Dockerfile"; "Makefile"].
Proof.
  intros H. split; [exact H |].
  destruct H as [<- | [<- | [<- | [<- | []]]]]; vm_compute; tauto.
Qed.

(** C8, as amended: every record returned by the walker stands for a
    listing entry that is not a directory, its size is at most
    [max_file_size], and its extension is in the configured
    [supported_extensions] or its name is one of README.md, LICENSE,
    Dockerfile, Makefile, so that its base name (the name without its
    suffix) is one of README, LICENSE, Dockerfile, Makefile. *)
Theorem walker_records_accepted :
  forall config remote path level max_level r,
    In r (_analyze_directory_structure config remote path level max_level) ->
    not_a_directory remote r
    /\ FileData.size r <= Config.max_file_size config
    /\ (In (FileData.extension r) (Config.supported_extensions config)
        \/ (In (FileData.name r)
                ["README.md"; "LICENSE"; "Dockerfile"; "Makefile"]
            /\ In (stem (FileData.name r))
                  ["README"; "LICENSE"; "Dockerfile"; "Makefile"])).
Proof.
  intros config remote path level max_level r Hin.
  destruct (walk_accepted _ _ _ _ _ _ _ Hin) as [Hentry [Hsize Hext]].
  split; [exact Hentry |]. split; [exact Hsize |].
  destruct Hext as [Hext | Hname]; [now left | right].
  now apply special_file_names_stem.
Qed.

(** The amended C8 at the README-only repository: its one record is
    accepted through the special names. *)
Lemma walker_records_accepted_witness :
  exists r,
    In r (_analyze_directory_structure Fixtures.python_only_config
            Fixtures.readme_remote "" 0 3)
    /\ not_a_directory Fixtures.readme_remote r
    /\ FileData.size r <= Config.max_file_size Fixtures.python_only_config
    /\ (In (FileData.extension r)
            (Config.supported_extensions Fixtures.python_only_config)
        \/ (In (FileData.name r)
                ["README.md"; "LICENSE"; "Dockerfile"; "Makefile"]
            /\ In (stem (FileData.name r))
                  ["README"; "LICENSE"; "Dockerfile"; "Makefile"])).
Proof.
  eexists. split.
  - vm_compute. left. reflexivity.
  - apply (walker_records_accepted Fixtures.python_only_config
             Fixtures.readme_remote "" 0 3).
    vm_compute. left. reflexivity.
Defined.

(** C8 as stated fails: the walker takes every entry that is not of type
    "dir" for a file.  A listing whose one entry is the symbolic link
    link.py (type "symlink") gives a record, and that record stands for
    no entry of type "file". *)
Lemma walker_records_symlink :
  exists r item,
    In r (_analyze_directory_structure Config.default
            Fixtures.symlink_remote "" 0 3)
    /\ from_entry Fixtures.symlink_remote r item
    /\ item_type item = "symlink"
    /\ ~ is_file Fixtures.symlink_remote r.
Proof.
  exists {| FileData.path := "link.py"; FileData.name := "link.py";
            FileData.extension := ".py"; FileData.size := 7;
            FileData.content := "" |},
         (Fixtures.symlink_entry "link.py" "link.py" 7).
  split; [vm_compute; left; reflexivity |].
  split; [exists "", [Fixtures.symlink_entry "link.py" "link.py" 7];
          repeat split; now left |].
  split; [reflexivity |].
  intros [item [[dir [contents [Hdir [Hin _]]]] Htype]].
  unfold Fixtures.symlink_remote, Fixtures.remote_of in Hdir.
  cbn [_get_repository_contents dict_get] in Hdir.
  destruct (String.eqb dir ""); [| discriminate Hdir].
  injection Hdir as <-. destruct Hin as [<- | []]. discriminate Htype.
Qed.

(** C1 fails on the code: with [max_files = 2], a.py followed by a
    directory of two files gives three records.  The test
    [len(files) >= max_files] precedes each entry, but the records of a
    subdirectory are appended whole. *)
Theorem walker_exceeds_max_files :
  Config.max_files Fixtures.two_files_config = 2
  /\ map FileData.path
         (_analyze_directory_structure Fixtures.two_files_config
            Fixtures.nested_remote "" 0 3)
     = ["a.py"; "pkg/b.py"; "pkg/c.py"]
  /\ Z.of_nat (List.length
                 (_analyze_directory_structure Fixtures.two_files_config
                    Fixtures.nested_remote "" 0 3))
     > Config.max_files Fixtures.two_files_config.
Proof.
  split; [reflexivity |]. split; [vm_compute; reflexivity |].
  vm_compute. reflexivity.
Qed.

(** *** What the walker does bound

    Each call stops taking entries once it holds [max_files] records, but
    the last entry it takes may be a directory with up to a full result of
    its own: a call that has [d] levels below and including its own
    returns at most [d * (max_files - 1) + 1] records. *)

Lemma walk_items_length config remote recurse (R : Z) :
  (forall p, Z.of_nat (List.length (recurse p)) <= R) ->
  forall contents files,
    Z.of_nat (List.length files) <= Config.max_files config - 1 + Z.max 1 R ->
    Z.of_nat (List.length (walk_items config remote recurse contents files))
    <= Config.max_files config - 1 + Z.max 1 R.
Proof.
  intros Hrec contents.
  induction contents as [| item rest IH]; intros files Hfiles;
    cbn [walk_items]; [exact Hfiles |].
  destruct (Z.of_nat (List.length files) >=? Config.max_files config) eqn:Hfull;
    [exact Hfiles |].
  assert (Hroom : Z.of_nat (List.length files) <= Config.max_files config - 1)
    by lia.
  destruct (String.eqb (item_type item) "dir").
  - apply IH. rewrite length_app, Nat2Z.inj_add.
    specialize (Hrec (item_path item)). lia.
  - destruct (mem (lower (suffix (item_name item)))
                  (Config.supported_extensions config)
              || mem (item_name item) special_file_names);
      [| now apply IH].
    destruct (match item_size item with Some n => n | None => 0 end
              <=? Config.max_file_size config);
      [| now apply IH].
    apply IH. rewrite length_app, Nat2Z.inj_add. simpl List.length. lia.
Qed.

Lemma walk_length config remote max_level :
  1 <= Config.max_files config ->
  forall fuel path level,
    Z.of_nat (List.length (walk fuel config remote path level max_level))
    <= Z.max 0 (max_level + 1 - level) * (Config.max_files config - 1) + 1.
Proof.
  intros Hmax.
  induction fuel as [| fuel IH]; intros path level; cbn [walk].
  - simpl. nia.
  - destruct (level >? max_level) eqn:Hlevel; [simpl; nia |].
    destruct (_get_repository_contents remote path) as [[| item rest] |];
      try (simpl; nia).
    set (R := Z.max 0 (max_level + 1 - (level + 1))
              * (Config.max_files config - 1) + 1).
    assert (Hbound : Config.max_files config - 1 + Z.max 1 R
                     = Z.max 0 (max_level + 1 - level)
                       * (Config.max_files config - 1) + 1).
    { subst R. nia. }
    rewrite <- Hbound. apply walk_items_length.
    + intros p. apply IH.
    + simpl. subst R. nia.
Qed.

(** X16: the bound the code does keep: from a call at
    [level <= max_level] with [max_files >= 1], at most
    [(max_level + 1 - level) * (max_files - 1) + 1] records. *)
Lemma walker_length_bound config remote path level max_level :
  1 <= Config.max_files config ->
  level <= max_level ->
  Z.of_nat (List.length
              (_analyze_directory_structure config remote path level max_level))
  <= (max_level + 1 - level) * (Config.max_files config - 1) + 1.
Proof.
  intros Hmax Hlevel. unfold _analyze_directory_structure.
  pose proof (walk_length config remote max_level Hmax
                (S (Z.to_nat (max_level + 1 - level))) path level) as H.
  rewrite Z.max_r in H by lia. exact H.
Qed.

(* ===================================================================== *)
(** ** Properties of the language statistics *)
(* ===================================================================== *)

Lemma dict_set_sum (counts : list (string * Z)) (k : string) (lines : Z) :
  sum_counts
    (dict_set counts k
       (match dict_get counts k with Some n => n | None => 0 end + lines))
  = sum_counts counts + lines.
Proof.
  induction counts as [| [k' v'] counts IH]; simpl.
  - unfold sum_counts. simpl. lia.
  - destruct (String.eqb k k').
    + unfold sum_counts. simpl. lia.
    + unfold sum_counts in *. simpl. rewrite IH. lia.
Qed.

Lemma count_file_sum st file_data :
  sum_counts (fst st) = snd st ->
  sum_counts (fst (count_file st file_data)) = snd (count_file st file_data).
Proof.
  destruct st as [counts total]. unfold count_file. cbn [fst snd]. intros Hsum.
  destruct (dict_get language_map (FileData.extension file_data));
    cbn [fst snd]; [| assumption].
  rewrite dict_set_sum. lia.
Qed.

Lemma fold_count_file_sum files :
  forall st,
    sum_counts (fst st) = snd st ->
    sum_counts (fst (fold_left count_file files st))
    = snd (fold_left count_file files st).
Proof.
  induction files as [| f files IH]; intros st Hsum; simpl; [assumption |].
  apply IH. now apply count_file_sum.
Qed.

(** The line counts of the languages add up to [total_lines]. *)
Lemma count_languages_sum files :
  sum_counts (fst (count_languages files)) = snd (count_languages files).
Proof. unfold count_languages. now apply fold_count_file_sum. Qed.

Lemma sum_percentage_map (counts : list (string * Z)) (total : Z) :
  0 < total ->
  (fold_right (fun kv acc => snd kv + acc) 0
     (map (fun '(language, lines) => (language, percentage lines total)) counts)
   == inject_Z (sum_counts counts) / inject_Z total * 100)%Q.
Proof.
  intros Hpos.
  assert (Hnz : ~ (inject_Z total == 0)%Q).
  { intros E. unfold Qeq in E. simpl in E. lia. }
  induction counts as [| [k v] counts IH]; simpl.
  - unfold sum_counts. simpl. field. exact Hnz.
  - rewrite IH. unfold sum_counts, percentage. simpl.
    rewrite inject_Z_plus. field. exact Hnz.
Qed.

Lemma fold_count_file_empty files :
  (forall f, In f files -> recognized (FileData.extension f) ->
             FileData.content f = EmptyString) ->
  forall counts,
    snd (fold_left count_file files (counts, 0)) = 0.
Proof.
  induction files as [| f files IH]; intros Hempty counts;
    cbn [fold_left]; [reflexivity |].
  unfold count_file at 2.
  destruct (dict_get language_map (FileData.extension f)) eqn:Hext.
  - assert (Hc : FileData.content f = EmptyString).
    { apply Hempty; [now left |]. unfold recognized. rewrite Hext. discriminate. }
    unfold count_lines, truthy. rewrite Hc. cbn [String.eqb negb].
    rewrite Z.add_0_r.
    apply IH. intros g Hg. apply Hempty. now right.
  - apply IH. intros g Hg. apply Hempty. now right.
Qed.

(** C7: when [total_lines > 0] the percentages add up to 100 over the
    rationals, hence lie strictly between 99.9 and 100.1; when no file
    with a recognized extension has a non-empty content, the mapping is
    empty and [total_lines] is 0; and a percentage is only ever computed
    with a positive [total_lines] as divisor. *)
Theorem language_percentages_sum :
  forall files,
    let stats := _analyze_languages files in
    (LanguageStats.total_lines stats > 0 ->
     (sum_percentages stats == 100)%Q
     /\ ((999 # 10) < sum_percentages stats)%Q
     /\ (sum_percentages stats < (1001 # 10))%Q)
    /\ ((forall f, In f files -> recognized (FileData.extension f) ->
                   FileData.content f = EmptyString) ->
        LanguageStats.languages stats = []
        /\ LanguageStats.total_lines stats = 0)
    /\ (LanguageStats.languages stats <> [] ->
        LanguageStats.total_lines stats > 0).
Proof.
  intros files stats. subst stats. unfold _analyze_languages.
  pose proof (count_languages_sum files) as Hsum.
  split; [| split].
  - destruct (count_languages files) as [counts total] eqn:Hcl.
    simpl in *. intros Hpos.
    assert (Hgt : (total >? 0) = true) by lia.
    assert (H100 : (sum_percentages
                      {| LanguageStats.languages :=
                           if total >? 0
                           then map (fun '(language, lines) =>
                                       (language, percentage lines total)) counts
                           else [];
                         LanguageStats.total_lines := total |} == 100)%Q).
    { unfold sum_percentages. simpl. rewrite Hgt.
      rewrite sum_percentage_map by lia. rewrite Hsum.
      field. intros E. unfold Qeq in E. simpl in E. lia. }
    split; [exact H100 |]. rewrite H100. split; reflexivity.
  - intros Hempty.
    pose proof (fold_count_file_empty files Hempty []) as Hzero.
    fold (count_languages files) in Hzero.
    destruct (count_languages files) as [counts total].
    cbn [snd] in Hzero. rewrite Hzero. split; reflexivity.
  - destruct (count_languages files) as [counts total].
    cbn [LanguageStats.languages LanguageStats.total_lines].
    destruct (total >? 0) eqn:Hgt; [lia | congruence].
Qed.

(** C7 at the two files of the end-to-end scenario (two Python lines) and
    at a file set without any counted line. *)
Lemma language_percentages_sum_witness :
  (sum_percentages
     (_analyze_languages (analyze_files Config.default Fixtures.flask_remote))
   == 100)%Q
  /\ LanguageStats.languages (_analyze_languages Fixtures.blank_files) = [].
Proof.
  split.
  - apply (language_percentages_sum
             (analyze_files Config.default Fixtures.flask_remote)).
    vm_compute. reflexivity.
  - apply (language_percentages_sum Fixtures.blank_files).
    intros f [<- | [<- | []]] Hrec.
    + reflexivity.
    + exfalso. apply Hrec. vm_compute. reflexivity.
Defined.

(* ===================================================================== *)
(** ** Properties of the project-type heuristic *)
(* ===================================================================== *)

Lemma mem_false_In (x : string) (l : list string) : mem x l = false <-> ~ In x l.
Proof.
  rewrite <- mem_In. destruct (mem x l); split; intros H;
    try discriminate; try reflexivity.
  exfalso. now apply H.
Qed.

Lemma or_mem (x y : string) (l : list string) :
  mem x l || mem y l = true <-> In x l \/ In y l.
Proof. rewrite orb_true_iff, !mem_In. reflexivity. Qed.

Lemma or_mem_false (x y : string) (l : list string) :
  mem x l || mem y l = false <-> ~ (In x l \/ In y l).
Proof.
  rewrite <- or_mem. destruct (mem x l || mem y l); split; intros H;
    try discriminate; try reflexivity.
  exfalso. now apply H.
Qed.

(** Replaces the membership tests of the heuristic by their values. *)
Ltac settle_tests :=
  repeat match goal with
         | H : In ?n (file_names_of ?fs) |- _ =>
             apply mem_In in H; rewrite H
         | H : ~ In ?n (file_names_of ?fs) |- _ =>
             apply mem_false_In in H; rewrite H
         | H : In _ (file_names_of ?fs) \/ In _ (file_names_of ?fs) |- _ =>
             apply or_mem in H; rewrite H
         | H : ~ (In _ (file_names_of ?fs) \/ In _ (file_names_of ?fs)) |- _ =>
             apply or_mem_false in H; rewrite H
         end.

Lemma node_branch files :
  node_manifest files -> In (_detect_project_type files) node_labels.
Proof.
  unfold node_manifest, has_name, _detect_project_type. intros Hn. settle_tests.
  repeat match goal with
         | |- context [if ?b then _ else _] => destruct b
         end; simpl; auto.
Qed.

Lemma python_branch files :
  ~ node_manifest files -> python_manifest files ->
  In (_detect_project_type files) python_labels.
Proof.
  unfold node_manifest, python_manifest, has_name, _detect_project_type.
  intros Hn Hp. settle_tests.
  repeat match goal with
         | |- context [if ?b then _ else _] => destruct b
         end; simpl; auto.
Qed.

(** C9: the rules are tried in the order Node manifest, Python manifest,
    Java build file, Rust manifest, Go manifest, Ruby manifest, and the
    first that applies decides; without any the label is
    "General Project".  In particular a Node manifest next to a Python
    manifest gives a label of the Node branch. *)
Theorem project_type_precedence :
  forall files,
    let label := _detect_project_type files in
    (node_manifest files -> In label node_labels)
    /\ (~ node_manifest files -> python_manifest files ->
        In label python_labels)
    /\ (~ node_manifest files -> ~ python_manifest files ->
        java_build_file files -> label = "Java Project")
    /\ (~ node_manifest files -> ~ python_manifest files ->
        ~ java_build_file files -> rust_manifest files ->
        label = "Rust Project")
    /\ (~ node_manifest files -> ~ python_manifest files ->
        ~ java_build_file files -> ~ rust_manifest files ->
        go_manifest files -> label = "Go Project")
    /\ (~ node_manifest files -> ~ python_manifest files ->
        ~ java_build_file files -> ~ rust_manifest files ->
        ~ go_manifest files -> ruby_manifest files ->
        label = "Ruby Project")
    /\ (~ node_manifest files -> ~ python_manifest files ->
        ~ java_build_file files -> ~ rust_manifest files ->
        ~ go_manifest files -> ~ ruby_manifest files ->
        label = "General Project")
    /\ (node_manifest files -> python_manifest files ->
        In label node_labels).
Proof.
  intros files label. subst label.
  split; [apply node_branch |]. split; [apply python_branch |].
  repeat split;
    try (intros Hn _; now apply node_branch);
    unfold node_manifest, python_manifest, java_build_file, rust_manifest,
      go_manifest, ruby_manifest, has_name, _detect_project_type;
    intros; settle_tests; reflexivity.
Qed.

(** C9 at a file set with package.json and requirements.txt. *)
Lemma project_type_precedence_witness :
  In (_detect_project_type
        (Fixtures.react_manifest_files
         ++ analyze_files Config.default Fixtures.flask_remote))
     node_labels.
Proof.
  apply (project_type_precedence
           (Fixtures.react_manifest_files
            ++ analyze_files Config.default Fixtures.flask_remote)).
  - vm_compute. left. reflexivity.
  - left. vm_compute. right. right. left. reflexivity.
Defined.

Lemma react_extension_test files :
  existsb (fun ext => contains ".jsx" ext || contains ".tsx" ext)
          (file_extensions_of files) = true
  <-> has_react_extension files.
Proof.
  unfold has_react_extension, file_extensions_of.
  rewrite existsb_exists. split.
  - intros [ext [Hin Hext]]. apply in_map_iff in Hin.
    destruct Hin as [f [<- Hf]]. exists f. split; [assumption |].
    now apply orb_true_iff.
  - intros [f [Hf Hext]]. exists (FileData.extension f). split.
    + now apply in_map.
    + now apply orb_true_iff.
Qed.

(** C6, as amended: with package.json among the (lower-cased) file names,
    the label is "React Application" exactly when some file has an
    extension with .jsx or .tsx inside; no content is read. *)
Theorem react_by_extension :
  forall files,
    node_manifest files ->
    (_detect_project_type files = "React Application"
     <-> has_react_extension files).
Proof.
  intros files Hn. rewrite <- react_extension_test.
  unfold node_manifest, has_name in Hn. unfold _detect_project_type.
  settle_tests.
  destruct (existsb (fun ext => contains ".jsx" ext || contains ".tsx" ext)
                    (file_extensions_of files)).
  - split; reflexivity.
  - destruct (existsb (fun ext => contains ".vue" ext)
                      (file_extensions_of files));
      split; intros H; discriminate H.
Qed.

(** The amended C6 at a manifest next to App.jsx. *)
Lemma react_by_extension_witness :
  _detect_project_type Fixtures.react_component_files = "React Application".
Proof.
  apply (react_by_extension Fixtures.react_component_files).
  - vm_compute. left. reflexivity.
  - exists {| FileData.path := "src/App.jsx"; FileData.name := "App.jsx";
              FileData.extension := ".jsx"; FileData.size := 0;
              FileData.content := "" |}.
    split; [right; left; reflexivity | left; reflexivity].
Defined.

(** C6 as stated fails: a package.json whose content mentions react, and
    no .jsx or .tsx file, is a "Node.js Application". *)
Lemma react_in_manifest_is_node :
  node_manifest Fixtures.react_manifest_files
  /\ content_has "react" Fixtures.react_manifest_files
  /\ _detect_project_type Fixtures.react_manifest_files = "Node.js Application"
  /\ _detect_project_type Fixtures.react_manifest_files <> "React Application".
Proof.
  split; [vm_compute; left; reflexivity |]. split.
  - eexists. split; [left; reflexivity | vm_compute; reflexivity].
  - split; [reflexivity | discriminate].
Qed.

(* ===================================================================== *)
(** ** The end-to-end scenario *)
(* ===================================================================== *)

Import ReadmeGenerator.

(** C3: for main.py ("import os\nimport sys\n") and requirements.txt
    ("flask\n"), the project type is "Flask Application", the language
    statistics are Python at 100 percent and nothing else, and the
    code-sample section of the prompt is the block fenced as python that
    holds the excerpt of main.py. *)
Theorem flask_scenario :
  let files := analyze_files Config.default Fixtures.flask_remote in
  map (fun f => (FileData.name f, FileData.content f)) files
  = [ ("main.py", "import os
import sys
");
      ("requirements.txt", "flask
") ]
  /\ _detect_project_type files = "Flask Application"
  /\ (exists q,
        LanguageStats.languages (_analyze_languages files) = [("Python", q)]
        /\ (q == 100)%Q)
  /\ (forall repo_info,
        let repo_data :=
          analyze_repository Config.default Fixtures.flask_remote repo_info in
        RepositoryData.project_type repo_data = "Flask Application"
        /\ _create_code_samples repo_data
           = "### main.py
```python
import os
import sys
...
```"
        /\ contains "```python
import os
import sys
" (_create_code_samples repo_data) = true).
Proof.
  cbv zeta. split; [vm_compute; reflexivity |].
  split; [vm_compute; reflexivity |]. split.
  - eexists. split; [vm_compute; reflexivity | reflexivity].
  - intros repo_info. repeat split; vm_compute; reflexivity.
Qed.

(* ===================================================================== *)
(** ** Properties of the completion client *)
(* ===================================================================== *)

Lemma post_sent payload s :
  List.length (sent (post payload s)) = S (List.length (sent s)).
Proof. unfold post. simpl. rewrite length_app. simpl. lia. Qed.

Lemma try_sleep_sent config attempt s s' :
  try_sleep config attempt s = Some s' -> sent s' = sent s.
Proof.
  unfold try_sleep. destruct (float_pow2_overflows attempt); [discriminate |].
  intros [= <-]. reflexivity.
Qed.

Lemma after_try_sent config attempt s s' :
  after_try config attempt s = Some s' -> sent s' = sent s.
Proof.
  unfold after_try. destruct (attempt <? Config.max_retries config - 1).
  - apply try_sleep_sent.
  - intros [= <-]. reflexivity.
Qed.

(** The loop posts at most one request per turn. *)
Lemma attempts_bounded config endpoint payload :
  forall remaining attempt s,
    (List.length (sent (snd (attempts config endpoint payload remaining attempt s)))
     <= List.length (sent s) + remaining)%nat.
Proof.
  induction remaining as [| remaining IH]; intros attempt s;
    cbn [attempts]; [simpl; lia |].
  pose proof (post_sent payload s) as Hpost.
  assert (Hnext : forall o,
             (forall s2, o = Some s2 -> sent s2 = sent (post payload s)) ->
             (List.length
                (sent (snd match o with
                           | Some s2 =>
                               attempts config endpoint payload remaining
                                        (attempt + 1) s2
                           | None => (Raise, post payload s)
                           end))
              <= List.length (sent s) + S remaining)%nat).
  { intros [s2 |] Ho; [| cbn [snd]; lia].
    etransitivity; [apply IH |]. rewrite (Ho s2 eq_refl). lia. }
  destruct (endpoint (List.length (sent s))) as [status body |].
  - destruct (status =? 200); [destruct body; cbn [snd]; lia |].
    destruct (status =? 401); [cbn [snd]; lia |].
    destruct (status =? 429);
      [destruct (attempt <? Config.max_retries config - 1) |];
      apply Hnext; intros s2;
      first [apply try_sleep_sent | apply after_try_sent].
  - apply Hnext. intros s2. apply after_try_sent.
Qed.

(** Every request of a run carries the payload built at its start. *)
Lemma attempts_sent config endpoint payload :
  forall remaining attempt s,
    Forall (eq payload) (sent s) ->
    Forall (eq payload)
           (sent (snd (attempts config endpoint payload remaining attempt s))).
Proof.
  induction remaining as [| remaining IH]; intros attempt s Hs;
    cbn [attempts]; [exact Hs |].
  assert (Hpost : Forall (eq payload) (sent (post payload s))).
  { unfold post. simpl. apply Forall_app. split; [exact Hs | now constructor]. }
  assert (Hnext : forall o,
             (forall s2, o = Some s2 -> sent s2 = sent (post payload s)) ->
             Forall (eq payload)
                    (sent (snd match o with
                               | Some s2 =>
                                   attempts config endpoint payload remaining
                                            (attempt + 1) s2
                               | None => (Raise, post payload s)
                               end))).
  { intros [s2 |] Ho; [| exact Hpost].
    apply IH. rewrite (Ho s2 eq_refl). exact Hpost. }
  destruct (endpoint (List.length (sent s))) as [status body |].
  - destruct (status =? 200); [destruct body; exact Hpost |].
    destruct (status =? 401); [exact Hpost |].
    destruct (status =? 429);
      [destruct (attempt <? Config.max_retries config - 1) |];
      apply Hnext; intros s2;
      first [apply try_sleep_sent | apply after_try_sent].
  - apply Hnext. intros s2. apply after_try_sent.
Qed.

(** One turn of the loop on a 401 answer: [return None]. *)
Lemma attempts_401 config endpoint payload remaining attempt s body :
  endpoint (List.length (sent s)) = Http 401 body ->
  attempts config endpoint payload (S remaining) attempt s
  = (Return None, post payload s).
Proof. intros H. cbn [attempts]. rewrite H. reflexivity. Qed.

(** One turn of the loop on a 429 answer: sleep unless it was the last
    attempt, then the next turn. *)
Lemma attempts_429 config endpoint payload remaining attempt s body :
  endpoint (List.length (sent s)) = Http 429 body ->
  attempts config endpoint payload (S remaining) attempt s
  = match after_try config attempt (post payload s) with
    | Some s2 => attempts config endpoint payload remaining (attempt + 1) s2
    | None => (Raise, post payload s)
    end.
Proof.
  intros H. cbn [attempts]. rewrite H. unfold after_try.
  change (429 =? 200) with false. change (429 =? 401) with false.
  change (429 =? 429) with true. cbv iota.
  destruct (attempt <? Config.max_retries config - 1); reflexivity.
Qed.

(** C2: when the first answer is a 401, one request is sent and the call
    returns [None] without sleeping; with [max_retries = 3] and three 429
    answers in a row, three requests are sent, two delays are slept and
    the call returns [None]. *)
Theorem completion_retry_policy :
  (forall config endpoint prompt body,
      1 <= Config.max_retries config ->
      endpoint 0%nat = Http 401 body ->
      fst (_call_openrouter_api config endpoint prompt) = Return None
      /\ List.length (sent (snd (_call_openrouter_api config endpoint prompt)))
         = 1%nat
      /\ slept (snd (_call_openrouter_api config endpoint prompt)) = [])
  /\ (forall config endpoint prompt b0 b1 b2,
         Config.max_retries config = 3 ->
         endpoint 0%nat = Http 429 b0 ->
         endpoint 1%nat = Http 429 b1 ->
         endpoint 2%nat = Http 429 b2 ->
         fst (_call_openrouter_api config endpoint prompt) = Return None
         /\ List.length (sent (snd (_call_openrouter_api config endpoint prompt)))
            = 3%nat
         /\ slept (snd (_call_openrouter_api config endpoint prompt))
            = [backoff config 0; backoff config 1]).
Proof.
  split.
  - intros config endpoint prompt body Hmax H401.
    assert (Hrun : _call_openrouter_api config endpoint prompt
                   = (Return None,
                      post (build_payload config prompt) new_session)).
    { unfold _call_openrouter_api.
      destruct (Z.to_nat (Config.max_retries config)) as [| n] eqn:Hn; [lia |].
      now apply attempts_401 with (body := body). }
    rewrite Hrun. repeat split.
  - intros config endpoint prompt b0 b1 b2 Hmax H0 H1 H2.
    set (payload := build_payload config prompt).
    assert (Hrun : _call_openrouter_api config endpoint prompt
                   = (Return None,
                      post payload
                        (sleep (backoff config 1)
                           (post payload
                              (sleep (backoff config 0)
                                 (post payload new_session)))))).
    { unfold _call_openrouter_api. fold payload. rewrite Hmax.
      change (Z.to_nat 3) with 3%nat.
      rewrite (attempts_429 _ _ _ _ _ _ b0) by exact H0.
      unfold after_try, try_sleep. rewrite Hmax.
      change (0 <? 3 - 1) with true.
      change (float_pow2_overflows 0) with false. cbv iota.
      rewrite (attempts_429 _ _ _ _ _ _ b1) by exact H1.
      unfold after_try, try_sleep. rewrite Hmax.
      change (0 + 1 <? 3 - 1) with true.
      change (float_pow2_overflows (0 + 1)) with false. cbv iota.
      rewrite (attempts_429 _ _ _ _ _ _ b2) by exact H2.
      unfold after_try. rewrite Hmax. change (0 + 1 + 1 <? 3 - 1) with false.
      cbv iota. reflexivity. }
    rewrite Hrun. repeat split.
Qed.

(** C2 at the default configuration ([max_retries = 3]). *)
Lemma completion_retry_policy_witness :
  List.length
    (sent (snd (_call_openrouter_api Config.default Fixtures.unauthorized "p")))
  = 1%nat
  /\ List.length
       (sent (snd (_call_openrouter_api Config.default Fixtures.rate_limited "p")))
     = 3%nat.
Proof.
  split.
  - apply (proj1 completion_retry_policy Config.default Fixtures.unauthorized
             "p" NoChoices); [simpl; lia | reflexivity].
  - apply (proj2 completion_retry_policy Config.default Fixtures.rate_limited
             "p" NoChoices NoChoices NoChoices); reflexivity.
Defined.

(** C5 fails on the code: the request body is built with the constant
    4000 as "max_tokens", whatever [config.max_tokens] is (2000 by
    default), and that body is what every request of a run carries. *)
Theorem payload_ignores_max_tokens :
  (forall config prompt,
      payload_max_tokens (build_payload config prompt) = 4000
      /\ (temperature (build_payload config prompt) == 3 # 10)%Q
      /\ (top_p (build_payload config prompt) == 9 # 10)%Q)
  /\ (forall config endpoint prompt,
         Forall (fun p => payload_max_tokens p = 4000)
                (sent (snd (_call_openrouter_api config endpoint prompt))))
  /\ Config.max_tokens Config.default = 2000
  /\ map payload_max_tokens
         (sent (snd (_call_openrouter_api Config.default
                       (Fixtures.answering "# Demo") "p")))
     = [4000].
Proof.
  split; [intros; repeat split |]. split; [| split; reflexivity].
  intros config endpoint prompt.
  pose proof (attempts_sent config endpoint (build_payload config prompt)
                (Z.to_nat (Config.max_retries config)) 0 new_session
                (Forall_nil _)) as Hall.
  eapply Forall_impl; [| exact Hall].
  intros p <-. reflexivity.
Qed.

(* ===================================================================== *)
(** ** Properties of the Markdown post-processor *)
(* ===================================================================== *)

(** C4 fails on the code: [replace] makes one pass, so four newlines in a
    row become three and five become four.  With the default
    configuration the text "# Demo\n\n\n\nText" comes out with four
    newlines in a row after the badge line. *)
Theorem spacing_not_collapsed :
  fix_spacing (nl ++ nl ++ nl ++ nl) = nl ++ nl ++ nl
  /\ fix_spacing (nl ++ nl ++ nl ++ nl ++ nl) = nl ++ nl ++ nl ++ nl
  /\ _post_process_readme Config.default Fixtures.spaced_text Fixtures.demo_repo
     = "# Demo" ++ nl ++ nl ++ _generate_badges Fixtures.demo_repo
       ++ nl ++ nl ++ nl ++ nl ++ "Text"
  /\ contains (nl ++ nl ++ nl)
       (_post_process_readme Config.default Fixtures.spaced_text
          Fixtures.demo_repo) = true.
Proof. repeat split; vm_compute; reflexivity. Qed.

(** C10 as stated fails: after a heading of 497 characters the badge line
    starts beyond the first 500 characters, so a second pass over the
    output does not see it and inserts the badges again. *)
Lemma badges_repeated_after_long_heading :
  let once :=
    _post_process_readme Config.default Fixtures.long_heading Fixtures.demo_repo in
  let twice := _post_process_readme Config.default once Fixtures.demo_repo in
  Config.include_badges Config.default = true
  /\ once = Fixtures.long_heading ++ nl ++ nl
            ++ _generate_badges Fixtures.demo_repo ++ nl
  /\ badge_lines Fixtures.demo_repo once = 1%nat
  /\ twice = Fixtures.long_heading ++ nl ++ nl
             ++ _generate_badges Fixtures.demo_repo ++ nl ++ nl
             ++ _generate_badges Fixtures.demo_repo ++ nl
  /\ badge_lines Fixtures.demo_repo twice = 2%nat.
Proof. cbv zeta. repeat split; vm_compute; reflexivity. Qed.

(** *** Strings: prefixes, occurrences, the first characters *)

Lemma prefix_split (p s : string) :
  String.prefix p s = true -> s = p ++ drop (String.length p) s.
Proof.
  revert s. induction p as [| a p IH]; intros s H; [reflexivity |].
  destruct s as [| b s]; simpl in H; [discriminate |].
  destruct (ascii_dec a b) as [<- | _]; [| discriminate].
  simpl. f_equal. now apply IH.
Qed.

Lemma prefix_app (p s : string) : String.prefix p (p ++ s) = true.
Proof.
  induction p as [| a p IH]; simpl; [now destruct s |].
  destruct (ascii_dec a a); [exact IH | congruence].
Qed.

Lemma prefix_take (p s : string) (n : nat) :
  (String.length p <= n)%nat ->
  String.prefix p (take n (p ++ s)) = true.
Proof.
  revert n. induction p as [| a p IH]; intros n Hn; simpl.
  - now destruct (take n s).
  - destruct n as [| n]; simpl in *; [lia |].
    destruct (ascii_dec a a); [apply IH; lia | congruence].
Qed.

Lemma contains_prefix (p s : string) :
  String.prefix p s = true -> contains p s = true.
Proof. intros H. destruct s; cbn [contains]; now rewrite H. Qed.

(** An occurrence that ends within the first [n] characters is found
    there. *)
Lemma contains_take_app (p a b : string) (n : nat) :
  (String.length a + String.length p <= n)%nat ->
  contains p (take n (a ++ p ++ b)) = true.
Proof.
  revert n. induction a as [| c a IH]; intros n Hn.
  - simpl in Hn. change ("" ++ p ++ b) with (p ++ b).
    apply contains_prefix. now apply prefix_take.
  - destruct n as [| n]; simpl in Hn; [lia |].
    simpl append. cbn [take contains].
    rewrite IH by lia. now destruct (String.prefix p _).
Qed.

(** Looking at one more character loses no occurrence. *)
Lemma prefix_take_more (p s : string) (n : nat) :
  String.prefix p (take n s) = true ->
  String.prefix p (take (S n) s) = true.
Proof.
  revert s n. induction p as [| a p IH]; intros s n H.
  - now destruct (take (S n) s).
  - destruct n as [| n]; [discriminate H |].
    destruct s as [| b s]; [discriminate H |].
    cbn [take] in H. cbn [String.prefix] in H.
    change (take (S (S n)) (String b s)) with (String b (take (S n) s)).
    cbn [String.prefix].
    destruct (ascii_dec a b); [now apply IH | discriminate].
Qed.

Lemma contains_cons (p : string) (c : ascii) (s : string) :
  contains p (String c s)
  = if String.prefix p (String c s) then true else contains p s.
Proof. reflexivity. Qed.

Lemma contains_take_more (p s : string) (n : nat) :
  contains p (take n s) = true -> contains p (take (S n) s) = true.
Proof.
  revert n. induction s as [| c s IH]; intros n H.
  - now destruct n.
  - destruct n as [| n].
    + simpl in H. destruct p as [| a p]; [| discriminate H].
      reflexivity.
    + change (take (S (S n)) (String c s)) with (String c (take (S n) s)).
      change (take (S n) (String c s)) with (String c (take n s)) in H.
      rewrite contains_cons in H. rewrite contains_cons.
      destruct (String.prefix p (String c (take n s))) eqn:Hp.
      * change (String c (take n s)) with (take (S n) (String c s)) in Hp.
        apply prefix_take_more in Hp.
        change (take (S (S n)) (String c s))
          with (String c (take (S n) s)) in Hp.
        now rewrite Hp.
      * rewrite (IH n H).
        destruct (String.prefix p (String c (take (S n) s))); reflexivity.
Qed.

Lemma append_assoc (a b c : string) : (a ++ b) ++ c = a ++ b ++ c.
Proof. induction a as [| x a IH]; simpl; [reflexivity | now rewrite IH]. Qed.

Lemma length_append (a b : string) :
  String.length (a ++ b) = (String.length a + String.length b)%nat.
Proof. induction a as [| x a IH]; simpl; [reflexivity | now rewrite IH]. Qed.

(** *** The newline replacement, case by case *)

Lemma prefix_nil (s : string) : String.prefix EmptyString s = true.
Proof. now destruct s. Qed.

Lemma fix_spacing_match (s : string) :
  fix_spacing (nl ++ nl ++ nl ++ s) = nl ++ nl ++ fix_spacing s.
Proof. destruct s; reflexivity. Qed.

Lemma fix_spacing_other (c : ascii) (s : string) :
  String.prefix (nl ++ nl ++ nl) (String c s) = false ->
  fix_spacing (String c s) = String c (fix_spacing s).
Proof.
  intros H. unfold fix_spacing, replace. cbn [replace_from].
  now rewrite H.
Qed.

Lemma fix_spacing_titled (s : string) :
  fix_spacing ("# " ++ s) = "# " ++ fix_spacing s.
Proof. reflexivity. Qed.

(** Image markup within the first [n] characters is still there after
    the newline replacement, which only shortens what precedes it. *)
Lemma fix_spacing_keeps_markup :
  forall k s n,
    (String.length s <= k)%nat ->
    contains "![" (take n s) = true ->
    contains "![" (take n (fix_spacing s)) = true.
Proof.
  induction k as [| k IH]; intros s n Hk H.
  - destruct s; [| simpl in Hk; lia]. now destruct n.
  - destruct s as [| c s]; [now destruct n |].
    destruct (String.prefix (nl ++ nl ++ nl) (String c s)) eqn:Hp.
    + apply prefix_split in Hp.
      remember (drop (String.length (nl ++ nl ++ nl)) (String c s)) as s3
        eqn:Hs3.
      clear Hs3.
      assert (Hlen : (String.length s3 <= k)%nat).
      { apply (f_equal String.length) in Hp. rewrite length_append in Hp.
        simpl in Hp, Hk. lia. }
      rewrite Hp in H |- *.
      change ((nl ++ nl ++ nl) ++ s3) with (nl ++ nl ++ nl ++ s3) in H |- *.
      rewrite fix_spacing_match.
      destruct n as [| [| [| m]]]; try discriminate H.
      apply (contains_take_more "![" (fix_spacing s3) m).
      apply IH; [exact Hlen |]. exact H.
    + rewrite (fix_spacing_other _ _ Hp).
      destruct n as [| m]; [discriminate H |].
      change (take (S m) (String c s)) with (String c (take m s)) in H.
      change (take (S m) (String c (fix_spacing s)))
        with (String c (take m (fix_spacing s))).
      rewrite contains_cons in H. rewrite contains_cons.
      destruct (String.prefix "![" (String c (take m s))) eqn:Hq.
      * cbn [String.prefix] in Hq.
        destruct (ascii_dec "!" c) as [<- | _]; [| discriminate Hq].
        destruct m as [| m]; [discriminate Hq |].
        destruct s as [| d s]; [discriminate Hq |].
        cbn [take String.prefix] in Hq.
        destruct (ascii_dec "[" d) as [<- | _]; [| discriminate Hq].
        rewrite fix_spacing_other by reflexivity.
        cbn [take String.prefix].
        destruct (ascii_dec "!" "!"); [| congruence].
        destruct (ascii_dec "[" "["); [| congruence].
        now rewrite prefix_nil.
      * assert (Hs : (String.length s <= k)%nat) by (simpl in Hk; lia).
        rewrite (IH s m Hs H).
        destruct (String.prefix "![" (String c (take m (fix_spacing s))));
          reflexivity.
Qed.

(** *** The title and the badge line *)

Lemma split_cons (sep : ascii) (s : string) :
  exists h t, split sep s = h :: t.
Proof.
  induction s as [| c s [h [t IH]]]; simpl; [now eexists; eexists |].
  destruct (Ascii.eqb c sep); [now eexists; eexists |].
  rewrite IH. now eexists; eexists.
Qed.

(** The first line of a text that starts with "# " starts with it too. *)
Lemma split_titled (s : string) :
  startswith "# " s = true ->
  exists h t, split LF s = ("# " ++ h) :: t.
Proof.
  intros H. apply prefix_split in H. rewrite H.
  destruct (split_cons LF (drop (String.length "# ") s)) as [h [t Hs]].
  exists h, t. simpl. simpl in Hs. now rewrite Hs.
Qed.

Lemma ensure_title_titled repo_data content :
  startswith "# " (ensure_title repo_data content) = true.
Proof.
  unfold ensure_title.
  destruct (startswith "# " content) eqn:H; [exact H |].
  apply prefix_app.
Qed.

Lemma ensure_title_id repo_data content :
  startswith "# " content = true -> ensure_title repo_data content = content.
Proof. unfold ensure_title. now intros ->. Qed.

(** The badge line is never empty and starts with image markup. *)
Lemma badges_start repo_data :
  exists rest, _generate_badges repo_data = "![" ++ rest.
Proof.
  unfold _generate_badges.
  destruct (truthy (RepositoryData.language repo_data));
    destruct (RepositoryData.stars repo_data >? 0);
    destruct (RepositoryData.forks repo_data >? 0);
    destruct (RepositoryData.has_issues repo_data);
    destruct (truthy (RepositoryData.license_content repo_data));
    simpl; eexists; reflexivity.
Qed.

(** What [add_badges] returns when it inserts: the first line, an empty
    line, the badges, an empty line, the other lines. *)
Lemma add_badges_inserted config repo_data content :
  startswith "# " content = true ->
  Config.include_badges config && negb (contains "![" (take 500 content)) = true ->
  exists rest tail,
    add_badges config repo_data content
    = (first_line content ++ nl ++ nl) ++ "![" ++ rest ++ nl ++ tail.
Proof.
  intros Htitle Hguard. unfold add_badges, first_line. rewrite Hguard.
  destruct (badges_start repo_data) as [rest Hb]. rewrite Hb.
  destruct (split_titled content Htitle) as [h [t Hs]]. rewrite Hs.
  exists rest, (join nl (EmptyString :: t)).
  unfold title_line_of. cbn [find_title_line].
  unfold startswith. rewrite prefix_app.
  cbn [hd]. unfold truthy, list_insert. simpl.
  rewrite !append_assoc. reflexivity.
Qed.

(** After [add_badges] the text still starts with "# ". *)
Lemma add_badges_titled config repo_data content :
  startswith "# " content = true ->
  startswith "# " (add_badges config repo_data content) = true.
Proof.
  intros Htitle.
  destruct (Config.include_badges config
            && negb (contains "![" (take 500 content))) eqn:Hguard.
  - destruct (add_badges_inserted config repo_data content Htitle Hguard)
      as [rest [tail ->]].
    unfold first_line.
    destruct (split_titled content Htitle) as [h [t ->]].
    cbn [hd]. rewrite !append_assoc. apply prefix_app.
  - unfold add_badges. now rewrite Hguard.
Qed.

(** With badges enabled and a first line of at most 496 characters, the
    text has image markup within its first 500 characters once
    [add_badges] has run. *)
Lemma add_badges_markup config repo_data content :
  startswith "# " content = true ->
  Config.include_badges config = true ->
  (String.length (first_line content) <= 496)%nat ->
  contains "![" (take 500 (add_badges config repo_data content)) = true.
Proof.
  intros Htitle Hon Hlen.
  destruct (contains "![" (take 500 content)) eqn:Hseen.
  - unfold add_badges. now rewrite Hon, Hseen.
  - assert (Hguard : Config.include_badges config
                     && negb (contains "![" (take 500 content)) = true)
      by now rewrite Hon, Hseen.
    destruct (add_badges_inserted config repo_data content Htitle Hguard)
      as [rest [tail ->]].
    apply contains_take_app. rewrite !length_append. simpl. lia.
Qed.

(** C10, as amended: when the first line of the titled text has at most
    496 characters, a second run of the post-processor over its own
    output inserts no badge line: the title and badge steps leave that
    output as it is, and only the newline replacement is applied again. *)
Theorem badges_inserted_once :
  forall config repo_data content,
    (String.length (first_line (ensure_title repo_data content)) <= 496)%nat ->
    let once := _post_process_readme config content repo_data in
    add_badges config repo_data (ensure_title repo_data once) = once
    /\ _post_process_readme config once repo_data = fix_spacing once.
Proof.
  intros config repo_data content Hlen once.
  pose proof (ensure_title_titled repo_data content) as Htitle.
  assert (Honce : startswith "# " once = true).
  { subst once. unfold _post_process_readme.
    pose proof (add_badges_titled config repo_data _ Htitle) as H.
    apply prefix_split in H. rewrite H. rewrite fix_spacing_titled.
    apply prefix_app. }
  assert (Hsame : add_badges config repo_data (ensure_title repo_data once)
                  = once).
  { rewrite (ensure_title_id _ _ Honce).
    destruct (Config.include_badges config) eqn:Hon.
    - assert (Hseen : contains "![" (take 500 once) = true).
      { subst once. unfold _post_process_readme.
        eapply fix_spacing_keeps_markup; [apply Nat.le_refl |].
        now apply add_badges_markup. }
      unfold add_badges. now rewrite Hon, Hseen.
    - unfold add_badges. now rewrite Hon. }
  split; [exact Hsame |].
  unfold _post_process_readme at 1. now rewrite Hsame.
Qed.

(** The amended C10 at the text of the end-to-end repository. *)
Lemma badges_inserted_once_witness :
  _post_process_readme Config.default
    (_post_process_readme Config.default Fixtures.spaced_text Fixtures.demo_repo)
    Fixtures.demo_repo
  = fix_spacing
      (_post_process_readme Config.default Fixtures.spaced_text Fixtures.demo_repo).
Proof.
  apply (badges_inserted_once Config.default Fixtures.demo_repo
           Fixtures.spaced_text).
  vm_compute. repeat constructor.
Defined.

(* ===================================================================== *)
(** ** Further properties of the completion client *)
(* ===================================================================== *)

(** One turn of the loop on an answer that is neither a 200 nor a 401. *)
Lemma attempts_retryable config endpoint payload remaining attempt s :
  retryable (endpoint (List.length (sent s))) ->
  attempts config endpoint payload (S remaining) attempt s
  = match after_try config attempt (post payload s) with
    | Some s2 => attempts config endpoint payload remaining (attempt + 1) s2
    | None => (Raise, post payload s)
    end.
Proof.
  intros Hr. cbn [attempts].
  destruct (endpoint (List.length (sent s))) as [status body |];
    [| reflexivity].
  destruct Hr as [H200 H401].
  apply Z.eqb_neq in H200. apply Z.eqb_neq in H401. rewrite H200, H401.
  unfold after_try.
  destruct (status =? 429); [| reflexivity].
  destruct (attempt <? Config.max_retries config - 1); reflexivity.
Qed.

(** The three ways the statements after the [try] block go. *)
Lemma after_try_sleeps config attempt s :
  attempt < Config.max_retries config - 1 ->
  attempt < 1024 ->
  after_try config attempt s = Some (sleep (backoff config attempt) s).
Proof.
  intros Hmax Hfloat. unfold after_try, try_sleep, float_pow2_overflows.
  assert (H1 : (attempt <? Config.max_retries config - 1) = true) by lia.
  assert (H2 : (1024 <=? attempt) = false) by lia.
  now rewrite H1, H2.
Qed.

Lemma after_try_overflows config attempt s :
  attempt < Config.max_retries config - 1 ->
  1024 <= attempt ->
  after_try config attempt s = None.
Proof.
  intros Hmax Hfloat. unfold after_try, try_sleep, float_pow2_overflows.
  assert (H1 : (attempt <? Config.max_retries config - 1) = true) by lia.
  assert (H2 : (1024 <=? attempt) = true) by lia.
  now rewrite H1, H2.
Qed.


Lemma session_eta (s : Session) :
  {| sent := sent s ++ []; slept := slept s ++ [] |} = s.
Proof. destruct s. simpl. now rewrite !app_nil_r. Qed.

(** [k] answers in a row after which the client retries, with at least
    one attempt left afterwards and every delay computed from a power of
    two that has a float: [k] requests and [k] sleeps. *)
Lemma attempts_retries config endpoint payload :
  forall k remaining attempt s,
    attempt + Z.of_nat (k + remaining) = Config.max_retries config ->
    (1 <= remaining)%nat ->
    attempt + Z.of_nat k <= 1024 ->
    (forall j, (j < k)%nat ->
               retryable (endpoint (List.length (sent s) + j)%nat)) ->
    attempts config endpoint payload (k + remaining) attempt s
    = attempts config endpoint payload remaining (attempt + Z.of_nat k)
        {| sent := sent s ++ repeat payload k;
           slept := slept s
                    ++ map (fun i => backoff config (attempt + Z.of_nat i))
                           (seq 0 k) |}.
Proof.
  induction k as [| k IH]; intros remaining attempt s Hmax Hrem Hfloat Hretry.
  - simpl. rewrite Z.add_0_r, session_eta. reflexivity.
  - change (S k + remaining)%nat with (S (k + remaining)).
    rewrite attempts_retryable
      by (specialize (Hretry O ltac:(lia)); now rewrite Nat.add_0_r in Hretry).
    rewrite after_try_sleeps by lia.
    rewrite IH; [| lia | exact Hrem | lia |].
    + f_equal; [lia |].
      cbn [sleep post sent slept]. f_equal.
      * rewrite <- app_assoc. reflexivity.
      * rewrite <- app_assoc. f_equal. cbn [seq map app].
        rewrite Z.add_0_r. f_equal.
        rewrite <- seq_shift, map_map. apply map_ext.
        intros i. f_equal. lia.
    + intros j Hj. cbn [sleep post sent].
      rewrite length_app. cbn [List.length].
      replace (List.length (sent s) + 1 + j)%nat
        with (List.length (sent s) + S j)%nat by lia.
      apply Hretry. lia.
Qed.

Lemma delays_from_zero config k :
  map (fun i => backoff config (0 + Z.of_nat i)) (seq 0 k)
  = delays (Config.retry_delay config) k.
Proof. unfold delays, backoff. apply map_ext. intros i. now rewrite Z.add_0_l. Qed.

Lemma repeat_snoc {A : Type} (x : A) (n : nat) :
  (repeat x n ++ [x])%list = repeat x (S n).
Proof. induction n as [| n IH]; simpl; [reflexivity | now rewrite IH]. Qed.

(** The loop started by [_call_openrouter_api], after [k] retried
    answers that leave at least one attempt. *)
Lemma call_after_retries config endpoint prompt (k : nat) :
  (k < Z.to_nat (Config.max_retries config))%nat ->
  (k <= 1024)%nat ->
  (forall j, (j < k)%nat -> retryable (endpoint j)) ->
  _call_openrouter_api config endpoint prompt
  = attempts config endpoint (build_payload config prompt)
      (Z.to_nat (Config.max_retries config) - k) (Z.of_nat k)
      {| sent := repeat (build_payload config prompt) k;
         slept := delays (Config.retry_delay config) k |}.
Proof.
  intros Hk Hfloat Hretry. unfold _call_openrouter_api.
  replace (Z.to_nat (Config.max_retries config))
    with (k + (Z.to_nat (Config.max_retries config) - k))%nat at 1 by lia.
  rewrite attempts_retries; [| lia | lia | lia | exact Hretry].
  rewrite Z.add_0_l. cbn [new_session sent slept app].
  now rewrite delays_from_zero.
Qed.

(** With more than 1025 attempts configured and 1025 retried answers in
    a row, the delay after the 1025th request has no float: the call
    ends in OverflowError. *)
Lemma call_overflows config endpoint prompt :
  1026 <= Config.max_retries config ->
  (forall j, (j < 1025)%nat -> retryable (endpoint j)) ->
  _call_openrouter_api config endpoint prompt
  = (Raise,
     {| sent := repeat (build_payload config prompt) 1025;
        slept := delays (Config.retry_delay config) 1024 |}).
Proof.
  intros Hmax Hretry.
  rewrite (call_after_retries config endpoint prompt 1024);
    [| lia | lia | intros j Hj; apply Hretry; lia].
  destruct (Z.to_nat (Config.max_retries config) - 1024)%nat as [| m] eqn:Hm;
    [lia |].
  rewrite attempts_retryable
    by (cbn [sent]; rewrite repeat_length; apply Hretry; lia).
  rewrite after_try_overflows by lia.
  unfold post. cbn [sent slept]. now rewrite repeat_snoc.
Qed.

(** *** Stripping, for any set of stripped characters *)

Section Strip.
Variable p : ascii -> bool.
Variables ls rs : string -> string.
Hypothesis ls_eq : forall s,
    ls s = match s with
           | String c s' => if p c then ls s' else s
           | EmptyString => EmptyString
           end.
Hypothesis rs_eq : forall s,
    rs s = match s with
           | EmptyString => EmptyString
           | String c s' =>
               match rs s' with
               | EmptyString => if p c then EmptyString else String c EmptyString
               | r => String c r
               end
           end.

Lemma ls_head s : clean_head p (ls s).
Proof.
  induction s as [| c s IH]; rewrite ls_eq; [exact I |].
  destruct (p c) eqn:Hc; [exact IH | exact Hc].
Qed.

Lemma ls_id s : clean_head p s -> ls s = s.
Proof. destruct s as [| c s]; rewrite ls_eq; [easy |]. simpl. now intros ->. Qed.

Lemma rs_head s : clean_head p s -> clean_head p (rs s).
Proof.
  destruct s as [| c s]; rewrite rs_eq; [easy |]. simpl. intros Hc.
  destruct (rs s); [rewrite Hc |]; exact Hc.
Qed.

Lemma rs_idem s : rs (rs s) = rs s.
Proof.
  induction s as [| c s IH]; [now rewrite !rs_eq |].
  rewrite (rs_eq (String c s)).
  destruct (rs s) as [| d r] eqn:Hr.
  - destruct (p c) eqn:Hc; [now rewrite rs_eq |].
    rewrite rs_eq, (rs_eq EmptyString), Hc. reflexivity.
  - rewrite rs_eq, IH. reflexivity.
Qed.

(** Stripping twice is stripping once. *)
Lemma strip_idem s : rs (ls (rs (ls s))) = rs (ls s).
Proof.
  rewrite (ls_id (rs (ls s))) by (apply rs_head, ls_head).
  apply rs_idem.
Qed.

Lemma ls_drop s : exists k, ls s = drop k s.
Proof.
  induction s as [| c s [k IH]]; rewrite ls_eq; [now exists O |].
  destruct (p c); [exists (S k); exact IH | now exists O].
Qed.

Lemma rs_take s : exists k, rs s = take k s.
Proof.
  induction s as [| c s [k IH]]; rewrite rs_eq; [now exists O |].
  rewrite IH. destruct (take k s) eqn:Hk.
  - destruct (p c); [now exists O | now exists 1%nat; destruct s].
  - exists (S k). simpl. now rewrite Hk.
Qed.

(** Stripping only removes characters. *)
Lemma ls_chars s c : In c (chars (ls s)) -> In c (chars s).
Proof.
  induction s as [| d s IH]; rewrite ls_eq; [easy |].
  destruct (p d); [intros H; right; now apply IH | easy].
Qed.

Lemma rs_chars s c : In c (chars (rs s)) -> In c (chars s).
Proof.
  induction s as [| d s IH]; rewrite rs_eq; [easy |].
  destruct (rs s) as [| e r].
  - destruct (p d); [easy |]. intros [<- | []]. now left.
  - intros [<- | H]; [now left | right; now apply IH].
Qed.

End Strip.

Lemma lstrip_eq s :
  lstrip s = match s with
             | String c s' => if is_space c then lstrip s' else s
             | EmptyString => EmptyString
             end.
Proof. now destruct s. Qed.

Lemma rstrip_eq s :
  rstrip s = match s with
             | EmptyString => EmptyString
             | String c s' =>
                 match rstrip s' with
                 | EmptyString =>
                     if is_space c then EmptyString else String c EmptyString
                 | r => String c r
                 end
             end.
Proof. now destruct s. Qed.

Lemma lstrip_chars_eq cs s :
  lstrip_chars cs s = match s with
                      | String c s' =>
                          if in_chars c cs then lstrip_chars cs s' else s
                      | EmptyString => EmptyString
                      end.
Proof. now destruct s. Qed.

Lemma rstrip_chars_eq cs s :
  rstrip_chars cs s = match s with
                      | EmptyString => EmptyString
                      | String c s' =>
                          match rstrip_chars cs s' with
                          | EmptyString =>
                              if in_chars c cs then EmptyString
                              else String c EmptyString
                          | r => String c r
                          end
                      end.
Proof. now destruct s. Qed.

Lemma strip_strip s : strip (strip s) = strip s.
Proof. exact (strip_idem is_space lstrip rstrip lstrip_eq rstrip_eq s). Qed.

Lemma strip_chars_strip_chars cs s :
  strip_chars cs (strip_chars cs s) = strip_chars cs s.
Proof.
  exact (strip_idem (fun c => in_chars c cs) (lstrip_chars cs) (rstrip_chars cs)
           (lstrip_chars_eq cs) (rstrip_chars_eq cs) s).
Qed.

(** X1: the first answer that is a 200 with a completion, or a 401,
    decides the call.  After [k] retried answers, with [k] below
    [max_retries], at most 1024 and every delay in the range of a double,
    a completion is returned stripped and a 401 gives [None]; either way
    [k + 1] requests were sent and the delays slept are
    [retry_delay * 2**i] for [i < k]. *)
Theorem client_first_decisive_answer :
  forall config endpoint prompt (k : nat),
    (k < Z.to_nat (Config.max_retries config))%nat ->
    (k <= 1024)%nat ->
    (forall i, (i < k)%nat ->
               finite_double
                 (Config.retry_delay config * inject_Z (2 ^ Z.of_nat i))) ->
    (forall j, (j < k)%nat -> retryable (endpoint j)) ->
    (forall text,
        endpoint k = Http 200 (Choices text) ->
        _call_openrouter_api config endpoint prompt
        = (Return (Some (strip text)),
           {| sent := repeat (build_payload config prompt) (S k);
              slept :=
                map (fun i => (Config.retry_delay config
                               * inject_Z (2 ^ Z.of_nat i))%Q)
                    (seq 0 k) |}))
    /\ (forall body,
           endpoint k = Http 401 body ->
           _call_openrouter_api config endpoint prompt
           = (Return None,
              {| sent := repeat (build_payload config prompt) (S k);
                 slept :=
                   map (fun i => (Config.retry_delay config
                                  * inject_Z (2 ^ Z.of_nat i))%Q)
                       (seq 0 k) |})).
Proof.
  intros config endpoint prompt k Hk Hfloat _ Hretry.
  pose proof (call_after_retries config endpoint prompt k Hk Hfloat Hretry)
    as Hrun.
  destruct (Z.to_nat (Config.max_retries config) - k)%nat as [| m] eqn:Hm;
    [lia |].
  split; intros x Hx; rewrite Hrun; cbn [attempts sent];
    rewrite repeat_length, Hx; cbn [Z.eqb Pos.eqb];
    unfold post; cbn [sent slept]; now rewrite repeat_snoc.
Qed.

(** X1 at an endpoint that is rate limited twice before it answers: the
    delays are 1 and 2 seconds. *)
Lemma client_first_decisive_answer_witness :
  _call_openrouter_api Config.default (Fixtures.answering_after 2 " # Demo ") "p"
  = (Return (Some "# Demo"),
     {| sent := repeat (build_payload Config.default "p") 3;
        slept := [(1 * inject_Z 1)%Q; (1 * inject_Z 2)%Q] |}).
Proof.
  refine (proj1 (client_first_decisive_answer Config.default
                   (Fixtures.answering_after 2 " # Demo ") "p" 2 _ _ _ _)
                " # Demo " _).
  - simpl. lia.
  - lia.
  - intros i Hi. destruct i as [| [| i]]; [reflexivity | reflexivity | lia].
  - intros j Hj. unfold Fixtures.answering_after.
    assert (Hlt : (j <? 2)%nat = true) by now apply Nat.ltb_lt.
    rewrite Hlt. simpl. split; discriminate.
  - reflexivity.
Defined.




(** An answer is retried, or is a 200, or is a 401. *)
Lemma response_cases (r : Response) :
  retryable r
  \/ (exists body, r = Http 200 body)
  \/ (exists body, r = Http 401 body).
Proof.
  destruct r as [status body |]; [| now left].
  destruct (Z.eq_dec status 200) as [-> | H200]; [right; left; now exists body |].
  destruct (Z.eq_dec status 401) as [-> | H401]; [right; right; now exists body |].
  left. now split.
Qed.

Lemma attempts_200 config endpoint payload remaining attempt s body :
  endpoint (List.length (sent s)) = Http 200 body ->
  attempts config endpoint payload (S remaining) attempt s
  = (match body with
     | Choices text => Return (Some (strip text))
     | NoChoices => Return None
     | Unexpected => Raise
     end, post payload s).
Proof. intros H. cbn [attempts]. rewrite H. now destruct body. Qed.

(** The client never sleeps after its last request. *)
Lemma attempts_sleeps config endpoint payload :
  forall remaining attempt s,
    attempt + Z.of_nat remaining = Config.max_retries config ->
    List.length (slept s) = List.length (sent s) ->
    remaining <> O ->
    List.length (slept (snd (attempts config endpoint payload remaining attempt s)))
    = pred (List.length
              (sent (snd (attempts config endpoint payload remaining attempt s)))).
Proof.
  induction remaining as [| remaining IH]; intros attempt s Hmax Hs Hrem;
    [contradiction |].
  destruct (response_cases (endpoint (List.length (sent s))))
    as [Hr | [[body Hr] | [body Hr]]].
  - rewrite attempts_retryable by exact Hr. unfold after_try, try_sleep.
    destruct (attempt <? Config.max_retries config - 1) eqn:Hlt.
    + destruct (float_pow2_overflows attempt).
      * cbn [snd post sent slept]. rewrite length_app. simpl. lia.
      * apply IH; [lia | | lia].
        cbn [sleep post sent slept]. rewrite !length_app. simpl. lia.
    + assert (remaining = O) as -> by lia.
      cbn [attempts snd post sent slept]. rewrite length_app. simpl. lia.
  - rewrite (attempts_200 _ _ _ _ _ _ body) by exact Hr.
    cbn [snd post sent slept]. rewrite length_app. simpl. lia.
  - rewrite (attempts_401 _ _ _ _ _ _ body) by exact Hr.
    cbn [snd post sent slept]. rewrite length_app. simpl. lia.
Qed.

(** X3: whatever the endpoint answers, a call sends at most
    [max_retries] requests (none when [max_retries <= 0]) and sleeps once
    between two requests, never after the last one. *)
Theorem client_requests_and_sleeps :
  forall config endpoint prompt,
    let session := snd (_call_openrouter_api config endpoint prompt) in
    (List.length (sent session) <= Z.to_nat (Config.max_retries config))%nat
    /\ List.length (slept session) = pred (List.length (sent session)).
Proof.
  intros config endpoint prompt session. subst session.
  unfold _call_openrouter_api. split.
  - apply (attempts_bounded config endpoint (build_payload config prompt)
             (Z.to_nat (Config.max_retries config)) 0 new_session).
  - destruct (Z.to_nat (Config.max_retries config)) as [| m] eqn:Hn;
      [reflexivity |].
    rewrite <- Hn. apply attempts_sleeps; [lia | reflexivity | lia].
Qed.

(** A returned text is the stripped completion of some 200 answer. *)
Lemma attempts_text config endpoint payload :
  forall remaining attempt s t,
    fst (attempts config endpoint payload remaining attempt s) = Return (Some t) ->
    exists k text,
      (List.length (sent s) <= k < List.length (sent s) + remaining)%nat
      /\ endpoint k = Http 200 (Choices text)
      /\ t = strip text.
Proof.
  induction remaining as [| remaining IH]; intros attempt s t Ht;
    [discriminate Ht |].
  destruct (response_cases (endpoint (List.length (sent s))))
    as [Hr | [[body Hr] | [body Hr]]].
  - rewrite attempts_retryable in Ht by exact Hr.
    destruct (after_try config attempt (post payload s)) as [s2 |] eqn:Hs2;
      [| discriminate Ht].
    apply IH in Ht. destruct Ht as [k [text [Hk H]]].
    rewrite (after_try_sent _ _ _ _ Hs2), post_sent in Hk.
    exists k, text. split; [lia | exact H].
  - rewrite (attempts_200 _ _ _ _ _ _ body) in Ht by exact Hr.
    destruct body as [text | |]; try discriminate Ht.
    injection Ht as <-. exists (List.length (sent s)), text.
    repeat split; [lia | lia | exact Hr].
  - rewrite (attempts_401 _ _ _ _ _ _ body) in Ht by exact Hr.
    discriminate Ht.
Qed.

(** X4: a text returned by the client is the completion of a 200 answer
    among the first [max_retries] ones, stripped: it has no white space
    at either end, and no text is ever made up. *)
Theorem client_text_is_completion :
  forall config endpoint prompt t,
    fst (_call_openrouter_api config endpoint prompt) = Return (Some t) ->
    (exists k text,
        (k < Z.to_nat (Config.max_retries config))%nat
        /\ endpoint k = Http 200 (Choices text)
        /\ t = strip text)
    /\ strip t = t.
Proof.
  intros config endpoint prompt t Ht.
  apply attempts_text in Ht. destruct Ht as [k [text [Hk [Hend ->]]]].
  split; [| apply strip_strip].
  exists k, text. cbn [new_session sent List.length] in Hk.
  repeat split; [lia | exact Hend].
Qed.

(** X4 at an endpoint that answers at once. *)
Lemma client_text_is_completion_witness :
  strip "# Demo" = "# Demo".
Proof.
  apply (client_text_is_completion Config.default
           (Fixtures.answering " # Demo  ") "p" "# Demo").
  reflexivity.
Defined.

(* ===================================================================== *)
(** ** Further properties of the Markdown post-processor *)
(* ===================================================================== *)

Lemma post_process_starts_with_title config content repo_data :
  startswith "# " (_post_process_readme config content repo_data) = true.
Proof.
  unfold _post_process_readme.
  pose proof (add_badges_titled config repo_data _
                (ensure_title_titled repo_data content)) as H.
  apply prefix_split in H. rewrite H, fix_spacing_titled.
  apply prefix_app.
Qed.

Lemma fix_spacing_id (s : string) :
  contains nl3 s = false -> fix_spacing s = s.
Proof.
  induction s as [| c s IH]; intros H; [reflexivity |].
  rewrite contains_cons in H.
  destruct (String.prefix nl3 (String c s)) eqn:Hp; [discriminate H |].
  rewrite (fix_spacing_other _ _ Hp), (IH H). reflexivity.
Qed.

Lemma fix_spacing_length :
  forall k s,
    (String.length s <= k)%nat ->
    (String.length (fix_spacing s) <= String.length s)%nat.
Proof.
  induction k as [| k IH]; intros s Hk.
  - destruct s; [simpl; lia | simpl in Hk; lia].
  - destruct s as [| c s]; [simpl; lia |].
    destruct (String.prefix nl3 (String c s)) eqn:Hp.
    + apply prefix_split in Hp.
      remember (drop (String.length nl3) (String c s)) as s3 eqn:Hs3.
      clear Hs3. rewrite Hp.
      change (nl3 ++ s3) with (nl ++ nl ++ nl ++ s3).
      rewrite fix_spacing_match.
      apply (f_equal String.length) in Hp. rewrite length_append in Hp.
      simpl in Hp, Hk. simpl. specialize (IH s3 ltac:(lia)). lia.
    + rewrite (fix_spacing_other _ _ Hp). simpl in *.
      specialize (IH s ltac:(lia)). lia.
Qed.

Lemma fix_spacing_strict :
  forall k s,
    (String.length s <= k)%nat ->
    contains nl3 s = true ->
    (String.length (fix_spacing s) < String.length s)%nat.
Proof.
  induction k as [| k IH]; intros s Hk H.
  - destruct s; [discriminate H | simpl in Hk; lia].
  - destruct s as [| c s]; [discriminate H |].
    rewrite contains_cons in H.
    destruct (String.prefix nl3 (String c s)) eqn:Hp.
    + apply prefix_split in Hp.
      remember (drop (String.length nl3) (String c s)) as s3 eqn:Hs3.
      clear Hs3. rewrite Hp.
      change (nl3 ++ s3) with (nl ++ nl ++ nl ++ s3).
      rewrite fix_spacing_match.
      pose proof (fix_spacing_length (String.length s3) s3 (Nat.le_refl _)).
      simpl. lia.
    + rewrite (fix_spacing_other _ _ Hp). simpl in *.
      specialize (IH s ltac:(lia) H). lia.
Qed.

(** X5: the newline replacement never lengthens a text, and it leaves a
    text as it is exactly when the text has no three newlines in a
    row. *)
Theorem fix_spacing_shortens :
  forall s,
    (String.length (fix_spacing s) <= String.length s)%nat
    /\ (fix_spacing s = s <-> contains nl3 s = false).
Proof.
  intros s. split; [now apply (fix_spacing_length (String.length s)) |].
  split; [| apply fix_spacing_id].
  intros Hfix. destruct (contains nl3 s) eqn:H; [| reflexivity].
  pose proof (fix_spacing_strict (String.length s) s (Nat.le_refl _) H) as Hlt.
  rewrite Hfix in Hlt. lia.
Qed.

Lemma newlines_app (a b : nat) : newlines (a + b) = newlines a ++ newlines b.
Proof.
  unfold newlines. induction a as [| a IH]; simpl; [reflexivity |].
  now rewrite IH.
Qed.

(** X6: a run of [n] newlines comes out of the newline replacement as a
    run of [n - n / 3] newlines: one newline is dropped per three, so
    runs of six and more keep three and more. *)
Theorem fix_spacing_run :
  forall n, fix_spacing (newlines n) = newlines (n - n / 3).
Proof.
  intros n. induction n as [n IH] using lt_wf_ind.
  destruct n as [| [| [| m]]]; try reflexivity.
  change (S (S (S m))) with (3 + m)%nat.
  rewrite newlines_app.
  change (newlines 3 ++ newlines m) with (nl ++ nl ++ nl ++ newlines m).
  rewrite fix_spacing_match, IH by lia.
  replace (3 + m - (3 + m) / 3)%nat with (2 + (m - m / 3))%nat.
  - now rewrite newlines_app.
  - replace (3 + m)%nat with (1 * 3 + m)%nat by lia.
    rewrite Nat.div_add_l by lia.
    pose proof (Nat.Div0.div_le_upper_bound m 3 m ltac:(lia)).
    lia.
Qed.

(** *** Lines *)

Lemma first_line_lf (s : string) : first_line (String LF s) = EmptyString.
Proof. reflexivity. Qed.

Lemma first_line_cons (c : ascii) (s : string) :
  c <> LF -> first_line (String c s) = String c (first_line s).
Proof.
  intros Hc. unfold first_line. cbn [split].
  apply Ascii.eqb_neq in Hc. rewrite Hc.
  now destruct (split_cons LF s) as [h [t ->]].
Qed.

Lemma first_line_single (s : string) : single_line (first_line s).
Proof.
  unfold single_line.
  induction s as [| c s IH]; [intros [] |].
  destruct (ascii_dec c LF) as [-> | Hc]; [intros [] |].
  rewrite first_line_cons by exact Hc.
  intros [H | H]; [congruence | now apply IH].
Qed.

Lemma first_line_app (a rest : string) :
  single_line a -> first_line (a ++ String LF rest) = a.
Proof.
  unfold single_line. induction a as [| c a IH]; intros Ha; [reflexivity |].
  simpl append. rewrite first_line_cons.
  - f_equal. apply IH. intros H. apply Ha. now right.
  - intros ->. apply Ha. now left.
Qed.

Lemma first_line_fix_spacing (s : string) :
  first_line (fix_spacing s) = first_line s.
Proof.
  induction s as [| c s IH]; [reflexivity |].
  destruct (String.prefix nl3 (String c s)) eqn:Hp.
  - apply prefix_split in Hp. rewrite Hp.
    change (nl3 ++ drop (String.length nl3) (String c s))
      with (nl ++ nl ++ nl ++ drop (String.length nl3) (String c s)).
    rewrite fix_spacing_match. reflexivity.
  - rewrite (fix_spacing_other _ _ Hp).
    destruct (ascii_dec c LF) as [-> | Hc]; [reflexivity |].
    rewrite !first_line_cons by exact Hc. now rewrite IH.
Qed.

Lemma first_line_add_badges config repo_data content :
  startswith "# " content = true ->
  first_line (add_badges config repo_data content) = first_line content.
Proof.
  intros Htitle.
  destruct (Config.include_badges config
            && negb (contains "![" (take 500 content))) eqn:Hguard.
  - destruct (add_badges_inserted config repo_data content Htitle Hguard)
      as [rest [tail ->]].
    rewrite !append_assoc. apply first_line_app, first_line_single.
  - unfold add_badges. now rewrite Hguard.
Qed.

(** X7: whatever the configuration and the text, the post-processed text
    starts with "# ".  A text that starts with "# " keeps its first line;
    to any other text the line "# " followed by the repository name is
    put first (for a name without a newline, as repository names are). *)
Theorem post_process_heading :
  forall config content repo_data,
    startswith "# " (_post_process_readme config content repo_data) = true
    /\ (startswith "# " content = true ->
        first_line (_post_process_readme config content repo_data)
        = first_line content)
    /\ (startswith "# " content = false ->
        single_line (RepositoryData.name repo_data) ->
        first_line (_post_process_readme config content repo_data)
        = "# " ++ RepositoryData.name repo_data).
Proof.
  intros config content repo_data.
  split; [apply post_process_starts_with_title |].
  unfold _post_process_readme.
  rewrite first_line_fix_spacing.
  rewrite first_line_add_badges by apply ensure_title_titled.
  split; intros Htitle.
  - now rewrite ensure_title_id.
  - intros Hname. unfold ensure_title. rewrite Htitle.
    change (nl ++ nl ++ content) with (String LF (nl ++ content)).
    rewrite <- append_assoc. apply first_line_app.
    unfold single_line. cbn [append chars list_ascii_of_string].
    intros [H | [H | H]]; [discriminate H | discriminate H | now apply Hname].
Qed.

(** X7 at a text without a heading, for the repository "demo": the first
    line is "# demo". *)
Lemma post_process_heading_witness :
  first_line (_post_process_readme Config.default "Text" Fixtures.demo_repo)
  = "# demo".
Proof.
  refine (proj2 (proj2 (post_process_heading Config.default "Text"
                          Fixtures.demo_repo)) _ _).
  - reflexivity.
  - unfold single_line. vm_compute.
    intros H. repeat (destruct H as [H | H]; [discriminate H |]). exact H.
Defined.

(** X8: a text that starts with a heading, has no three newlines in a
    row and needs no badges (they are turned off, or image markup shows
    within the first 500 characters) comes out unchanged. *)
Theorem post_process_fixed_point :
  forall config content repo_data,
    startswith "# " content = true ->
    Config.include_badges config = false
    \/ contains "![" (take 500 content) = true ->
    contains nl3 content = false ->
    _post_process_readme config content repo_data = content.
Proof.
  intros config content repo_data Htitle Hbadges Hnl.
  unfold _post_process_readme.
  rewrite (ensure_title_id _ _ Htitle).
  assert (Hsame : add_badges config repo_data content = content).
  { unfold add_badges. destruct Hbadges as [-> | ->]; [reflexivity |].
    now rewrite andb_false_r. }
  rewrite Hsame. now apply fix_spacing_id.
Qed.

(** X8 at a tidy text with the badges turned off. *)
Lemma post_process_fixed_point_witness :
  _post_process_readme Fixtures.no_badges_config Fixtures.tidy_text
    Fixtures.demo_repo
  = Fixtures.tidy_text.
Proof.
  apply (post_process_fixed_point Fixtures.no_badges_config Fixtures.tidy_text
           Fixtures.demo_repo).
  - reflexivity.
  - left. reflexivity.
  - reflexivity.
Defined.

Lemma split_line (a rest : string) :
  single_line a -> split LF (a ++ String LF rest) = a :: split LF rest.
Proof.
  unfold single_line. induction a as [| c a IH]; intros Ha; [reflexivity |].
  simpl append. cbn [split].
  assert (Hc : Ascii.eqb c LF = false).
  { apply Ascii.eqb_neq. intros ->. apply Ha. now left. }
  rewrite Hc, IH; [reflexivity |]. intros H. apply Ha. now right.
Qed.

Lemma split_single (a : string) : single_line a -> split LF a = [a].
Proof.
  unfold single_line. induction a as [| c a IH]; intros Ha; [reflexivity |].
  cbn [split].
  assert (Hc : Ascii.eqb c LF = false).
  { apply Ascii.eqb_neq. intros ->. apply Ha. now left. }
  rewrite Hc, IH; [reflexivity |]. intros H. apply Ha. now right.
Qed.

(** Joining the lines of a text with newlines gives the text back. *)
Lemma join_split (s : string) : join nl (split LF s) = s.
Proof.
  unfold join. induction s as [| c s IH]; [reflexivity |].
  cbn [split]. destruct (split_cons LF s) as [h [t Hs]].
  rewrite Hs in IH |- *.
  destruct (Ascii.eqb c LF) eqn:Hc.
  - apply Ascii.eqb_eq in Hc. subst c.
    change (String.concat nl (EmptyString :: h :: t))
      with (String LF (String.concat nl (h :: t))).
    now rewrite IH.
  - destruct t as [| h' t].
    + simpl in IH |- *. now rewrite IH.
    + change (String.concat nl (String c h :: h' :: t))
        with (String c (String.concat nl (h :: h' :: t))).
      now rewrite IH.
Qed.

Lemma badges_truthy repo_data : truthy (_generate_badges repo_data) = true.
Proof. destruct (badges_start repo_data) as [rest ->]. reflexivity. Qed.

(** X9: when the badges are on and the titled text shows no image markup
    within its first 500 characters, [add_badges] puts the badge line as
    a paragraph of its own right after the heading line: the heading, an
    empty line, the badges, a newline, then what followed the heading. *)
Theorem badges_after_heading :
  forall config repo_data title rest,
    Config.include_badges config = true ->
    startswith "# " title = true ->
    single_line title ->
    rest = EmptyString \/ startswith nl rest = true ->
    contains "![" (take 500 (title ++ rest)) = false ->
    add_badges config repo_data (title ++ rest)
    = title ++ nl ++ nl ++ _generate_badges repo_data ++ nl ++ rest.
Proof.
  intros config repo_data title rest Hon Htitle Hline Hrest Hseen.
  unfold add_badges. rewrite Hon, Hseen, badges_truthy. cbn [andb negb].
  assert (Hfirst : forall t, title_line_of (title :: t) = O).
  { intros t. unfold title_line_of. cbn [find_title_line]. now rewrite Htitle. }
  destruct Hrest as [-> | Hrest].
  - assert (Hempty : title ++ "" = title)
      by (clear; induction title as [| c t IH]; simpl; congruence).
    rewrite Hempty, (split_single _ Hline), Hfirst.
    unfold list_insert, join. simpl. reflexivity.
  - apply prefix_split in Hrest.
    remember (drop (String.length nl) rest) as body eqn:Hbody. clear Hbody.
    subst rest. change (nl ++ body) with (String LF body).
    rewrite (split_line _ _ Hline), Hfirst.
    pose proof (join_split body) as Hjoin. unfold join in Hjoin.
    destruct (split_cons LF body) as [h [t Hs]]. rewrite Hs in Hjoin |- *.
    unfold list_insert, join. cbn [firstn skipn app Nat.add].
    change (String.concat nl
              (title :: "" :: _generate_badges repo_data :: "" :: h :: t))
      with (title ++ nl ++ "" ++ nl ++ _generate_badges repo_data ++ nl
            ++ "" ++ nl ++ String.concat nl (h :: t)).
    rewrite Hjoin. reflexivity.
Qed.

(** X9 at a text with a heading and one paragraph. *)
Lemma badges_after_heading_witness :
  add_badges Config.default Fixtures.demo_repo Fixtures.tidy_text
  = "# Demo" ++ nl ++ nl ++ _generate_badges Fixtures.demo_repo ++ nl
    ++ (nl ++ nl ++ "Text" ++ nl).
Proof.
  apply (badges_after_heading Config.default Fixtures.demo_repo "# Demo"
           (nl ++ nl ++ "Text" ++ nl)).
  - reflexivity.
  - reflexivity.
  - unfold single_line. simpl. intros H.
    repeat (destruct H as [H | H]; [discriminate H |]). exact H.
  - right. reflexivity.
  - reflexivity.
Defined.

(* ===================================================================== *)
(** ** Properties of [generate_readme] *)
(* ===================================================================== *)

(** X10: [generate_readme] gives a text only when the client returned a
    non-empty one, and that text is the post-processed completion, which
    starts with a top-level heading; a completion that is blank once
    stripped counts as a failure. *)
Theorem generate_readme_result :
  forall config endpoint repo_data prompt,
    (forall readme,
        generate_readme config endpoint repo_data prompt = Some readme ->
        startswith "# " readme = true
        /\ exists text,
            text <> EmptyString
            /\ fst (_call_openrouter_api config endpoint prompt)
               = Return (Some text)
            /\ readme = _post_process_readme config text repo_data)
    /\ (forall (k : nat) text,
           (k < Z.to_nat (Config.max_retries config))%nat ->
           (forall j, (j < k)%nat -> retryable (endpoint j)) ->
           endpoint k = Http 200 (Choices text) ->
           strip text = EmptyString ->
           generate_readme config endpoint repo_data prompt = None).
Proof.
  intros config endpoint repo_data prompt. unfold generate_readme. split.
  - intros readme H.
    destruct (fst (_call_openrouter_api config endpoint prompt))
      as [[text |] |]; try discriminate H.
    destruct (truthy text) eqn:Htext; [| discriminate H].
    injection H as <-.
    split; [apply post_process_starts_with_title |].
    exists text. repeat split.
    intros ->. discriminate Htext.
  - intros k text Hk Hretry Hend Hblank.
    destruct (Nat.le_gt_cases k 1024) as [Hfloat | Hfloat].
    + rewrite (call_after_retries config endpoint prompt k Hk Hfloat Hretry).
      destruct (Z.to_nat (Config.max_retries config) - k)%nat as [| m] eqn:Hm;
        [lia |].
      rewrite (attempts_200 _ _ _ _ _ _ (Choices text))
        by (cbn [sent]; now rewrite repeat_length).
      cbn [fst]. now rewrite Hblank.
    + rewrite call_overflows;
        [reflexivity | lia | intros j Hj; apply Hretry; lia].
Qed.

(** X10 at an endpoint that answers with spaces only. *)
Lemma generate_readme_result_witness :
  generate_readme Config.default Fixtures.blank_answer Fixtures.demo_repo "p"
  = None.
Proof.
  refine (proj2 (generate_readme_result Config.default Fixtures.blank_answer
                   Fixtures.demo_repo "p") O "   " _ _ _ _).
  - simpl. lia.
  - intros j Hj. lia.
  - reflexivity.
  - reflexivity.
Defined.

(* ===================================================================== *)
(** ** Properties of the GitHub request helper *)
(* ===================================================================== *)

Section GitHubApiProps.
Context {Json : Type}.
Variable config : Config.t.
Variable server : nat -> ApiResponse Json.

(** One turn of the loop on an answer that is neither a 200 nor a 404;
    on the last attempt a 403 returns at once, which is what the end of
    the loop does too. *)
Lemma api_attempts_retryable remaining attempt s :
  attempt + Z.of_nat (S remaining) = Config.max_retries config ->
  api_retryable (server (api_requests s)) ->
  api_attempts config server (S remaining) attempt s
  = match api_after_try config attempt (api_get s) with
    | Some s2 => api_attempts config server remaining (attempt + 1) s2
    | None => (ApiRaise, api_get s)
    end.
Proof.
  intros Hmax Hr. cbn [api_attempts].
  destruct (server (api_requests s)) as [status data |]; [| reflexivity].
  destruct Hr as [H200 H404].
  apply Z.eqb_neq in H200. apply Z.eqb_neq in H404. rewrite H200, H404.
  unfold api_after_try.
  destruct (status =? 403); [| reflexivity].
  destruct (attempt <? Config.max_retries config - 1) eqn:Hlt; [reflexivity |].
  assert (remaining = O) as -> by lia. reflexivity.
Qed.

Lemma api_after_try_sleeps attempt s :
  attempt < Config.max_retries config - 1 ->
  attempt < 1024 ->
  api_after_try config attempt s
  = Some (api_sleep (api_backoff config attempt) s).
Proof.
  intros Hmax Hfloat. unfold api_after_try, api_try_sleep, float_pow2_overflows.
  assert (H1 : (attempt <? Config.max_retries config - 1) = true) by lia.
  assert (H2 : (1024 <=? attempt) = false) by lia.
  now rewrite H1, H2.
Qed.



Lemma api_session_eta (s : ApiSession) :
  {| api_requests := api_requests s + 0; api_slept := api_slept s ++ [] |} = s.
Proof. destruct s. simpl. now rewrite Nat.add_0_r, app_nil_r. Qed.

Lemma api_attempts_retries :
  forall k remaining attempt s,
    attempt + Z.of_nat (k + remaining) = Config.max_retries config ->
    (1 <= remaining)%nat ->
    attempt + Z.of_nat k <= 1024 ->
    (forall j, (j < k)%nat -> api_retryable (server (api_requests s + j)%nat)) ->
    api_attempts config server (k + remaining) attempt s
    = api_attempts config server remaining (attempt + Z.of_nat k)
        {| api_requests := api_requests s + k;
           api_slept := api_slept s
                        ++ map (fun i => api_backoff config (attempt + Z.of_nat i))
                               (seq 0 k) |}.
Proof.
  induction k as [| k IH]; intros remaining attempt s Hmax Hrem Hfloat Hretry.
  - simpl. rewrite Z.add_0_r, api_session_eta. reflexivity.
  - change (S k + remaining)%nat with (S (k + remaining)).
    rewrite api_attempts_retryable;
      [| lia
       | specialize (Hretry O ltac:(lia)); now rewrite Nat.add_0_r in Hretry].
    rewrite api_after_try_sleeps by lia.
    rewrite IH; [| lia | exact Hrem | lia |].
    + f_equal; [lia |].
      cbn [api_sleep api_get api_requests api_slept]. f_equal; [lia |].
      rewrite <- app_assoc. f_equal. cbn [seq map app].
      rewrite Z.add_0_r. f_equal.
      rewrite <- seq_shift, map_map. apply map_ext.
      intros i. f_equal. lia.
    + intros j Hj. cbn [api_sleep api_get api_requests].
      replace (S (api_requests s) + j)%nat
        with (api_requests s + S j)%nat by lia.
      apply Hretry. lia.
Qed.

Lemma api_after_retries (k : nat) :
  (k < Z.to_nat (Config.max_retries config))%nat ->
  (k <= 1024)%nat ->
  (forall j, (j < k)%nat -> api_retryable (server j)) ->
  _get_github_api_data config server
  = api_attempts config server
      (Z.to_nat (Config.max_retries config) - k) (Z.of_nat k)
      {| api_requests := k;
         api_slept := delays (Config.retry_delay config) k |}.
Proof.
  intros Hk Hfloat Hretry. unfold _get_github_api_data.
  replace (Z.to_nat (Config.max_retries config))
    with (k + (Z.to_nat (Config.max_retries config) - k))%nat at 1 by lia.
  rewrite api_attempts_retries; [| lia | lia | lia | exact Hretry].
  rewrite Z.add_0_l. cbn [api_requests api_slept app Nat.add].
  reflexivity.
Qed.


Lemma api_response_cases (r : ApiResponse Json) :
  api_retryable r
  \/ (exists data, r = ApiHttp 200 data)
  \/ (exists data, r = ApiHttp 404 data).
Proof.
  destruct r as [status data |]; [| now left].
  destruct (Z.eq_dec status 200) as [-> | H200]; [right; left; now exists data |].
  destruct (Z.eq_dec status 404) as [-> | H404]; [right; right; now exists data |].
  left. now split.
Qed.

Lemma api_attempts_200 remaining attempt s data :
  server (api_requests s) = ApiHttp 200 data ->
  api_attempts config server (S remaining) attempt s
  = (ApiReturn (Some data), api_get s).
Proof. intros H. cbn [api_attempts]. now rewrite H. Qed.

Lemma api_attempts_404 remaining attempt s data :
  server (api_requests s) = ApiHttp 404 data ->
  api_attempts config server (S remaining) attempt s
  = (ApiReturn None, api_get s).
Proof. intros H. cbn [api_attempts]. now rewrite H. Qed.

(** What a call leaves behind: at most one request per turn, one sleep
    between two requests, and data only from a 200 answer. *)
Lemma api_attempts_summary :
  forall remaining attempt s,
    attempt + Z.of_nat remaining = Config.max_retries config ->
    List.length (api_slept s) = api_requests s ->
    remaining <> O ->
    let run := api_attempts config server remaining attempt s in
    (api_requests (snd run) <= api_requests s + remaining)%nat
    /\ List.length (api_slept (snd run)) = pred (api_requests (snd run))
    /\ (forall data,
           fst run = ApiReturn (Some data) ->
           exists k,
             (api_requests s <= k < api_requests s + remaining)%nat
             /\ server k = ApiHttp 200 data).
Proof.
  induction remaining as [| remaining IH]; intros attempt s Hmax Hs Hrem run;
    [contradiction |].
  subst run.
  destruct (api_response_cases (server (api_requests s)))
    as [Hr | [[data Hr] | [data Hr]]].
  - rewrite api_attempts_retryable by (assumption || lia).
    unfold api_after_try, api_try_sleep.
    destruct (attempt <? Config.max_retries config - 1) eqn:Hlt;
      [destruct (float_pow2_overflows attempt) |].
    + cbn [fst snd api_get api_requests api_slept].
      repeat split; [lia | lia |]. intros data Hd. discriminate Hd.
    + destruct (IH (attempt + 1)
                  (api_sleep (api_backoff config attempt) (api_get s)))
        as [Hreq [Hsl Hdata]]; [lia | | lia |].
      { cbn [api_sleep api_get api_requests api_slept].
        rewrite length_app. simpl. lia. }
      cbn [api_sleep api_get api_requests] in Hreq, Hdata.
      repeat split; [lia | exact Hsl |].
      intros data Hd. destruct (Hdata data Hd) as [k [Hk Hsrv]].
      exists k. split; [lia | exact Hsrv].
    + assert (remaining = O) as -> by lia.
      cbn [api_attempts fst snd api_get api_requests api_slept].
      repeat split; [lia | lia |]. intros data Hd. discriminate Hd.
  - rewrite (api_attempts_200 _ _ _ data) by exact Hr.
    cbn [fst snd api_get api_requests api_slept].
    repeat split; [lia | lia |].
    intros d Hd. injection Hd as <-. exists (api_requests s).
    split; [lia | exact Hr].
  - rewrite (api_attempts_404 _ _ _ data) by exact Hr.
    cbn [fst snd api_get api_requests api_slept].
    repeat split; [lia | lia |]. intros d Hd. discriminate Hd.
Qed.

End GitHubApiProps.

(** X11: the first answer of the GitHub API that is a 200 or a 404
    decides the call.  After [k] retried answers, with [k] below
    [max_retries], at most 1024 and every delay in the range of a double,
    a 200 gives its data and a 404 gives [None] without any further
    request; either way [k + 1] requests were made and the delays slept
    are [retry_delay * 2**i] for [i < k]. *)
Theorem api_first_decisive_answer :
  forall (Json : Type) config (server : nat -> ApiResponse Json) (k : nat),
    (k < Z.to_nat (Config.max_retries config))%nat ->
    (k <= 1024)%nat ->
    (forall i, (i < k)%nat ->
               finite_double
                 (Config.retry_delay config * inject_Z (2 ^ Z.of_nat i))) ->
    (forall j, (j < k)%nat -> api_retryable (server j)) ->
    (forall data,
        server k = ApiHttp 200 data ->
        _get_github_api_data config server
        = (ApiReturn (Some data),
           {| api_requests := S k;
              api_slept :=
                map (fun i => (Config.retry_delay config
                               * inject_Z (2 ^ Z.of_nat i))%Q)
                    (seq 0 k) |}))
    /\ (forall data,
           server k = ApiHttp 404 data ->
           _get_github_api_data config server
           = (ApiReturn None,
              {| api_requests := S k;
                 api_slept :=
                   map (fun i => (Config.retry_delay config
                                  * inject_Z (2 ^ Z.of_nat i))%Q)
                       (seq 0 k) |})).
Proof.
  intros Json config server k Hk Hfloat _ Hretry.
  pose proof (api_after_retries config server k Hk Hfloat Hretry) as Hrun.
  destruct (Z.to_nat (Config.max_retries config) - k)%nat as [| m] eqn:Hm;
    [lia |].
  split; intros data Hdata; rewrite Hrun.
  - now rewrite (api_attempts_200 _ _ _ _ _ data).
  - now rewrite (api_attempts_404 _ _ _ _ _ data).
Qed.

(** X11 at an API that fails twice before it serves: the delays are 1
    and 2 seconds. *)
Lemma api_first_decisive_answer_witness :
  _get_github_api_data Config.default (Fixtures.serving_after 2 "tree")
  = (ApiReturn (Some "tree"),
     {| api_requests := 3;
        api_slept := [(1 * inject_Z 1)%Q; (1 * inject_Z 2)%Q] |}).
Proof.
  refine (proj1 (api_first_decisive_answer string Config.default
                   (Fixtures.serving_after 2 "tree") 2 _ _ _ _) "tree" _).
  - simpl. lia.
  - lia.
  - intros i Hi. destruct i as [| [| i]]; [reflexivity | reflexivity | lia].
  - intros j Hj. unfold Fixtures.serving_after.
    assert (Hlt : (j <? 2)%nat = true) by now apply Nat.ltb_lt.
    rewrite Hlt. simpl. split; discriminate.
  - reflexivity.
Defined.



(** X13: whatever the GitHub API answers, a call makes at most
    [max_retries] requests, sleeps once between two requests and never
    after the last one, and returns data only if one of those requests
    was answered 200 with that data. *)
Theorem api_requests_and_data :
  forall (Json : Type) config (server : nat -> ApiResponse Json),
    let run := _get_github_api_data config server in
    (api_requests (snd run) <= Z.to_nat (Config.max_retries config))%nat
    /\ List.length (api_slept (snd run)) = pred (api_requests (snd run))
    /\ (forall data,
           fst run = ApiReturn (Some data) ->
           exists k,
             (k < Z.to_nat (Config.max_retries config))%nat
             /\ server k = ApiHttp 200 data).
Proof.
  intros Json config server run. subst run. unfold _get_github_api_data.
  destruct (Z.to_nat (Config.max_retries config)) as [| m] eqn:Hn.
  - cbn. repeat split; [lia |]. intros data H. discriminate H.
  - rewrite <- Hn.
    destruct (api_attempts_summary config server
                (Z.to_nat (Config.max_retries config)) 0
                {| api_requests := O; api_slept := [] |})
      as [Hreq [Hsl Hdata]]; [lia | reflexivity | lia |].
    cbn [api_requests] in Hreq, Hdata.
    repeat split; [lia | exact Hsl |].
    intros data Hd. destruct (Hdata data Hd) as [k [Hk Hsrv]].
    exists k. split; [lia | exact Hsrv].
Qed.

(* ===================================================================== *)
(** ** Further properties of the directory walker *)
(* ===================================================================== *)

(** The loop over a listing when no subdirectory yields a record: the
    records of the entries that pass, up to [max_files] in all. *)
Lemma walk_items_flat config remote recurse :
  (forall p, recurse p = []) ->
  forall contents files,
    walk_items config remote recurse contents files
    = (files
       ++ firstn (Z.to_nat (Config.max_files config
                            - Z.of_nat (List.length files)))
                 (file_records config remote contents))%list.
Proof.
  intros Hrec contents.
  induction contents as [| item rest IH]; intros files; cbn [walk_items].
  - unfold file_records. simpl. now rewrite firstn_nil, app_nil_r.
  - destruct (Z.of_nat (List.length files) >=? Config.max_files config)
      eqn:Hfull.
    + replace (Z.to_nat (Config.max_files config - Z.of_nat (List.length files)))
        with O by lia.
      simpl. now rewrite app_nil_r.
    + unfold file_records, keeps. cbn [filter].
      destruct (String.eqb (item_type item) "dir").
      * rewrite Hrec, app_nil_r. apply IH.
      * cbn [negb andb].
        destruct (mem (lower (suffix (item_name item)))
                      (Config.supported_extensions config)
                  || mem (item_name item) special_file_names);
          [| apply IH].
        cbn [andb].
        destruct (match item_size item with Some n => n | None => 0 end
                  <=? Config.max_file_size config);
          [| apply IH].
        rewrite IH, length_app. cbn [List.length map].
        replace (Z.to_nat (Config.max_files config - Z.of_nat (List.length files)))
          with (S (Z.to_nat (Config.max_files config
                             - Z.of_nat (List.length files + 1)))) by lia.
        rewrite <- app_assoc. reflexivity.
Qed.

(** X14: at the deepest level ([level = max_level]) the walker returns
    the records of the entries of the listing that are not directories
    and pass the extension-or-name and size tests, in listing order and
    cut after [max_files]; the directories of that level contribute
    nothing. *)
Theorem walker_last_level :
  forall config remote path max_level contents,
    _get_repository_contents remote path = Some contents ->
    _analyze_directory_structure config remote path max_level max_level
    = firstn (Z.to_nat (Config.max_files config))
             (file_records config remote contents).
Proof.
  intros config remote path max_level contents Hdir.
  unfold _analyze_directory_structure.
  replace (max_level + 1 - max_level) with 1 by lia.
  change (Z.to_nat 1) with 1%nat. cbn [walk].
  assert (Hself : (max_level >? max_level) = false) by lia.
  assert (Hnext : (max_level + 1 >? max_level) = true) by lia.
  rewrite Hself, Hdir.
  destruct contents as [| item rest];
    [unfold file_records; simpl; now rewrite firstn_nil |].
  rewrite walk_items_flat by (intros p; now rewrite Hnext).
  cbn [List.length app]. now rewrite Z.sub_0_r.
Qed.

(** X14 at the root of the nested repository, taken as the deepest
    level: a.py alone, the directory is not entered. *)
Lemma walker_last_level_witness :
  map FileData.path
      (_analyze_directory_structure Fixtures.two_files_config
         Fixtures.nested_remote "" 0 0)
  = ["a.py"].
Proof.
  rewrite (walker_last_level Fixtures.two_files_config Fixtures.nested_remote
             "" 0
             [ Fixtures.file_entry "a.py" "a.py" 1;
               Fixtures.dir_entry "pkg" "pkg" ]).
  - reflexivity.
  - reflexivity.
Defined.

Lemma walk_items_made config remote recurse dir listing :
  _get_repository_contents remote dir = Some listing ->
  forall (P : FileData.t -> Prop),
    (forall p r, In r (recurse p) -> P r) ->
    (forall item, In item listing -> item_type item <> "dir" ->
                  keeps config item = true -> P (make_record remote item)) ->
    forall contents files,
      incl contents listing ->
      (forall r, In r files -> P r) ->
      forall r, In r (walk_items config remote recurse contents files) -> P r.
Proof.
  intros Hdir P Hrec Hmake contents.
  induction contents as [| item rest IH]; intros files Hincl Hfiles r Hin;
    cbn [walk_items] in Hin; [auto |].
  assert (Hrest : incl rest listing)
    by (intros x Hx; apply Hincl; now right).
  assert (Hitem : In item listing) by (apply Hincl; now left).
  destruct (Z.of_nat (List.length files) >=? Config.max_files config); [auto |].
  destruct (String.eqb (item_type item) "dir") eqn:Htype.
  - apply (IH (files ++ recurse (item_path item))%list); auto.
    intros r' Hr'. apply in_app_or in Hr'. destruct Hr'; eauto.
  - apply String.eqb_neq in Htype.
    destruct (mem (lower (suffix (item_name item)))
                  (Config.supported_extensions config)
              || mem (item_name item) special_file_names) eqn:Hext;
      [| eapply IH; eauto].
    destruct (match item_size item with Some n => n | None => 0 end
              <=? Config.max_file_size config) eqn:Hsize;
      [| eapply IH; eauto].
    eapply IH; [exact Hrest | | exact Hin].
    intros r' Hr'. apply in_app_or in Hr'. destruct Hr' as [Hr' | [<- | []]];
      [auto |].
    apply (Hmake item Hitem Htype). unfold keeps. now rewrite Hext, Hsize.
Qed.

(** X15: every record of the walker is built from a listed entry that is
    not a directory and passes the tests: path, name and size are the
    entry's (size 0 when the entry has none), the extension is the
    lower-cased suffix of the name, and the content is what
    [_get_file_content] returned for the path, or the empty text when it
    returned nothing; a file whose content cannot be fetched or decoded
    is kept, not dropped. *)
Theorem walker_records_made :
  forall config remote path level max_level r,
    In r (_analyze_directory_structure config remote path level max_level) ->
    exists dir contents item,
      _get_repository_contents remote dir = Some contents
      /\ In item contents
      /\ item_type item <> "dir"
      /\ keeps config item = true
      /\ r = make_record remote item.
Proof.
  intros config remote path level max_level.
  unfold _analyze_directory_structure.
  generalize (S (Z.to_nat (max_level + 1 - level))) as fuel.
  intros fuel. revert path level.
  induction fuel as [| fuel IH]; intros path level r Hin; cbn [walk] in Hin;
    [contradiction |].
  destruct (level >? max_level); [contradiction |].
  destruct (_get_repository_contents remote path) as [[| item rest] |] eqn:Hdir;
    try contradiction.
  revert r Hin.
  apply (walk_items_made config remote _ path (item :: rest) Hdir).
  - intros p r Hr. exact (IH p (level + 1) r Hr).
  - intros it Hit Htype Hkeep. exists path, (item :: rest), it. auto.
  - apply incl_refl.
  - intros r [].
Qed.

(** X15 at the README-only repository. *)
Lemma walker_records_made_witness :
  exists dir contents item,
    _get_repository_contents Fixtures.readme_remote dir = Some contents
    /\ In item contents
    /\ item_type item <> "dir"
    /\ keeps Fixtures.python_only_config item = true
    /\ make_record Fixtures.readme_remote
         (Fixtures.file_entry "README.md" "README.md" 10)
       = make_record Fixtures.readme_remote item.
Proof.
  apply (walker_records_made Fixtures.python_only_config Fixtures.readme_remote
           "" 0 3).
  vm_compute. left. reflexivity.
Defined.

(** X16 at the nested repository with [max_files = 2]: three records,
    within the bound of five. *)
Lemma walker_length_bound_witness :
  Z.of_nat (List.length
              (_analyze_directory_structure Fixtures.two_files_config
                 Fixtures.nested_remote "" 0 3))
  <= (3 + 1 - 0) * (Config.max_files Fixtures.two_files_config - 1) + 1.
Proof.
  apply (walker_length_bound Fixtures.two_files_config Fixtures.nested_remote
           "" 0 3).
  - simpl. lia.
  - lia.
Defined.

(** X17: with [max_files <= 0] the walker returns no record, whatever
    the repository holds. *)
Theorem walker_nonpositive_cap :
  forall config remote path level max_level,
    Config.max_files config <= 0 ->
    _analyze_directory_structure config remote path level max_level = [].
Proof.
  intros config remote path level max_level Hmax.
  unfold _analyze_directory_structure. cbn [walk].
  destruct (level >? max_level); [reflexivity |].
  destruct (_get_repository_contents remote path) as [[| item rest] |];
    try reflexivity.
  cbn [walk_items List.length].
  assert (Hfull : (Z.of_nat 0 >=? Config.max_files config) = true)
    by (apply Z.geb_le; simpl; lia).
  now rewrite Hfull.
Qed.

(** X17 at the nested repository. *)
Lemma walker_nonpositive_cap_witness :
  _analyze_directory_structure
    (Fixtures.configured 0 100000 (Config.supported_extensions Config.default))
    Fixtures.nested_remote "" 0 3
  = [].
Proof.
  apply (walker_nonpositive_cap
           (Fixtures.configured 0 100000
              (Config.supported_extensions Config.default))
           Fixtures.nested_remote "" 0 3).
  simpl. lia.
Defined.

(* ===================================================================== *)
(** ** Further properties of the language statistics *)
(* ===================================================================== *)

Lemma count_lines_nonneg (f : FileData.t) : 0 <= count_lines f.
Proof. unfold count_lines. destruct (truthy (FileData.content f)); lia. Qed.

Lemma fold_count_file_total files :
  forall counts total,
    snd (fold_left count_file files (counts, total))
    = total + counted_lines files.
Proof.
  induction files as [| f files IH]; intros counts total;
    cbn [fold_left counted_lines fold_right]; [cbn [snd]; lia |].
  fold (counted_lines files).
  unfold count_file at 2.
  destruct (dict_get language_map (FileData.extension f)).
  - rewrite IH. lia.
  - apply IH.
Qed.

Lemma counted_lines_nonneg files : 0 <= counted_lines files.
Proof.
  induction files as [| f files IH]; cbn [counted_lines fold_right]; [lia |].
  fold (counted_lines files).
  pose proof (count_lines_nonneg f).
  destruct (dict_get language_map (FileData.extension f)); lia.
Qed.

(** A character that [splitlines] cuts at is the newline or one of the
    seven other boundaries. *)
Lemma is_linebreak_other (c : ascii) :
  existsb (Ascii.eqb c) other_line_breaks = false ->
  Ascii.eqb c CR = false
  /\ (Ascii.eqb c "010" = false -> is_linebreak c = false).
Proof.
  destruct c as [[] [] [] [] [] [] [] []]; vm_compute;
    intros H; split; try intros H'; congruence.
Qed.

(** On a text whose only line boundary is the newline, [splitlines]
    gives one line per newline and one more for what follows the last. *)
Lemma splitlines_from_count (s : string) :
  forall cur,
    newline_only s = true ->
    List.length (splitlines_from cur s)
    = lines_from (negb (String.eqb cur EmptyString)) s.
Proof.
  induction s as [| c s IH]; intros cur Hs.
  - now destruct cur.
  - unfold newline_only in Hs. cbn [chars list_ascii_of_string forallb] in Hs.
    apply andb_true_iff in Hs. destruct Hs as [Hc Hs].
    apply negb_true_iff in Hc.
    destruct (is_linebreak_other c Hc) as [Hcr Hbreak].
    cbn [splitlines_from lines_from]. rewrite Hcr.
    destruct (Ascii.eqb c "010") eqn:Hlf.
    + apply Ascii.eqb_eq in Hlf. subst c.
      change (is_linebreak "010") with true. cbv iota.
      cbn [List.length]. now rewrite (IH EmptyString Hs).
    + rewrite (Hbreak eq_refl), (IH _ Hs). now destruct cur.
Qed.

Lemma count_lines_line_count (f : FileData.t) :
  newline_only (FileData.content f) = true ->
  count_lines f = line_count (FileData.content f).
Proof.
  intros Hs. unfold count_lines, line_count, splitlines.
  rewrite (splitlines_from_count _ EmptyString Hs).
  now destruct (FileData.content f).
Qed.

(** The keys of the language table. *)
Lemma language_map_extensions (ext : string) :
  match dict_get language_map ext with Some _ => true | None => false end
  = existsb (String.eqb ext) counted_extensions.
Proof.
  unfold language_map, counted_extensions. cbn [dict_get existsb].
  repeat (destruct (String.eqb ext _); [reflexivity |]). reflexivity.
Qed.

Lemma counted_lines_total files :
  forallb (fun f => newline_only (FileData.content f)) files = true ->
  counted_lines files = total_line_count files.
Proof.
  induction files as [| f files IH]; intros Hs; [reflexivity |].
  cbn [forallb] in Hs. apply andb_true_iff in Hs. destruct Hs as [Hf Hs].
  cbn [counted_lines total_line_count fold_right].
  fold (counted_lines files). fold (total_line_count files).
  rewrite <- language_map_extensions, <- (IH Hs), <- (count_lines_line_count f Hf).
  now destruct (dict_get language_map (FileData.extension f)).
Qed.

(** X18: [total_lines] is never negative, and for files whose only line
    boundary is the newline it is the number of lines of the files with
    one of the sixteen counted extensions, where a text has one line per
    newline and one more when characters follow its last newline (so an
    empty text has none); files with another extension are not counted. *)
Theorem total_lines_counted :
  forall files,
    0 <= LanguageStats.total_lines (_analyze_languages files)
    /\ (forallb (fun f => newline_only (FileData.content f)) files = true ->
        LanguageStats.total_lines (_analyze_languages files)
        = total_line_count files).
Proof.
  intros files.
  assert (H : LanguageStats.total_lines (_analyze_languages files)
              = counted_lines files).
  { unfold _analyze_languages.
    pose proof (fold_count_file_total files [] 0) as Htotal.
    fold (count_languages files) in Htotal.
    destruct (count_languages files) as [counts total].
    cbn [snd] in Htotal. cbn [LanguageStats.total_lines]. lia. }
  split; [rewrite H; apply counted_lines_nonneg |].
  intros Hs. rewrite H. now apply counted_lines_total.
Qed.

(** X18 at the two files of the end-to-end scenario: the two lines of
    main.py are counted, the line of requirements.txt is not. *)
Lemma total_lines_counted_witness :
  LanguageStats.total_lines
    (_analyze_languages (analyze_files Config.default Fixtures.flask_remote))
  = 2.
Proof.
  apply (proj2 (total_lines_counted
                  (analyze_files Config.default Fixtures.flask_remote))).
  reflexivity.
Defined.

(** What [d[k] = v] does to the entries and to the keys. *)
Lemma dict_set_entry {V : Type} (d : list (string * V)) k v k0 v0 :
  In (k0, v0) (dict_set d k v) -> (k0 = k /\ v0 = v) \/ In (k0, v0) d.
Proof.
  induction d as [| [k' v'] d IH]; simpl.
  - intros [H | []]. injection H as <- <-. now left.
  - destruct (String.eqb k k') eqn:Hk.
    + apply String.eqb_eq in Hk. subst k'.
      intros [H | H]; [injection H as <- <-; now left | right; now right].
    + intros [H | H]; [right; now left |].
      destruct (IH H) as [Heq | Hin]; [now left | right; now right].
Qed.

Lemma dict_set_keys {V : Type} (d : list (string * V)) k v :
  NoDup (map fst d) -> NoDup (map fst (dict_set d k v)).
Proof.
  induction d as [| [k' v'] d IH]; simpl; intros Hnd.
  - constructor; [intros [] | constructor].
  - destruct (String.eqb k k') eqn:Hk; [exact Hnd |].
    apply String.eqb_neq in Hk.
    inversion Hnd as [| x l Hnotin Hnd']. subst.
    simpl. constructor; [| now apply IH].
    intros Hin. apply in_map_iff in Hin. destruct Hin as [[k0 v0] [Hfst Hin]].
    simpl in Hfst. subst k0.
    destruct (dict_set_entry d k v k' v0 Hin) as [[Heq _] | Hold];
      [congruence |].
    apply Hnotin. apply in_map_iff. now exists (k', v0).
Qed.

Lemma dict_get_In {V : Type} (d : list (string * V)) k v :
  dict_get d k = Some v -> In (k, v) d.
Proof.
  induction d as [| [k' v'] d IH]; simpl; [discriminate |].
  destruct (String.eqb k k') eqn:Hk.
  - apply String.eqb_eq in Hk. subst k'. intros H. injection H as <-. now left.
  - intros H. right. now apply IH.
Qed.

Lemma count_file_ok st f : counts_ok (fst st) -> counts_ok (fst (count_file st f)).
Proof.
  destruct st as [counts total]. unfold count_file. cbn [fst].
  intros [Hnd Hall].
  destruct (dict_get language_map (FileData.extension f)) as [language |] eqn:Hl;
    cbn [fst]; [| now split].
  split; [now apply dict_set_keys |].
  intros k v Hin. apply dict_set_entry in Hin.
  destruct Hin as [[-> ->] | Hin]; [| now apply Hall].
  split; [now exists (FileData.extension f) |].
  pose proof (count_lines_nonneg f).
  destruct (dict_get counts language) as [n |] eqn:Hn; [| lia].
  apply dict_get_In in Hn. apply Hall in Hn. lia.
Qed.

Lemma count_languages_ok files : counts_ok (fst (count_languages files)).
Proof.
  unfold count_languages.
  assert (H : forall st, counts_ok (fst st) ->
                         counts_ok (fst (fold_left count_file files st))).
  { induction files as [| f files IH]; intros st Hst; cbn [fold_left];
      [exact Hst |].
    apply IH. now apply count_file_ok. }
  apply H. split; [constructor | intros k v []].
Qed.

Lemma entry_le_sum (counts : list (string * Z)) k v :
  (forall k' v', In (k', v') counts -> 0 <= v') ->
  In (k, v) counts -> v <= sum_counts counts.
Proof.
  induction counts as [| [k' v'] counts IH]; intros Hall Hin; [contradiction |].
  unfold sum_counts in *. cbn [fold_right snd].
  assert (Hrest : 0 <= fold_right (fun kv acc => snd kv + acc) 0 counts).
  { clear IH Hin. induction counts as [| [k1 v1] counts IH1]; simpl; [lia |].
    assert (0 <= v1) by (apply (Hall k1 v1); right; now left).
    assert (0 <= fold_right (fun kv acc => snd kv + acc) 0 counts).
    { apply IH1. intros k2 v2 H2. apply (Hall k2 v2).
      destruct H2 as [H2 | H2]; [now left | right; now right]. }
    lia. }
  assert (0 <= v') by (apply (Hall k' v'); now left).
  destruct Hin as [Heq | Hin].
  - injection Heq as <- <-. lia.
  - assert (v <= fold_right (fun kv acc => snd kv + acc) 0 counts).
    { apply IH; [| exact Hin]. intros k2 v2 H2. apply (Hall k2 v2). now right. }
    lia.
Qed.

Lemma percentage_range (lines total : Z) :
  0 <= lines <= total -> 0 < total ->
  (0 <= percentage lines total)%Q /\ (percentage lines total <= 100)%Q.
Proof.
  intros Hl Ht. unfold percentage.
  destruct total as [| t | t]; try lia.
  unfold Qle, Qmult, Qdiv, Qinv, inject_Z. simpl. split; nia.
Qed.

(** X19: the languages of the statistics are distinct languages of the
    extension table, and each percentage lies between 0 and 100. *)
Theorem language_percentages_range :
  forall files,
    NoDup (map fst (LanguageStats.languages (_analyze_languages files)))
    /\ forall l p,
        In (l, p) (LanguageStats.languages (_analyze_languages files)) ->
        known_language l /\ (0 <= p)%Q /\ (p <= 100)%Q.
Proof.
  intros files. unfold _analyze_languages.
  pose proof (count_languages_ok files) as [Hnd Hall].
  pose proof (count_languages_sum files) as Hsum.
  destruct (count_languages files) as [counts total].
  cbn [fst snd] in *. cbn [LanguageStats.languages].
  destruct (total >? 0) eqn:Hpos; [| split; [constructor | intros l p []]].
  split.
  - rewrite map_map.
    rewrite (map_ext _ fst); [exact Hnd |]. now intros [k v].
  - intros l p Hin. apply in_map_iff in Hin.
    destruct Hin as [[k v] [Heq Hin]]. injection Heq as <- <-.
    destruct (Hall k v Hin) as [Hknown Hv].
    split; [exact Hknown |].
    apply percentage_range; [| lia].
    split; [exact Hv |]. rewrite <- Hsum.
    apply (entry_le_sum counts k v); [| exact Hin].
    intros k' v' H'. now apply (Hall k' v').
Qed.

(** X19 at the two files of the end-to-end scenario. *)
Lemma language_percentages_range_witness :
  known_language "Python".
Proof.
  refine (proj1 (proj2 (language_percentages_range
                          (analyze_files Config.default Fixtures.flask_remote))
                       "Python" (percentage 2 2) _)).
  vm_compute. left. reflexivity.
Defined.

(* ===================================================================== *)
(** ** Further properties of the project-type heuristic *)
(* ===================================================================== *)

Lemma has_name_dec (n : string) (files : list FileData.t) :
  {has_name n files} + {~ has_name n files}.
Proof. apply in_dec, string_dec. Qed.

(** Concludes for a file set whose label is known. *)
Ltac label_known :=
  match goal with
  | H : _detect_project_type ?fs = _ |- _ =>
      rewrite H; split;
      [ simpl; tauto
      | split; [ intros Heq; discriminate Heq
               | intros Hno; exfalso; apply Hno; tauto ] ]
  end.

(** X20: the label is always one of the twelve labels of the heuristic,
    and it is "General Project" exactly when none of the nine manifest
    names (package.json, requirements.txt, pyproject.toml, pom.xml,
    build.gradle, cargo.toml, go.mod, gemfile, compared in lower case)
    is the name of a file. *)
Theorem project_type_general :
  forall files,
    In (_detect_project_type files) all_labels
    /\ (_detect_project_type files = "General Project"
        <-> ~ (node_manifest files \/ python_manifest files
               \/ java_build_file files \/ rust_manifest files
               \/ go_manifest files \/ ruby_manifest files)).
Proof.
  intros files.
  destruct (has_name_dec "package.json" files) as [Hn | Hn].
  { pose proof (node_branch files Hn) as Hl. simpl in Hl.
    destruct Hl as [H | [H | [H | []]]]; symmetry in H; label_known. }
  assert (Hpy : {python_manifest files} + {~ python_manifest files}).
  { unfold python_manifest.
    destruct (has_name_dec "requirements.txt" files);
      destruct (has_name_dec "pyproject.toml" files); tauto. }
  destruct Hpy as [Hp | Hp].
  { pose proof (python_branch files Hn Hp) as Hl. simpl in Hl.
    destruct Hl as [H | [H | [H | [H | []]]]]; symmetry in H; label_known. }
  assert (Hjv : {java_build_file files} + {~ java_build_file files}).
  { unfold java_build_file.
    destruct (has_name_dec "pom.xml" files);
      destruct (has_name_dec "build.gradle" files); tauto. }
  destruct Hjv as [Hj | Hj].
  { assert (H : _detect_project_type files = "Java Project").
    { revert Hn Hp Hj.
      unfold node_manifest, python_manifest, java_build_file, has_name,
        _detect_project_type.
      intros; settle_tests; reflexivity. }
    label_known. }
  destruct (has_name_dec "cargo.toml" files) as [Hr | Hr].
  { assert (H : _detect_project_type files = "Rust Project").
    { revert Hn Hp Hj Hr.
      unfold node_manifest, python_manifest, java_build_file, has_name,
        _detect_project_type.
      intros; settle_tests; reflexivity. }
    unfold rust_manifest. label_known. }
  destruct (has_name_dec "go.mod" files) as [Hg | Hg].
  { assert (H : _detect_project_type files = "Go Project").
    { revert Hn Hp Hj Hr Hg.
      unfold node_manifest, python_manifest, java_build_file, has_name,
        _detect_project_type.
      intros; settle_tests; reflexivity. }
    unfold go_manifest. label_known. }
  destruct (has_name_dec "gemfile" files) as [Hb | Hb].
  { assert (H : _detect_project_type files = "Ruby Project").
    { revert Hn Hp Hj Hr Hg Hb.
      unfold node_manifest, python_manifest, java_build_file, has_name,
        _detect_project_type.
      intros; settle_tests; reflexivity. }
    unfold ruby_manifest. label_known. }
  assert (H : _detect_project_type files = "General Project").
  { revert Hn Hp Hj Hr Hg Hb.
    unfold node_manifest, python_manifest, java_build_file, has_name,
      _detect_project_type.
    intros; settle_tests; reflexivity. }
  rewrite H. split; [simpl; tauto |].
  split; [| reflexivity].
  intros _. unfold node_manifest, rust_manifest, go_manifest, ruby_manifest.
  tauto.
Qed.

(** A marker that is not empty is found by the scan of the non-empty
    contents exactly when some content holds it. *)
Lemma content_mentions_iff (marker : string) (files : list FileData.t) :
  marker <> EmptyString ->
  content_mentions marker files = true <-> content_has marker files.
Proof.
  intros Hm. unfold content_mentions, content_has.
  rewrite existsb_exists. split.
  - intros [f [Hin Hc]]. apply filter_In in Hin. exists f. tauto.
  - intros [f [Hin Hc]]. exists f. split; [| exact Hc].
    apply filter_In. split; [exact Hin |].
    unfold truthy. destruct (FileData.content f) as [| c s]; [| reflexivity].
    destruct marker; [congruence | discriminate Hc].
Qed.

Lemma content_mentions_not (marker : string) (files : list FileData.t) :
  marker <> EmptyString ->
  content_mentions marker files = false <-> ~ content_has marker files.
Proof.
  intros Hm. rewrite <- (content_mentions_iff marker files Hm).
  destruct (content_mentions marker files); split; intros H;
    try discriminate; try reflexivity.
  exfalso. now apply H.
Qed.

(** X21: inside the Python branch (no package.json, and requirements.txt
    or pyproject.toml) the rules are tried in the order manage.py,
    "flask" in a content, "fastapi" in a content: a file named manage.py
    makes a "Django Application" whatever the contents say, and "flask"
    wins over "fastapi". *)
Theorem python_branch_order :
  forall files,
    ~ node_manifest files ->
    python_manifest files ->
    let label := _detect_project_type files in
    (has_name "manage.py" files -> label = "Django Application")
    /\ (~ has_name "manage.py" files -> content_has "flask" files ->
        label = "Flask Application")
    /\ (~ has_name "manage.py" files -> ~ content_has "flask" files ->
        content_has "fastapi" files -> label = "FastAPI Application")
    /\ (~ has_name "manage.py" files -> ~ content_has "flask" files ->
        ~ content_has "fastapi" files -> label = "Python Project").
Proof.
  intros files Hn Hp label. subst label.
  unfold node_manifest, python_manifest, has_name in *.
  unfold _detect_project_type. settle_tests.
  repeat split.
  - intros Hm. settle_tests. reflexivity.
  - intros Hm Hflask. settle_tests.
    apply content_mentions_iff in Hflask; [| discriminate].
    now rewrite Hflask.
  - intros Hm Hflask Hfast. settle_tests.
    apply content_mentions_not in Hflask; [| discriminate].
    apply content_mentions_iff in Hfast; [| discriminate].
    now rewrite Hflask, Hfast.
  - intros Hm Hflask Hfast. settle_tests.
    apply content_mentions_not in Hflask; [| discriminate].
    apply content_mentions_not in Hfast; [| discriminate].
    now rewrite Hflask, Hfast.
Qed.

(** X21 at a project with manage.py whose requirements mention flask. *)
Lemma python_branch_order_witness :
  _detect_project_type Fixtures.django_files = "Django Application".
Proof.
  apply (python_branch_order Fixtures.django_files).
  - vm_compute. intros [H | [H | []]]; discriminate H.
  - left. vm_compute. left. reflexivity.
  - vm_compute. right. left. reflexivity.
Defined.

Lemma vue_extension_test files :
  existsb (fun ext => contains ".vue" ext) (file_extensions_of files) = true
  <-> has_vue_extension files.
Proof.
  unfold has_vue_extension, file_extensions_of.
  rewrite existsb_exists. split.
  - intros [ext [Hin Hext]]. apply in_map_iff in Hin.
    destruct Hin as [f [<- Hf]]. now exists f.
  - intros [f [Hf Hext]]. exists (FileData.extension f). split.
    + now apply in_map.
    + exact Hext.
Qed.

(** X22: inside the Node branch, when no extension holds .jsx or .tsx,
    the label is "Vue.js Application" exactly when some extension holds
    .vue, and "Node.js Application" otherwise; as for React, the contents
    of the files play no part. *)
Theorem node_branch_vue :
  forall files,
    node_manifest files ->
    ~ has_react_extension files ->
    (_detect_project_type files = "Vue.js Application"
     <-> has_vue_extension files)
    /\ (_detect_project_type files = "Node.js Application"
        <-> ~ has_vue_extension files).
Proof.
  intros files Hn Hreact.
  rewrite <- react_extension_test in Hreact.
  rewrite <- vue_extension_test.
  unfold node_manifest, has_name in Hn. unfold _detect_project_type.
  settle_tests.
  destruct (existsb (fun ext => contains ".jsx" ext || contains ".tsx" ext)
                    (file_extensions_of files));
    [exfalso; now apply Hreact |].
  destruct (existsb (fun ext => contains ".vue" ext)
                    (file_extensions_of files));
    repeat split; try reflexivity; try discriminate; intros H;
    try discriminate H; exfalso; now apply H.
Qed.

(** X22 at a manifest next to App.vue. *)
Lemma node_branch_vue_witness :
  _detect_project_type Fixtures.vue_files = "Vue.js Application".
Proof.
  apply (node_branch_vue Fixtures.vue_files).
  - vm_compute. left. reflexivity.
  - intros [f [[<- | [<- | []]] [H | H]]]; discriminate H.
  - exists {| FileData.path := "src/App.vue"; FileData.name := "App.vue";
              FileData.extension := ".vue"; FileData.size := 0;
              FileData.content := "" |}.
    split; [right; left; reflexivity | reflexivity].
Defined.

(* ===================================================================== *)
(** ** Properties of the repository model *)
(* ===================================================================== *)

Lemma max_item_spec (items : list (string * Q)) :
  forall best,
    (RepositoryData.max_item best items = best
     \/ In (RepositoryData.max_item best items) items)
    /\ (snd best <= snd (RepositoryData.max_item best items))%Q
    /\ (forall kv, In kv items ->
                   (snd kv <= snd (RepositoryData.max_item best items))%Q).
Proof.
  induction items as [| kv rest IH]; intros best; cbn [RepositoryData.max_item].
  - repeat split; [now left | apply Qle_refl | intros kv []].
  - destruct (Qle_bool (snd kv) (snd best)) eqn:Hle.
    + apply Qle_bool_iff in Hle.
      destruct (IH best) as [Hin [Hbest Hall]].
      repeat split.
      * destruct Hin as [-> | Hin]; [now left | right; now right].
      * exact Hbest.
      * intros kv' [<- | Hkv']; [now apply Qle_trans with (snd best) | auto].
    + assert (Hlt : (snd best <= snd kv)%Q).
      { apply Qlt_le_weak, Qnot_le_lt. intros H.
        apply Qle_bool_iff in H. congruence. }
      destruct (IH kv) as [Hin [Hkv Hall]].
      repeat split.
      * right. destruct Hin as [-> | Hin]; [now left | now right].
      * now apply Qle_trans with (snd kv).
      * intros kv' [<- | Hkv']; [exact Hkv | auto].
Qed.

(** X23: when the statistics name languages, the main language is one of
    them and no language has a larger percentage; when they name none,
    it is the language declared by the repository, or "Unknown" when
    that is empty. *)
Theorem main_language_is_largest :
  forall self : RepositoryData.t,
    let stats := LanguageStats.languages (RepositoryData.languages self) in
    (stats <> [] ->
     exists p,
       In (RepositoryData.get_main_language self, p) stats
       /\ forall l' p', In (l', p') stats -> (p' <= p)%Q)
    /\ (stats = [] ->
        RepositoryData.get_main_language self
        = if String.eqb (RepositoryData.language self) EmptyString
          then "Unknown" else RepositoryData.language self).
Proof.
  intros self stats. subst stats. unfold RepositoryData.get_main_language.
  destruct (LanguageStats.languages (RepositoryData.languages self))
    as [| kv rest].
  - split; [congruence |]. intros _. unfold truthy.
    now destruct (String.eqb (RepositoryData.language self) EmptyString).
  - split; [| discriminate]. intros _.
    destruct (max_item_spec rest kv) as [Hin [Hbest Hall]].
    exists (snd (RepositoryData.max_item kv rest)).
    rewrite <- surjective_pairing. split.
    + destruct Hin as [-> | Hin]; [now left | now right].
    + intros l' p' [Heq | Hin']; [| exact (Hall (l', p') Hin')].
      change p' with (snd (l', p')). rewrite <- Heq. exact Hbest.
Qed.

(** X23 at the repository of the end-to-end scenario. *)
Lemma main_language_is_largest_witness :
  exists p,
    In (RepositoryData.get_main_language Fixtures.demo_repo, p)
       (LanguageStats.languages (RepositoryData.languages Fixtures.demo_repo))
    /\ forall l' p',
        In (l', p')
           (LanguageStats.languages (RepositoryData.languages Fixtures.demo_repo)) ->
        (p' <= p)%Q.
Proof.
  apply (main_language_is_largest Fixtures.demo_repo).
  vm_compute. discriminate.
Defined.

(* ===================================================================== *)
(** ** Properties of the code-sample section *)
(* ===================================================================== *)

Lemma main_sample_shape repo_data :
  forall names,
    (List.length (main_sample repo_data names) <= 1)%nat
    /\ forall s, In s (main_sample repo_data names) ->
                 startswith "### " s = true.
Proof.
  induction names as [| filename rest IH]; cbn [main_sample].
  - split; [simpl; lia | intros s []].
  - destruct (RepositoryData.get_file_by_name repo_data filename) as [f |];
      [| exact IH].
    destruct (truthy (FileData.content f)); [| exact IH].
    split; [simpl; lia |]. intros s [<- | []]. apply prefix_app.
Qed.

Lemma flat_map_short {A B : Type} (f : A -> list B) (l : list A) :
  (forall x, (List.length (f x) <= 1)%nat) ->
  (List.length (flat_map f l) <= List.length l)%nat.
Proof.
  intros Hf. induction l as [| x l IH]; cbn [flat_map]; [simpl; lia |].
  rewrite length_app. specialize (Hf x). simpl. lia.
Qed.

Lemma config_samples_shape repo_data :
  (List.length (config_samples repo_data) <= 2)%nat
  /\ forall s, In s (config_samples repo_data) -> startswith "### " s = true.
Proof.
  unfold config_samples. split.
  - etransitivity.
    + apply flat_map_short. intros f.
      destruct (truthy (FileData.content f)
                && (String.length (FileData.content f) <? 1000)%nat);
        simpl; lia.
    + rewrite length_firstn. lia.
  - intros s Hin. apply in_flat_map in Hin. destruct Hin as [f [_ Hin]].
    destruct (truthy (FileData.content f)
              && (String.length (FileData.content f) <? 1000)%nat);
      [| contradiction].
    destruct Hin as [<- | []]. apply prefix_app.
Qed.

(** X24: the code-sample section is built from at most three samples
    (one entry point, two configuration files); it is the sentence "No
    significant code samples found." when there is none, and starts with
    a "### " heading otherwise, so it is never empty. *)
Theorem code_samples_shape :
  forall repo_data,
    (List.length (samples_of repo_data) <= 3)%nat
    /\ (samples_of repo_data = [] ->
        _create_code_samples repo_data = "No significant code samples found.")
    /\ (samples_of repo_data <> [] ->
        startswith "### " (_create_code_samples repo_data) = true)
    /\ _create_code_samples repo_data <> EmptyString.
Proof.
  intros repo_data.
  destruct (main_sample_shape repo_data main_files) as [Hm Hms].
  destruct (config_samples_shape repo_data) as [Hc Hcs].
  assert (Hstart : forall s, In s (samples_of repo_data) ->
                             startswith "### " s = true).
  { intros s Hin. apply in_app_or in Hin. destruct Hin; auto. }
  assert (Hlen : (List.length (samples_of repo_data) <= 3)%nat)
    by (unfold samples_of; rewrite length_app; lia).
  unfold _create_code_samples. fold (samples_of repo_data).
  destruct (samples_of repo_data) as [| s rest] eqn:Hs.
  - repeat split; [exact Hlen | congruence | discriminate].
  - assert (Hjoin : startswith "### " (join (nl ++ nl) (s :: rest)) = true).
    { specialize (Hstart s (or_introl eq_refl)).
      apply prefix_split in Hstart. rewrite Hstart.
      unfold join. destruct rest; cbn [String.concat];
        rewrite ?append_assoc; apply prefix_app. }
    repeat split; [exact Hlen | discriminate | |].
    + intros _. exact Hjoin.
    + intros Hempty. rewrite Hempty in Hjoin. discriminate Hjoin.
Qed.

(* ===================================================================== *)
(** ** Properties of src/utils.py *)
(* ===================================================================== *)

Import Utils.

(** Replacing a one-character text by an underscore, character by
    character. *)
Lemma replace_char (x : ascii) (s : string) :
  replace (String x EmptyString) "_" s
  = smap (fun c => if Ascii.eqb c x then "_"%char else c) s.
Proof.
  unfold replace. induction s as [| c s IH]; [reflexivity |].
  cbn [replace_from smap String.prefix String.length Nat.sub].
  rewrite prefix_nil.
  destruct (ascii_dec x c) as [<- | Hne].
  - rewrite Ascii.eqb_refl. simpl. now rewrite IH.
  - assert (Hc : Ascii.eqb c x = false)
      by (apply Ascii.eqb_neq; congruence).
    now rewrite Hc, IH.
Qed.

Lemma smap_smap (f g : ascii -> ascii) (s : string) :
  smap g (smap f s) = smap (fun c => g (f c)) s.
Proof. induction s as [| c s IH]; simpl; [reflexivity | now rewrite IH]. Qed.

Lemma smap_ext (f g : ascii -> ascii) (s : string) :
  (forall c, f c = g c) -> smap f s = smap g s.
Proof.
  intros H. induction s as [| c s IH]; simpl; [reflexivity |].
  now rewrite H, IH.
Qed.

Lemma smap_fixes (f : ascii -> ascii) (s : string) :
  (forall c, In c (chars s) -> f c = c) -> smap f s = s.
Proof.
  induction s as [| c s IH]; intros H; simpl; [reflexivity |].
  rewrite H by now left. f_equal. apply IH. intros d Hd. apply H. now right.
Qed.

Lemma smap_chars (f : ascii -> ascii) (s : string) (c : ascii) :
  In c (chars (smap f s)) -> exists c0, In c0 (chars s) /\ c = f c0.
Proof.
  induction s as [| d s IH]; simpl; [intros [] |].
  intros [<- | H]; [exists d; split; [now left | reflexivity] |].
  destruct (IH H) as [c0 [Hc0 ->]]. exists c0. split; [now right | reflexivity].
Qed.

(** The nine replacements one after the other are one pass that maps
    each of the nine characters to an underscore. *)
Lemma replacements_at_once (s : string) :
  fold_left (fun name char => replace (String char EmptyString) "_" name)
            (list_ascii_of_string invalid_chars) s
  = smap replace_invalid s.
Proof.
  cbn [fold_left list_ascii_of_string invalid_chars append].
  rewrite !replace_char, !smap_smap.
  apply smap_ext.
  intros [[] [] [] [] [] [] [] []]; reflexivity.
Qed.

Lemma replace_invalid_valid (c : ascii) :
  in_chars (replace_invalid c) invalid_chars = false.
Proof. destruct c as [[] [] [] [] [] [] [] []]; reflexivity. Qed.

Lemma replace_invalid_fixes (c : ascii) :
  in_chars c invalid_chars = false -> replace_invalid c = c.
Proof. unfold replace_invalid. now intros ->. Qed.

Lemma sanitize_eq (filename : string) :
  sanitize_filename filename
  = if truthy (strip_chars " ." (smap replace_invalid filename))
    then strip_chars " ." (smap replace_invalid filename)
    else "README".
Proof. unfold sanitize_filename. now rewrite replacements_at_once. Qed.

Lemma strip_chars_chars (cs s : string) (c : ascii) :
  In c (chars (strip_chars cs s)) -> In c (chars s).
Proof.
  unfold strip_chars. intros H.
  apply (ls_chars (fun c => in_chars c cs) (lstrip_chars cs)
           (lstrip_chars_eq cs)).
  apply (rs_chars (fun c => in_chars c cs) (rstrip_chars cs)
           (rstrip_chars_eq cs)).
  exact H.
Qed.

Lemma sanitize_valid (filename : string) (c : ascii) :
  In c (chars (sanitize_filename filename)) ->
  in_chars c invalid_chars = false.
Proof.
  rewrite sanitize_eq.
  destruct (truthy (strip_chars " ." (smap replace_invalid filename))).
  - intros H. apply strip_chars_chars, smap_chars in H.
    destruct H as [c0 [_ ->]]. apply replace_invalid_valid.
  - simpl. intros H.
    repeat (destruct H as [<- | H]; [reflexivity |]). contradiction.
Qed.

(** X25: a sanitized file name is never empty and holds none of the
    characters less-than, greater-than, colon, double quote, slash,
    backslash, bar, question mark and star. *)
Theorem sanitize_filename_safe :
  forall filename,
    sanitize_filename filename <> EmptyString
    /\ forall c, In c (chars (sanitize_filename filename)) ->
                 in_chars c invalid_chars = false.
Proof.
  intros filename. split; [| apply sanitize_valid].
  rewrite sanitize_eq.
  destruct (truthy (strip_chars " ." (smap replace_invalid filename))) eqn:Ht;
    [| discriminate].
  intros Hempty. rewrite Hempty in Ht. discriminate Ht.
Qed.

(** X25 at the name "My:App/Name". *)
Lemma sanitize_filename_safe_witness :
  in_chars "_"%char invalid_chars = false.
Proof.
  apply (sanitize_filename_safe "My:App/Name").
  vm_compute. right. right. left. reflexivity.
Defined.

(** X26: sanitizing is idempotent: a sanitized name is left as it is. *)
Theorem sanitize_filename_idempotent :
  forall filename,
    sanitize_filename (sanitize_filename filename) = sanitize_filename filename.
Proof.
  intros filename.
  assert (Hvalid : forall c, In c (chars (sanitize_filename filename)) ->
                             replace_invalid c = c).
  { intros c Hc. now apply replace_invalid_fixes, (sanitize_valid filename). }
  rewrite (sanitize_eq (sanitize_filename filename)).
  rewrite (smap_fixes _ _ Hvalid).
  rewrite sanitize_eq.
  destruct (truthy (strip_chars " ." (smap replace_invalid filename))) eqn:Ht.
  - rewrite strip_chars_strip_chars. now rewrite Ht.
  - reflexivity.
Qed.

Lemma chars_app (a b : string) : chars (a ++ b) = (chars a ++ chars b)%list.
Proof.
  unfold chars. induction a as [| c a IH]; simpl; [reflexivity |].
  now rewrite IH.
Qed.

(** X27: the default output file, readme-<name>.md with the sanitized
    repository name, holds no slash and no backslash: joined to the
    directory readmes it names a file of that directory, whatever the
    repository name is. *)
Theorem default_output_name_flat :
  forall repo_name,
    ~ In "/"%char (chars (Main.default_output_name repo_name))
    /\ ~ In "\"%char (chars (Main.default_output_name repo_name)).
Proof.
  intros repo_name. unfold Main.default_output_name.
  rewrite !chars_app.
  split; intros H; apply in_app_or in H;
    (destruct H as [H | H];
     [ simpl in H;
       repeat (destruct H as [H | H]; [discriminate H |]); exact H
     | apply in_app_or in H; destruct H as [H | H];
       [ apply sanitize_valid in H; discriminate H
       | simpl in H;
         repeat (destruct H as [H | H]; [discriminate H |]); exact H ] ]).
Qed.

Lemma length_take (n : nat) (s : string) :
  String.length (take n s) = Nat.min n (String.length s).
Proof.
  revert s. induction n as [| n IH]; intros s; [reflexivity |].
  destruct s as [| c s]; [reflexivity |]. simpl. now rewrite IH.
Qed.

Lemma take_prefix (n : nat) (s : string) : String.prefix (take n s) s = true.
Proof.
  revert s. induction n as [| n IH]; intros s; [apply prefix_nil |].
  destruct s as [| c s]; [reflexivity |]. simpl.
  destruct (ascii_dec c c); [apply IH | congruence].
Qed.

Lemma slice_to_prefix (k : Z) (s : string) :
  String.prefix (slice_to k s) s = true.
Proof. unfold slice_to. destruct (k <? 0); apply take_prefix. Qed.

(** X28: [truncate_text] returns a text that fits as it is; a longer
    one is cut to a prefix followed by the suffix.  The result has at
    most [max_length] characters provided the suffix itself fits; when
    [max_length] is smaller than the suffix, the cut is counted from the
    end of the text and the result is [max_length] characters longer
    than the text (when the text does not fit and is at least as long as
    what the suffix exceeds [max_length] by). *)
Theorem truncate_text_bound :
  forall text max_length suffix,
    let result := truncate_text text max_length suffix in
    (Z.of_nat (String.length text) <= max_length -> result = text)
    /\ (max_length < Z.of_nat (String.length text) ->
        exists kept,
          result = kept ++ suffix /\ String.prefix kept text = true)
    /\ (Z.of_nat (String.length suffix) <= max_length ->
        Z.of_nat (String.length result) <= max_length)
    /\ (max_length < Z.of_nat (String.length text) ->
        max_length < Z.of_nat (String.length suffix) ->
        Z.of_nat (String.length suffix) - max_length
        <= Z.of_nat (String.length text) ->
        Z.of_nat (String.length result)
        = Z.of_nat (String.length text) + max_length).
Proof.
  intros text max_length suffix result. subst result. unfold truncate_text.
  destruct (Z.of_nat (String.length text) <=? max_length) eqn:Hfit.
  - split; [reflexivity |]. repeat split; lia.
  - split; [lia |]. split; [| split].
    + intros _. eexists. split; [reflexivity | apply slice_to_prefix].
    + intros Hs. rewrite length_append. unfold slice_to.
      assert (Hk : (max_length - Z.of_nat (String.length suffix) <? 0) = false)
        by lia.
      rewrite Hk, length_take. lia.
    + intros _ Hs Hlen. rewrite length_append. unfold slice_to.
      assert (Hk : (max_length - Z.of_nat (String.length suffix) <? 0) = true)
        by lia.
      rewrite Hk, length_take. lia.
Qed.

(** X28 at an 11-character text: cut to 8 characters with the default
    suffix, and grown to 13 when [max_length] is 2. *)
Lemma truncate_text_bound_witness :
  Z.of_nat (String.length (truncate_text "hello world" 8 "...")) <= 8
  /\ Z.of_nat (String.length (truncate_text "hello world" 2 "..."))
     = Z.of_nat (String.length "hello world") + 2.
Proof.
  split.
  - apply (truncate_text_bound "hello world" 8 "..."). simpl. lia.
  - apply (truncate_text_bound "hello world" 2 "..."); simpl; lia.
Defined.

(** *** Occurrences in parts of a text *)

Lemma take_all (n : nat) (s : string) :
  (String.length s <= n)%nat -> take n s = s.
Proof.
  revert s. induction n as [| n IH]; intros s Hn.
  - destruct s; [reflexivity | simpl in Hn; lia].
  - destruct s as [| c s]; [reflexivity |]. simpl in *. f_equal. apply IH. lia.
Qed.

Lemma contains_take (p s : string) (n : nat) :
  contains p (take n s) = true -> contains p s = true.
Proof.
  intros H.
  assert (Hmore : forall m, contains p (take (n + m) s) = true).
  { induction m as [| m IH]; [now rewrite Nat.add_0_r |].
    rewrite Nat.add_succ_r. now apply contains_take_more. }
  specialize (Hmore (String.length s)).
  now rewrite take_all in Hmore by lia.
Qed.

Lemma contains_drop (p s : string) (n : nat) :
  contains p (drop n s) = true -> contains p s = true.
Proof.
  revert s. induction n as [| n IH]; intros s H; [now destruct s |].
  destruct s as [| c s]; [exact H |].
  cbn [drop] in H. rewrite contains_cons, (IH s H).
  now destruct (String.prefix p (String c s)).
Qed.

(** Stripping white space brings no occurrence in. *)
Lemma contains_strip (p s : string) :
  contains p s = false -> contains p (strip s) = false.
Proof.
  intros H. unfold strip.
  destruct (rs_take is_space rstrip rstrip_eq (lstrip s)) as [k Hk].
  destruct (ls_drop is_space lstrip lstrip_eq s) as [j Hj].
  destruct (contains p (rstrip (lstrip s))) eqn:Hc; [| reflexivity].
  rewrite Hk in Hc. apply contains_take in Hc.
  rewrite Hj in Hc. apply contains_drop in Hc. congruence.
Qed.

Lemma prefix_nl3_leading (s : string) :
  String.prefix nl3 s = true -> (3 <= leading_newlines s)%nat.
Proof.
  intros H. apply prefix_split in H. rewrite H. simpl. lia.
Qed.

(** The squeezed text has no three newlines in a row, and starts with at
    most as many newlines as are still allowed after [run] of them. *)
Lemma squeeze_from_tidy (s : string) :
  forall run,
    contains nl3 (squeeze_from run s) = false
    /\ (leading_newlines (squeeze_from run s) + Nat.min run 2 <= 2)%nat.
Proof.
  induction s as [| c s IH]; intros run; cbn [squeeze_from].
  - split; [reflexivity | simpl; lia].
  - destruct (Ascii.eqb c LF) eqn:Hc.
    + apply Ascii.eqb_eq in Hc. subst c.
      destruct (IH (S run)) as [Hno Hlead].
      destruct (run <? 2)%nat eqn:Hrun.
      * apply Nat.ltb_lt in Hrun. split.
        -- rewrite contains_cons, Hno.
           destruct (String.prefix nl3 (String LF (squeeze_from (S run) s)))
             eqn:Hp; [| reflexivity].
           apply prefix_nl3_leading in Hp. simpl in Hp. lia.
        -- simpl. lia.
      * apply Nat.ltb_ge in Hrun. split; [exact Hno | lia].
    + destruct (IH O) as [Hno _]. split.
      * rewrite contains_cons, Hno.
        assert (Hp : String.prefix nl3 (String c (squeeze_from 0 s)) = false).
        { unfold nl3, nl. cbn [append String.prefix].
          destruct (ascii_dec LF c) as [<- | _]; [| reflexivity].
          rewrite Ascii.eqb_refl in Hc. discriminate Hc. }
        now rewrite Hp.
      * cbn [leading_newlines]. rewrite Hc. simpl. lia.
Qed.

Lemma is_space_white (c : ascii) :
  is_space c = existsb (Ascii.eqb c) white_space.
Proof. destruct c as [[] [] [] [] [] [] [] []]; reflexivity. Qed.

(** What a word is made of. *)
Lemma word_chars (s : string) :
  word s = true ->
  s <> EmptyString
  /\ forall c, In c (chars s) -> is_space c = false /\ c <> LF.
Proof.
  unfold word. intros H. apply andb_true_iff in H. destruct H as [Hne Hall].
  split; [intros ->; discriminate Hne |].
  intros c Hc. rewrite forallb_forall in Hall.
  specialize (Hall c Hc). apply negb_true_iff in Hall.
  split; [now rewrite is_space_white |].
  intros ->. discriminate Hall.
Qed.

(** [rstrip] leaves a text that ends with a word as it is. *)
Lemma rstrip_solid (t : string) :
  (forall c, In c (chars t) -> is_space c = false) -> rstrip t = t.
Proof.
  induction t as [| c t IH]; intros Ht; [reflexivity |].
  rewrite rstrip_eq, IH by (intros d Hd; apply Ht; now right).
  destruct t; [| reflexivity]. rewrite (Ht c) by now left. reflexivity.
Qed.

Lemma rstrip_app_solid (x b : string) :
  b <> EmptyString ->
  (forall c, In c (chars b) -> is_space c = false) ->
  rstrip (x ++ b) = x ++ b.
Proof.
  intros Hne Hb. induction x as [| c x IH]; [now apply rstrip_solid |].
  simpl append. rewrite rstrip_eq, IH.
  destruct (x ++ b) eqn:Hxb; [| reflexivity].
  destruct x; simpl in Hxb; [contradiction | discriminate Hxb].
Qed.

(** The characters of a line of a text are characters of the text, and
    none is a newline. *)
Lemma split_line_chars (s : string) :
  forall line c,
    In line (split LF s) -> In c (chars line) -> In c (chars s) /\ c <> LF.
Proof.
  induction s as [| d s IH]; intros line c Hline Hc.
  - destruct Hline as [<- | []]. destruct Hc.
  - cbn [split] in Hline. destruct (Ascii.eqb d LF) eqn:Hd.
    + destruct Hline as [<- | Hline]; [destruct Hc |].
      destruct (IH line c Hline Hc) as [Hin Hlf]. split; [now right | exact Hlf].
    + destruct (split_cons LF s) as [h [t Hs]]. rewrite Hs in Hline, IH.
      destruct Hline as [<- | Hline].
      * destruct Hc as [<- | Hc].
        -- split; [now left |]. intros ->. rewrite Ascii.eqb_refl in Hd.
           discriminate Hd.
        -- destruct (IH h c (or_introl eq_refl) Hc) as [Hin Hlf].
           split; [now right | exact Hlf].
      * destruct (IH line c (or_intror Hline) Hc) as [Hin Hlf].
        split; [now right | exact Hlf].
Qed.

(** Without white space but newlines, no line has anything to strip. *)
Lemma rstrip_lines (s : string) :
  (forall c, In c (chars s) -> c <> LF -> is_space c = false) ->
  join nl (map rstrip (split LF s)) = s.
Proof.
  intros Hs. rewrite <- (join_split s) at 2. f_equal.
  rewrite <- (map_id (split LF s)) at 2. apply map_ext_in.
  intros line Hline. apply rstrip_solid. intros c Hc.
  destruct (split_line_chars s line c Hline Hc) as [Hin Hlf]. now apply Hs.
Qed.

Lemma newlines_S (n : nat) : newlines (S n) = String LF (newlines n).
Proof. reflexivity. Qed.

Lemma chars_newlines (n : nat) (c : ascii) :
  In c (chars (newlines n)) -> c = LF.
Proof.
  induction n as [| n IH]; [intros [] |].
  rewrite newlines_S. intros [<- | H]; [reflexivity | now apply IH].
Qed.

(** [squeeze_from] copies a text without newlines, and forgets the run
    of newlines before it once it has copied a character. *)
Lemma squeeze_from_word (a rest : string) :
  a <> EmptyString ->
  (forall c, In c (chars a) -> c <> LF) ->
  forall run, squeeze_from run (a ++ rest) = a ++ squeeze_from O rest.
Proof.
  induction a as [| c a IH]; intros Hne Ha run; [contradiction |].
  simpl append. cbn [squeeze_from].
  assert (Hc : Ascii.eqb c LF = false)
    by (apply Ascii.eqb_neq, Ha; now left).
  rewrite Hc. f_equal.
  destruct a as [| d a]; [reflexivity |].
  apply IH; [discriminate |]. intros e He. apply Ha. now right.
Qed.

(** Of a run of [n] newlines that follows [run] others, [squeeze_from]
    keeps as many as bring the run to two. *)
Lemma squeeze_from_newlines (rest : string) :
  forall n run,
    squeeze_from run (newlines n ++ rest)
    = newlines (Nat.min (run + n) 2 - Nat.min run 2)
      ++ squeeze_from (run + n) rest.
Proof.
  induction n as [| n IH]; intros run.
  - rewrite Nat.add_0_r, Nat.sub_diag. reflexivity.
  - rewrite newlines_S. simpl append. cbn [squeeze_from].
    rewrite Ascii.eqb_refl, IH.
    replace (S run + n)%nat with (run + S n)%nat by lia.
    destruct (run <? 2)%nat eqn:Hrun.
    + apply Nat.ltb_lt in Hrun.
      replace (Nat.min (run + S n) 2 - Nat.min run 2)%nat
        with (S (Nat.min (run + S n) 2 - Nat.min (S run) 2)) by lia.
      reflexivity.
    + apply Nat.ltb_ge in Hrun.
      replace (Nat.min (run + S n) 2 - Nat.min run 2)%nat
        with (Nat.min (run + S n) 2 - Nat.min (S run) 2)%nat by lia.
      reflexivity.
Qed.

Lemma append_nil_r (s : string) : s ++ EmptyString = s.
Proof. induction s as [| c s IH]; simpl; [reflexivity | now rewrite IH]. Qed.

(** Two words with [n] newlines between them come out of
    [clean_markdown] with [min n 2] newlines between them. *)
Lemma clean_markdown_run (a b : string) (n : nat) :
  word a = true ->
  word b = true ->
  clean_markdown (a ++ newlines n ++ b)
  = a ++ newlines (Nat.min n 2) ++ b.
Proof.
  intros Ha Hb.
  destruct (word_chars a Ha) as [Hane Hachars].
  destruct (word_chars b Hb) as [Hbne Hbchars].
  unfold clean_markdown.
  assert (Htruthy : truthy (a ++ newlines n ++ b) = true)
    by (destruct a; [contradiction | reflexivity]).
  rewrite Htruthy. cbv zeta.
  rewrite rstrip_lines.
  - unfold squeeze_newlines.
    rewrite squeeze_from_word
      by (assumption || (intros c Hc; now apply Hachars)).
    rewrite squeeze_from_newlines.
    rewrite <- (append_nil_r b) at 1.
    rewrite squeeze_from_word
      by (assumption || (intros c Hc; now apply Hbchars)).
    cbn [squeeze_from Nat.add Nat.min Nat.sub]. rewrite append_nil_r.
    rewrite Nat.sub_0_r.
    unfold strip.
    assert (Hl : lstrip (a ++ newlines (Nat.min n 2) ++ b)
                 = a ++ newlines (Nat.min n 2) ++ b).
    { destruct a as [| c a]; [contradiction |].
      simpl append. cbn [lstrip].
      rewrite (proj1 (Hachars c (or_introl eq_refl))). reflexivity. }
    rewrite Hl, <- !append_assoc.
    apply rstrip_app_solid; [exact Hbne |].
    intros c Hc. now apply Hbchars.
  - intros c Hc Hlf. rewrite !chars_app in Hc.
    apply in_app_or in Hc. destruct Hc as [Hc | Hc]; [now apply Hachars |].
    apply in_app_or in Hc. destruct Hc as [Hc | Hc]; [| now apply Hbchars].
    apply chars_newlines in Hc. contradiction.
Qed.

(** X29: a text cleaned by [clean_markdown] has no three newlines in a
    row and no white space at either end, and the empty text stays
    empty.  Between two words (texts without white space) a run of
    newlines of any length is cut to two, and a run of one or two is
    kept: [n] newlines become [min n 2]. *)
Theorem clean_markdown_tidy :
  forall content,
    contains nl3 (clean_markdown content) = false
    /\ strip (clean_markdown content) = clean_markdown content
    /\ (content = EmptyString -> clean_markdown content = EmptyString)
    /\ (forall a b n,
          word a = true ->
          word b = true ->
          content = a ++ newlines n ++ b ->
          clean_markdown content = a ++ newlines (Nat.min n 2) ++ b).
Proof.
  intros content. split; [| split; [| split]].
  - unfold clean_markdown. destruct (truthy content); [| reflexivity].
    apply contains_strip. unfold squeeze_newlines. apply squeeze_from_tidy.
  - unfold clean_markdown. destruct (truthy content); [| reflexivity].
    apply strip_strip.
  - intros ->. reflexivity.
  - intros a b n Ha Hb ->. now apply clean_markdown_run.
Qed.

(** X30: [detect_framework] lower-cases the file names but reads the
    manifest under the exact key "package.json": with a name that is
    package.json in lower case, the answer is "React" exactly when the
    content stored under that key mentions react in any case, it is
    never [None], and it is "Node.js" when nothing is stored under that
    key. *)
Theorem detect_framework_manifest :
  forall files file_contents,
    In "package.json" (map lower files) ->
    (detect_framework files file_contents = Some "React"
     <-> contains "react" (lower (get_content file_contents "package.json"))
         = true)
    /\ detect_framework files file_contents <> None
    /\ (dict_get file_contents "package.json" = None ->
        detect_framework files file_contents = Some "Node.js").
Proof.
  intros files file_contents Hin. apply mem_In in Hin.
  unfold detect_framework. rewrite Hin.
  split; [| split].
  - destruct (contains "react"
                (lower (get_content file_contents "package.json")));
      [split; reflexivity |].
    repeat match goal with
           | |- context [if ?b then _ else _] => destruct b
           end; split; intros H; discriminate H.
  - repeat match goal with
           | |- context [if ?b then _ else _] => destruct b
           end; discriminate.
  - intros Hmiss. unfold get_content. rewrite Hmiss. reflexivity.
Qed.

(** X30 at a manifest spelled Package.json. *)
Lemma detect_framework_manifest_witness :
  detect_framework ["Package.json"] [("Package.json", "react")]
  = Some "Node.js".
Proof.
  apply (detect_framework_manifest ["Package.json"] [("Package.json", "react")]).
  - left. reflexivity.
  - reflexivity.
Defined.

(** X5 at a one-line text. *)
Lemma fix_spacing_shortens_witness : fix_spacing "# Demo" = "# Demo".
Proof. apply (fix_spacing_shortens "# Demo"). reflexivity. Defined.

(** X13 at an API that fails twice before it serves. *)
Lemma api_requests_and_data_witness :
  exists k,
    (k < Z.to_nat (Config.max_retries Config.default))%nat
    /\ Fixtures.serving_after 2 "tree" k = ApiHttp 200 "tree".
Proof.
  refine (proj2 (proj2 (api_requests_and_data string Config.default
                          (Fixtures.serving_after 2 "tree"))) "tree" _).
  reflexivity.
Defined.

(** X20 at the files of the end-to-end scenario, which hold a manifest. *)
Lemma project_type_general_witness :
  _detect_project_type (analyze_files Config.default Fixtures.flask_remote)
  <> "General Project".
Proof.
  intros H.
  apply (project_type_general
           (analyze_files Config.default Fixtures.flask_remote)) in H.
  apply H. right. left. left. vm_compute. right. left. reflexivity.
Defined.

(** X24 at the repository of the end-to-end scenario. *)
Lemma code_samples_shape_witness :
  startswith "### " (_create_code_samples Fixtures.demo_repo) = true.
Proof.
  apply (code_samples_shape Fixtures.demo_repo).
  vm_compute. discriminate.
Defined.

(** X29 at two words with five newlines between them: two are left. *)
Lemma clean_markdown_tidy_witness :
  clean_markdown "a




b"
  = "a

b".
Proof.
  apply (proj2 (proj2 (proj2 (clean_markdown_tidy _))) "a" "b" 5%nat);
    reflexivity.
Defined.
